(** * LUCI line fitting: the [Fit] session of [LUCI/LuciFit.py]

    A shallow embedding of the [Fit] class (session construction, wavelength
    restriction, noise estimation, prior estimation, constraint assembly, the
    optimizer driver, result assembly and goodness of fit) together with the
    properties checked against it.

    Conventions.
    - NumPy floats are exact rationals ([Qc], Leibniz equality).  Non-finite
      values (inf, nan) have no counterpart: a quotient by zero is the field's
      [x / 0 = 0], and statements that depend on a quotient say so.  Where a
      non-finite value or a rounding decides the outcome, the statement
      carries the condition that excludes it ([binary64]), and the step in
      question is also run on IEEE-754 binary64 ([float64]).
    - NumPy arrays and Python lists are [list]s; an index out of range raises
      [IndexError] as in Python.
    - Python exceptions are values of [exn]; a method is a function into the
      monad [M] that threads the process-wide state ([world]: the module
      globals, standard output and the closure cells) and may raise.
    - Functions of NumPy, SciPy, astropy, emcee and of the sibling modules
      [LuciFunctions], [LuciFitParameters] and [LuciBayesian] are fields of the
      class [Collaborators]; every general theorem holds for all of them. *)

From stdpp Require Import gmap strings list fin_maps numbers pretty sorting.
From Stdlib Require Import QArith Qcanon Qcabs Lqa.
From Stdlib Require Floats.SpecFloat.

Open Scope Qc_scope.

(** ** Numbers *)

Definition qz (n : Z) : Qc := Q2Qc (inject_Z n).
Definition qd (n : Z) (d : positive) : Qc := Q2Qc (n # d).
Definition qn (n : nat) : Qc := qz (Z.of_nat n).

(** The finite numbers of IEEE-754 binary64 are the rationals
    [m * 2^e] with [|m| < 2^53] and [-1074 <= e <= 971].  An arithmetic
    operation of NumPy on float64 returns the exact result whenever that
    result is such a number, and a rounded one otherwise. *)
Definition pow2 (e : Z) : Qc :=
  if decide (0 ≤ e)%Z then qz (2 ^ e) else 1 / qz (2 ^ (- e)).

Definition binary64 (q : Qc) : Prop :=
  ∃ m e : Z, (Z.abs m < 2 ^ 53)%Z ∧ (-1074 ≤ e ≤ 971)%Z ∧ q = qz m * pow2 e.

(** IEEE-754 binary64 itself, with its signed zeros, infinities and nan, as
    the Standard Library specifies it (precision 53, maximal exponent
    1024). *)
Definition float64 : Type := SpecFloat.spec_float.

Definition float64_times : float64 → float64 → float64 :=
  SpecFloat.SFmul 53 1024.

Definition float64_zero : float64 := SpecFloat.S754_zero false.
Definition float64_inf : float64 := SpecFloat.S754_infinity false.
Definition float64_nan : float64 := SpecFloat.S754_nan.

(** Order and linear facts on [Qc] are proved on the underlying [Q]. *)
Ltac qc_lra :=
  unfold Qcle, Qclt, Qcminus, Qcplus, Qcopp, Q2Qc in *; simpl in *;
  rewrite ?Qred_correct in *; lra.

(** ** Exceptions and results *)

Inductive exn : Type :=
  | NameError (name : string)
  | ValueError (what : string)
  | IndexError
  | KeyError (key : string)
  | TypeError (what : string)
  | AttributeError (name : string)
  | LinAlgError
  | Exception_ (message : string).

#[global] Instance exn_eq_dec : EqDecision exn.
Proof. solve_decision. Defined.

Definition result (A : Type) : Type := exn + A.

#[global] Instance result_ret : MRet result := λ A a, inr a.
#[global] Instance result_bind : MBind result :=
  λ A B f r, match r with inl e => inl e | inr a => f a end.

Definition is_ok {A} (r : result A) : bool :=
  match r with inr _ => true | inl _ => false end.

(** ** Arrays *)

(** [a[i]] for a non-negative index. *)
Definition getitem {A} (a : list A) (i : nat) : result A :=
  match a !! i with Some v => inr v | None => inl IndexError end.

(** [a[i]] for a Python integer: a negative index counts from the end. *)
Definition getitem_z {A} (a : list A) (i : Z) : result A :=
  if decide (0 ≤ i)%Z then getitem a (Z.to_nat i)
  else if decide (0 ≤ Z.of_nat (length a) + i)%Z
       then getitem a (Z.to_nat (Z.of_nat (length a) + i))
       else inl IndexError.

(** [a[i] = v] for a non-negative index. *)
Definition setitem {A} (a : list A) (i : nat) (v : A) : result (list A) :=
  if decide (i < length a)%nat then inr (<[i := v]> a) else inl IndexError.

(** [a[lo:hi]] for non-negative bounds. *)
Definition slice {A} (a : list A) (lo hi : nat) : list A :=
  take (hi - lo) (drop lo a).

(** [[i for i, e in enumerate(l) if e == u]] *)
Definition inds_of {A} `{EqDecision A} (l : list A) (u : A) : list nat :=
  fst <$> filter (λ p, p.2 = u) (imap pair l).

(** [np.unique]: the distinct values in ascending order. *)
Section Unique.
Context {A : Type} `{EqDecision A} (leb : A → A → bool).

Fixpoint insert_unique (a : A) (l : list A) : list A :=
    match l with
    | [] => [a]
    | b :: l' =>
        if decide (a = b) then l
        else if leb a b then a :: l
        else b :: insert_unique a l'
    end.

Definition np_unique (l : list A) : list A := foldr insert_unique [] l.
End Unique.

(** ** Closures and their cells

    The constraint builders return dictionaries whose ['fun'] entry is a
    [lambda] that refers to the builder's local variables [ind_0] and
    [ind_unique].  Python binds such variables late: the closure holds the
    cells of the enclosing call, not the values they had when the [lambda]
    was evaluated.  One [frame] holds the cells of one call; closures of the
    same call share it. *)

Record frame : Type := Frame {
  ind_0 : option nat;
  ind_unique : option nat
}.

#[global] Instance frame_eq_dec : EqDecision frame.
Proof. solve_decision. Defined.

Abbreviation heap := (list frame).

(** The three [lambda] expressions of the class. *)
Inductive lambda_code : Type :=
  | sigma_fun   (* lambda x: x[3*ind_0+2] - x[3*ind_unique+2] *)
  | vel_fun     (* lambda x: 3e5 * ((1e7 / x[3*ind_unique+1] - self.line_dict.values()[...]) ...) - ... *)
  | multi_fun.  (* lambda x: x[3*ind_unique+1] - x[3*ind_0+1] - 10 *)

#[global] Instance lambda_code_eq_dec : EqDecision lambda_code.
Proof. solve_decision. Defined.

Record closure : Type := Closure {
  code : lambda_code;
  cells : nat   (* address of the frame whose cells the lambda refers to *)
}.

#[global] Instance closure_eq_dec : EqDecision closure.
Proof. solve_decision. Defined.

Inductive constraint_type : Type := eq_ | ineq.

#[global] Instance constraint_type_eq_dec : EqDecision constraint_type.
Proof. solve_decision. Defined.

(** [{'type': ..., 'fun': ...}] *)
Record constraint : Type := Constraint {
  type_ : constraint_type;
  fun_ : closure
}.

#[global] Instance constraint_eq_dec : EqDecision constraint.
Proof. solve_decision. Defined.

Definition assign_ind_0 (a v : nat) (h : heap) : heap :=
  alter (λ fr, Frame (Some v) (ind_unique fr)) a h.

Definition assign_ind_unique (a v : nat) (h : heap) : heap :=
  alter (λ fr, Frame (ind_0 fr) (Some v)) a h.

(** Calling a closure reads its cells as they are at the time of the call. *)
Definition call_closure (h : heap) (c : closure) (x : list Qc) : result Qc :=
  match h !! cells c with
  | None => inl (NameError "ind_0")
  | Some fr =>
      match code c with
      | sigma_fun =>
          match ind_0 fr, ind_unique fr with
          | Some i0, Some iu =>
              a ← getitem x (3 * i0 + 2);
              b ← getitem x (3 * iu + 2);
              mret (a - b)
          | None, _ => inl (NameError "ind_0")
          | _, None => inl (NameError "ind_unique")
          end
      | vel_fun =>
          (* Python 3: [self.line_dict.values()] is a view and cannot be
             subscripted; the first operand [1e7 / x[3*ind_unique+1]] is
             evaluated before it. *)
          match ind_unique fr with
          | Some iu =>
              _ ← getitem x (3 * iu + 1);
              inl (TypeError "'dict_values' object is not subscriptable")
          | None => inl (NameError "ind_unique")
          end
      | multi_fun =>
          match ind_unique fr, ind_0 fr with
          | Some iu, Some i0 =>
              a ← getitem x (3 * iu + 1);
              b ← getitem x (3 * i0 + 1);
              mret (a - b - qz 10)
          | None, _ => inl (NameError "ind_unique")
          | _, None => inl (NameError "ind_0")
          end
      end
  end.

Definition call_constraint (h : heap) (c : constraint) (x : list Qc) : result Qc :=
  call_closure h (fun_ c) x.

(** ** Constraint builders (lines 375-426)

    Each builder is given here as a function of the one attribute it reads
    ([sigma_rel], [vel_rel] or [lines]) and of the closure cells; the methods
    of the session wrap them below. *)

(** [{'type': 'eq', 'fun': lambda x: x[3*ind_0+2] - x[3*ind_unique+2]}],
    evaluated in the call whose cells are at address [a]. *)
Definition sigma_entry (a : nat) : constraint :=
  Constraint eq_ (Closure sigma_fun a).

(** The body of [for unique_ in unique_rels:] in [sigma_constraints]; the
    loop state is [sigma_dict_list] and the cells of the call at address [a]. *)
Definition sigma_group (a : nat) (inds_unique : list nat)
    (st : list constraint * heap) : list constraint * heap :=
  if decide (1 < length inds_unique)%nat then
    match inds_unique with
    | i0 :: rest =>
        foldl (λ st ind,
                 let h := assign_ind_unique a ind st.2 in
                 (st.1 ++ [sigma_entry a], h))
              (st.1, assign_ind_0 a i0 st.2) rest
    | [] => st
    end
  else st.

Definition sigma_constraints_body (sigma_rel : list Z) (h : heap)
    : list constraint * heap :=
  let a := length h in
  let unique_rels := np_unique Z.leb sigma_rel in
  foldl (λ st unique_, sigma_group a (inds_of sigma_rel unique_) st)
        ([], h ++ [Frame None None]) unique_rels.

(** The body of the group loop in [vel_constraints] and in
    [multiple_component_vel_constraint]: the dictionary is bound to the local
    [expr_dict] and the list that is returned is left as it is.  The loop
    state is the returned list, [expr_dict] and the cells. *)
Definition expr_group (ty : constraint_type) (lam : lambda_code) (a : nat)
    (inds_unique : list nat)
    (st : list constraint * option constraint * heap)
    : list constraint * option constraint * heap :=
  if decide (1 < length inds_unique)%nat then
    match inds_unique with
    | i0 :: rest =>
        foldl (λ st ind,
                 let h := assign_ind_unique a ind st.2 in
                 (st.1.1, Some (Constraint ty (Closure lam a)), h))
              (st.1.1, st.1.2, assign_ind_0 a i0 st.2) rest
    | [] => st
    end
  else st.

Definition vel_constraints_body (vel_rel : list Z) (h : heap)
    : list constraint * heap :=
  let a := length h in
  let unique_rels := np_unique Z.leb vel_rel in
  let st :=
    foldl (λ st unique_, expr_group eq_ vel_fun a (inds_of vel_rel unique_) st)
          ([], None, h ++ [Frame None None]) unique_rels in
  (st.1.1, st.2).

Definition multiple_component_vel_constraint_body (lines : list string)
    (h : heap)
    : list constraint * heap :=
  let a := length h in
  let unique_rels := np_unique String.leb lines in
  let st :=
    foldl (λ st unique_, expr_group ineq multi_fun a (inds_of lines unique_) st)
          ([], None, h ++ [Frame None None]) unique_rels in
  (st.1.1, st.2).

(** ** NumPy reductions used by the session *)

(** Scan for the first smallest element: [best] is the smallest value seen so
    far and [best_i] its index; [i] is the index of the head of [l]. *)
Fixpoint argmin_from (best_i : nat) (best : Qc) (i : nat) (l : list Qc) : nat :=
  match l with
  | [] => best_i
  | v :: l' =>
      if decide (v < best) then argmin_from i v (S i) l'
      else argmin_from best_i best (S i) l'
  end.

(** [np.argmin]: the index of the first occurrence of the minimum. *)
Definition np_argmin (l : list Qc) : result nat :=
  match l with
  | [] => inl (ValueError "attempt to get argmin of an empty sequence")
  | v :: l' => inr (argmin_from 0 v 1 l')
  end.

(** [np.argmax]: the index of the first occurrence of the maximum. *)
Definition np_argmax (l : list Qc) : result nat :=
  np_argmin (Qcopp <$> l).

Definition np_max (l : list Qc) : result Qc :=
  match l with
  | [] => inl (ValueError "zero-size array to reduction operation maximum which has no identity")
  | v :: l' => inr (foldl (λ m x, if decide (m < x) then x else m) v l')
  end.

Definition np_min (l : list Qc) : result Qc :=
  match l with
  | [] => inl (ValueError "zero-size array to reduction operation minimum which has no identity")
  | v :: l' => inr (foldl (λ m x, if decide (x < m) then x else m) v l')
  end.

Definition np_sum (l : list Qc) : Qc := foldr Qcplus (qz 0) l.

Definition np_zeros (n : nat) : list Qc := replicate n (qz 0).
Definition np_ones (n : nat) : list Qc := replicate n (qz 1).

(** An elementwise binary operation on two one-dimensional arrays, with
    NumPy's broadcasting of a one-element operand. *)
Definition broadcast2 (f : Qc → Qc → Qc) (a b : list Qc) : result (list Qc) :=
  if decide (length a = length b) then inr (zip_with f a b)
  else match a, b with
       | x :: nil, _ => inr (f x <$> b)
       | _, y :: nil => inr ((λ x, f x y) <$> a)
       | _, _ => inl (ValueError "operands could not be broadcast together")
       end.

(** [np.argmin(np.abs(np.array(axis) - bound))] *)
Definition nearest_index (axis : list Qc) (bound : Qc) : result nat :=
  np_argmin ((λ v, Qcabs (v - bound)) <$> axis).

(** ** Process-wide state *)

Record world : Type := World {
  bound_lower : option Qc;     (* the module global [bound_lower]; [None]: not bound yet *)
  bound_upper : option Qc;     (* the module global [bound_upper] *)
  model : option (list Qc);    (* the module global [model] of [log_likelihood] *)
  stdout : list string;        (* what [print] has written, oldest first *)
  closure_cells : heap;        (* the cells closures refer to *)
  rng : N                      (* state of NumPy's random generator *)
}.

Definition M (A : Type) : Type := world → result A * world.

#[global] Instance M_ret : MRet M := λ A a w, (inr a, w).
#[global] Instance M_bind : MBind M :=
  λ A B f m w, match m w with
               | (inl e, w') => (inl e, w')
               | (inr a, w') => f a w'
               end.

Definition lift {A} (r : result A) : M A := λ w, (r, w).
Definition raise {A} (e : exn) : M A := λ w, (inl e, w).

(** [try: m except: handler] *)
Definition try_except {A} (m : M A) (handler : exn → M A) : M A :=
  λ w, match m w with
       | (inl e, w') => handler e w'
       | (inr a, w') => (inr a, w')
       end.

Definition print (s : string) : M unit :=
  λ w, (inr (),
        World (bound_lower w) (bound_upper w) (model w) (stdout w ++ [s])
              (closure_cells w) (rng w)).

(** [global bound_lower, bound_upper] followed by the two assignments. *)
Definition assign_bounds (lo hi : Qc) : M unit :=
  λ w, (inr (),
        World (Some lo) (Some hi) (model w) (stdout w) (closure_cells w) (rng w)).

Definition read_bound_lower : M Qc :=
  λ w, match bound_lower w with
       | Some v => (inr v, w)
       | None => (inl (NameError "bound_lower"), w)
       end.

Definition read_bound_upper : M Qc :=
  λ w, match bound_upper w with
       | Some v => (inr v, w)
       | None => (inl (NameError "bound_upper"), w)
       end.

Definition assign_model (m : list Qc) : M unit :=
  λ w, (inr (),
        World (bound_lower w) (bound_upper w) (Some m) (stdout w)
              (closure_cells w) (rng w)).

Definition read_model : M (list Qc) :=
  λ w, match model w with
       | Some v => (inr v, w)
       | None => (inl (NameError "model"), w)
       end.

(** Run a constraint builder on the closure cells of the world. *)
Definition with_cells {A} (f : heap → A * heap) : M A :=
  λ w, let r := f (closure_cells w) in
       (inr r.1,
        World (bound_lower w) (bound_upper w) (model w) (stdout w) r.2 (rng w)).

(** A [for x in l:] with loop state [s], in [M] or in [result]. *)
Fixpoint for_each {F : Type → Type} `{MBind F, MRet F} {A S}
    (l : list A) (body : A → S → F S) (s : S) : F S :=
  match l with
  | [] => mret s
  | x :: l' => s' ← body x s; for_each l' body s'
  end.

(** ** Text of the messages *)

Definition nl : string := String (Ascii.ascii_of_nat 10) EmptyString.

Definition join_with (sep : string) (l : list string) : string :=
  match l with
  | [] => EmptyString
  | s :: l' => foldl (λ acc x, acc +:+ sep +:+ x) s l'
  end.

(** [repr] of a list of plain strings, as [str.format] prints it. *)
Definition repr_list (l : list string) : string :=
  "[" +:+ join_with ", " ((λ s, "'" +:+ s +:+ "'") <$> l) +:+ "]".

Definition unsupported_filter_message : string :=
  "The filter of your datacube is not supported by LUCI. We only support SN1, SN2, and SN3 at the moment.".

(** ** Values exchanged with the collaborators *)

Definition matrix : Type := list (list Qc).

(** A function applied to every entry. *)
Definition matrix_map (f : Qc → Qc) (m : matrix) : matrix :=
  (λ row : list Qc, f <$> row) <$> (m : list (list Qc)).

(** What the machine-learning predictor answers for one spectrum: the
    velocity and broadening estimates, and (for the mixture-density network)
    their standard deviations. *)
Record ml_prediction : Type := Prediction {
  mean_vel : Qc;
  mean_broad : Qc;
  std_vel : Qc;
  std_broad : Qc
}.

Definition ml_model : Type := list Qc → ml_prediction.

(** A value of the dictionary that [fit] returns. *)
Inductive pyval : Type :=
  | VNum (x : Qc)
  | VVec (v : list Qc).

#[global] Instance pyval_eq_dec : EqDecision pyval.
Proof. solve_decision. Defined.

(** What the session calls and this file does not define. *)
Class Collaborators : Type := {
  (* NumPy *)
  np_cos_deg2rad : Qc → Qc;                  (* np.cos(np.deg2rad(theta)) *)
  np_nanstd : list Qc → Qc;
  np_log : Qc → Qc;
  np_pi : Qc;
  np_sqrt : Qc → Qc;
  np_median : list Qc → Qc;
  np_std : list Qc → Qc;
  np_linalg_inv : matrix → result matrix;    (* raises [LinAlgError] *)
  np_random_randn : nat → nat → M matrix;
  (* astropy.stats.sigma_clip(data, sigma=, masked=False, copy=False, maxiters=) *)
  sigma_clip : list Qc → Qc → nat → list Qc;
  (* scipy.interpolate.interp1d(x, y, kind='slinear')(x_new) *)
  interp1d_slinear : list Qc → list Qc → list Qc → result (list Qc);
  (* scipy.optimize.minimize(fun, x0, method='SLSQP', options={'maxiter': },
     bounds=Bounds(lb, ub), tol=, constraints=).x *)
  minimize_slsqp :
    (list Qc → M Qc) → list Qc → nat → list Qc → list Qc → Qc →
    list (constraint_type * (list Qc → M Qc)) → M (list Qc);
  (* numdifftools.Hessian(fun)(x) *)
  Hessian : (list Qc → M Qc) → list Qc → M matrix;
  (* emcee.EnsembleSampler(n_walkers, n_dim, log_probability, args=...),
     run_mcmc(init, steps), get_chain(discard=, flat=True); the arguments of
     [log_probability] are the restricted axis and spectrum, the noise, the
     model type, the number of lines, the sinc width and the four priors *)
  ensemble_chain :
    nat → nat → list Qc → list Qc → Qc → string → nat → Qc → list Qc →
    matrix → nat → nat → M matrix;
  (* LuciFunctions: Gaussian(), Sinc(), SincGauss(), selected by name; the
     last argument is the sinc width, which Gaussian() does not take (the
     session passes 0 for it) *)
  evaluate : string → list Qc → list Qc → nat → Qc → result (list Qc);
  plot : string → list Qc → list Qc → nat → Qc → result (list Qc);
  (* LuciFitParameters *)
  calculate_vel : nat → list string → list Qc → list (string * Qc) → result Qc;
  calculate_vel_err :
    nat → list string → list Qc → list (string * Qc) → list Qc → result Qc;
  calculate_broad : nat → list Qc → Qc → result Qc;
  calculate_broad_err : nat → list Qc → Qc → list Qc → result Qc;
  calculate_flux : Qc → Qc → string → Qc → result Qc;
  calculate_flux_err : nat → list Qc → list Qc → string → Qc → result Qc
}.

(** ** The class [Fit] *)

Module Fit.

(** The arguments of [__init__]. *)
Record args : Type := Args {
  arg_spectrum : list Qc;
  arg_axis : list Qc;
  arg_wavenumbers_syn : list Qc;
  arg_model_type : string;
  arg_lines : list string;
  arg_vel_rel : list Z;
  arg_sigma_rel : list Z;
  arg_ML_model : option ml_model;
  arg_trans_filter : option (list Qc);
  arg_theta : Qc;
  arg_delta_x : Qc;
  arg_n_steps : Qc;
  arg_zpd_index : Qc;
  arg_filter : string;
  arg_bayes_bool : bool;
  arg_uncertainty_bool : bool;
  arg_mdn : bool
}.

(** The defaults of the keyword arguments. *)
Definition default_args (spectrum axis wavenumbers_syn : list Qc)
    (model_type : string) (lines : list string) (vel_rel sigma_rel : list Z)
    (ML_model : option ml_model) : args :=
  Args spectrum axis wavenumbers_syn model_type lines vel_rel sigma_rel ML_model
       None (qz 0) (qz 2943) (qz 842) (qz 169) "SN3" false false false.

(** The attributes of a session.  An attribute that [__init__] does not
    assign is an [option]: reading it before its first assignment raises
    [AttributeError]. *)
Record t : Type := Build {
  line_dict : list (string * Qc);
  available_functions : list string;
  spectrum : list Qc;
  spectrum_clean : list Qc;
  axis : list Qc;
  wavenumbers_syn : list Qc;
  model_type : string;
  lines : list string;
  line_num : nat;
  trans_filter : option (list Qc);
  filter : string;
  spectrum_interpolated : list Qc;
  spectrum_normalized : list Qc;
  spectrum_interp_norm : list Qc;
  spectrum_restricted : list Qc;
  axis_restricted : list Qc;
  spectrum_restricted_norm : list Qc;
  theta : Qc;
  cos_theta : Qc;
  correction_factor : Qc;
  axis_step : Qc;
  delta_x : Qc;
  n_steps : Qc;
  zpd_index : Qc;
  noise : Qc;
  sigma_rel : list Z;
  vel_rel : list Z;
  ML_model : option ml_model;
  bayes_bool : bool;
  uncertainty_bool : bool;
  spectrum_scale : Qc;
  sinc_width : Qc;
  mdn : bool;
  vel_ml : Qc;
  broad_ml : Qc;
  vel_ml_sigma : Qc;
  broad_ml_sigma : Qc;
  fit_sol : list Qc;
  uncertainties : list Qc;
  A_min : Qc;
  A_max : Qc;
  x_min : Qc;
  x_max : Qc;
  sigma_min : Qc;
  sigma_max : Qc;
  spectrum_interp_scale : option Qc;
  inital_values : option (list Qc);
  fit_vector : option (list Qc)
}.

Definition eta (s : t) : t :=
  Build (line_dict s) (available_functions s) (spectrum s) (spectrum_clean s)
    (axis s) (wavenumbers_syn s) (model_type s) (lines s) (line_num s)
    (trans_filter s) (filter s) (spectrum_interpolated s)
    (spectrum_normalized s) (spectrum_interp_norm s) (spectrum_restricted s)
    (axis_restricted s) (spectrum_restricted_norm s) (theta s) (cos_theta s)
    (correction_factor s) (axis_step s) (delta_x s) (n_steps s) (zpd_index s)
    (noise s) (sigma_rel s) (vel_rel s) (ML_model s) (bayes_bool s)
    (uncertainty_bool s) (spectrum_scale s) (sinc_width s) (mdn s) (vel_ml s)
    (broad_ml s) (vel_ml_sigma s) (broad_ml_sigma s) (fit_sol s)
    (uncertainties s) (A_min s) (A_max s) (x_min s) (x_max s) (sigma_min s)
    (sigma_max s) (spectrum_interp_scale s) (inital_values s) (fit_vector s).

(** [self.attr = v]: the session with the attribute [attr] replaced. *)
Ltac assignment attr :=
  let V := match type of attr with _ → ?V => V end in
  exact (λ (v : V) (s : t),
    ltac:(let e := eval cbv beta delta [eta] in (eta s) in
          let p := eval pattern (attr s) in e in
          match p with ?f _ => let r := eval cbv beta in (f v) in exact r end)).

Definition set_spectrum := ltac:(assignment spectrum).
Definition set_spectrum_interpolated := ltac:(assignment spectrum_interpolated).
Definition set_spectrum_normalized := ltac:(assignment spectrum_normalized).
Definition set_spectrum_interp_norm := ltac:(assignment spectrum_interp_norm).
Definition set_spectrum_interp_scale := ltac:(assignment spectrum_interp_scale).
Definition set_spectrum_restricted := ltac:(assignment spectrum_restricted).
Definition set_axis_restricted := ltac:(assignment axis_restricted).
Definition set_spectrum_restricted_norm := ltac:(assignment spectrum_restricted_norm).
Definition set_correction_factor := ltac:(assignment correction_factor).
Definition set_axis_step := ltac:(assignment axis_step).
Definition set_noise := ltac:(assignment noise).
Definition set_spectrum_scale := ltac:(assignment spectrum_scale).
Definition set_sinc_width := ltac:(assignment sinc_width).
Definition set_vel_ml := ltac:(assignment vel_ml).
Definition set_broad_ml := ltac:(assignment broad_ml).
Definition set_vel_ml_sigma := ltac:(assignment vel_ml_sigma).
Definition set_broad_ml_sigma := ltac:(assignment broad_ml_sigma).
Definition set_fit_sol := ltac:(assignment fit_sol).
Definition set_uncertainties := ltac:(assignment uncertainties).
Definition set_x_min := ltac:(assignment x_min).
Definition set_x_max := ltac:(assignment x_max).
Definition set_sigma_min := ltac:(assignment sigma_min).
Definition set_sigma_max := ltac:(assignment sigma_max).
Definition set_inital_values := ltac:(assignment inital_values).
Definition set_fit_vector := ltac:(assignment fit_vector).

(** The attributes that the methods only read: what the caller requested. *)
Definition request (self : t) :=
  (line_dict self, available_functions self, model_type self, lines self,
   line_num self, vel_rel self, sigma_rel self, (filter self, axis self),
   (bayes_bool self, uncertainty_bool self, mdn self)).

Definition the_line_dict : list (string * Qc) :=
  [ ("Halpha", qd 656280 1000); ("NII6583", qd 658341 1000);
    ("NII6548", qd 654803 1000); ("SII6716", qd 671647 1000);
    ("SII6731", qd 673085 1000); ("OII3726", qd 372603 1000);
    ("OII3729", qd 372882 1000); ("OIII4959", qd 495891 1000);
    ("OIII5007", qd 500684 1000); ("Hbeta", qd 486133 1000) ].

Definition the_available_functions : list string :=
  [ "gaussian"; "sinc"; "sincgauss" ].

(** [o is None] *)
Definition is_none {A} (o : option A) : bool :=
  match o with None => true | Some _ => false end.

(** [d[key]] on the line dictionary. *)
Definition dict_getitem (d : list (string * Qc)) (key : string) : result Qc :=
  match list_find (λ p, p.1 = key) d with
  | Some (_, (_, v)) => inr v
  | None => inl (KeyError key)
  end.

(** [v[i] = f(v[i])], the in-place [v[i] *= c] and [v[i] /= c]. *)
Definition update_at {A} (v : list A) (i : nat) (f : A → A) : result (list A) :=
  x ← getitem v i; setitem v i (f x).

(** [v[-1] = f(v[-1])] *)
Definition update_last {A} (v : list A) (f : A → A) : result (list A) :=
  match v with
  | [] => inl IndexError
  | _ => update_at v (length v - 1) f
  end.

(** [np.diagonal] of a matrix given by its rows. *)
Definition np_diagonal (m : matrix) : list Qc :=
  omap id (imap (λ i (row : list Qc), row !! i) m).

(** The filters with a window of their own in [restrict_wavelength] and
    [calculate_noise]. *)
Definition supported (filter_name : string) (requested : list string) : Prop :=
  filter_name = "SN3" ∨ filter_name = "SN2" ∨ filter_name = "SN1" ∨
  (filter_name = "C4" ∧ "Halpha" ∈ requested).

#[global] Instance supported_dec f l : Decision (supported f l).
Proof. unfold supported. apply _. Defined.

(** Lines 145-153. *)
Definition apply_transmission (self : t) : result t :=
  match trans_filter self with
  | None => inl (TypeError "'NoneType' object is not subscriptable")
  | Some tf =>
      corrected ← mapM (λ i,
                     tr ← getitem tf i;
                     s ← getitem (spectrum self) i;
                     mret (if decide (qd 1 2 < tr) then s / tr else s))
                   (seq 0 (length (spectrum self)));
      mret (set_spectrum corrected self)
  end.

(** Lines 156-161. *)
Definition calculate_correction (self : t) : t :=
  let self := set_correction_factor (qz 1 / cos_theta self) self in
  set_axis_step
    (correction_factor self
       / (qz 2 * delta_x self * (n_steps self - zpd_index self))
       * qz 10000000) self.

(** Lines 164-171. *)
Definition calc_sinc_width (self : t) : t :=
  let MPD :=
    cos_theta self * delta_x self * (n_steps self - zpd_index self)
      / qz 10000000 in
  set_sinc_width (qz 1 / (qz 2 * MPD)) self.

(** Lines 197-198 and 230-231: the indices of the samples nearest to the
    two bounds, read from the module globals. *)
Definition window_indices (axis : list Qc) : M (nat * nat) :=
  lo ← read_bound_lower;
  min_ ← lift (nearest_index axis lo);
  hi ← read_bound_upper;
  max_ ← lift (nearest_index axis hi);
  mret (min_, max_).

(** Lines 174-201.  The bounds are module globals: the branch of a supported
    filter assigns them, the [else] branch only prints, and the two lookups
    that follow read whatever the globals hold. *)
Definition restrict_wavelength (self : t) : M (nat * nat * t) :=
  (if decide (filter self = "SN3") then assign_bounds (qz 14500) (qz 15400)
   else if decide (filter self = "SN2") then assign_bounds (qz 19500) (qz 20750)
   else if decide (filter self = "SN1") then assign_bounds (qz 26000) (qz 27400)
   else if decide (filter self = "C4" ∧ "Halpha" ∈ lines self)
        then assign_bounds (qz 14500) (qz 15400)
   else print unsupported_filter_message);;
  '(min_, max_) ← window_indices (axis self);
  let self := set_spectrum_restricted (slice (spectrum_normalized self) min_ max_) self in
  let self := set_axis_restricted (slice (axis self) min_ max_) self in
  mret (min_, max_, self).

(** Lines 630-641. *)
Definition check_lines (self : t) : result unit :=
  if decide (Forall (λ l, l ∈ (line_dict self).*1) (lines self)) then mret ()
  else inl (Exception_
              ("Please submit a line name in the available list: " +:+ nl +:+
               " dict_keys(" +:+ repr_list (line_dict self).*1 +:+ ")")).

(** Lines 643-655. *)
Definition check_fitting_model (self : t) : result unit :=
  if decide (model_type self ∈ available_functions self) then mret ()
  else inl (Exception_
              ("Please submit a fitting function name in the available list: "
               +:+ nl +:+ " " +:+ repr_list (available_functions self))).

(** Lines 658-669. *)
Definition check_lengths (self : t) : result unit :=
  if decide (length (vel_rel self) ≠ length (lines self)) then
    inl (Exception_
           ("The argument vel_rel has " +:+ pretty (length (vel_rel self)) +:+
            " arguments, but it should have " +:+
            pretty (length (lines self)) +:+ " arguments"))
  else if decide (length (sigma_rel self) ≠ length (lines self)) then
    inl (Exception_
           ("The argument sigma_rel has " +:+ pretty (length (sigma_rel self))
            +:+ " arguments, but it should have " +:+
            pretty (length (lines self)) +:+ " arguments"))
  else mret ().

(** Lines 375-389, 391-407 and 410-426 as methods. *)
Definition sigma_constraints (self : t) : M (list constraint) :=
  with_cells (sigma_constraints_body (sigma_rel self)).

Definition vel_constraints (self : t) : M (list constraint) :=
  with_cells (vel_constraints_body (vel_rel self)).

Definition multiple_component_vel_constraint (self : t) : M (list constraint) :=
  with_cells (multiple_component_vel_constraint_body (lines self)).

(** Lines 456-459: the constraints handed to the minimizer.  The call of
    [multiple_component_vel_constraint] is commented out in the source. *)
Definition assemble_constraints (self : t) : M (list constraint) :=
  sigma_cons ← sigma_constraints self;
  vel_cons ← vel_constraints self;
  mret (sigma_cons ++ vel_cons).

(** A constraint as the solver sees it: its type and a function that, when
    the solver calls it, reads the closure's cells as they then are. *)
Definition solver_constraint (c : constraint)
    : constraint_type * (list Qc → M Qc) :=
  (type_ c, λ x w, (call_constraint (closure_cells w) c x, w)).

(** Lines 281-319.  [vel_ml], [broad_ml] and (for the mixture-density
    network) the bounds are attributes the method assigns. *)
Definition line_vals_estimate (self : t) (line_name : string)
    : result (Qc * Qc * Qc * t) :=
  line_theo ← dict_getitem (line_dict self) line_name;
  self ← (if is_none (ML_model self)
             || bool_decide (model_type self = EmptyString)
          then
            max_flux ← np_argmax (spectrum_normalized self);
            obs ← getitem (axis self) max_flux;
            let self :=
              set_vel_ml
                (Qcabs (qz 300000 * ((qz 10000000 / obs - line_theo) / line_theo)))
                self in
            mret (set_broad_ml (qz 10) self)
          else mret self);
  let line_pos_est :=
    qz 10000000 / ((vel_ml self / qz 300000) * line_theo + line_theo) in
  line_ind ← nearest_index (axis self) line_pos_est;
  line_amp_est ←
    match mapM (λ k, getitem_z (spectrum_normalized self) (Z.of_nat line_ind + k))
               [-4; -3; -2; -1; 0; 1; 2; 3; 4]%Z with
    | inr window => np_max window
    | inl _ => getitem (spectrum_normalized self) line_ind
    end;
  let line_broad_est := (line_pos_est * broad_ml self) / qz 300000 in
  let self :=
    if mdn self then
      let self :=
        set_x_min (qz 10000000
                   / (((vel_ml self + qz 3 * vel_ml_sigma self) / qz 300000)
                        * line_theo + line_theo)) self in
      let self :=
        set_x_max (qz 10000000
                   / (((vel_ml self - qz 3 * vel_ml_sigma self) / qz 300000)
                        * line_theo + line_theo)) self in
      let self :=
        set_sigma_min ((line_pos_est * broad_ml self) / qz 300000
                       - qz 3 * (line_pos_est * broad_ml_sigma self) / qz 300000)
                      self in
      set_sigma_max ((line_pos_est * broad_ml self) / qz 300000
                     + qz 3 * (line_pos_est * broad_ml_sigma self) / qz 300000)
                    self
    else self in
  mret (line_amp_est, line_pos_est, line_broad_est, self).

(** Lines 607-626. *)
Definition calc_chisquare (self : t) (fit_vector init_spectrum : list Qc)
    (init_errors : Qc) (n_dof : nat) : M (Qc * Qc * t) :=
  '(min_restricted, max_restricted, self) ← restrict_wavelength self;
  let observed := slice init_spectrum min_restricted max_restricted in
  difference ←
    lift (broadcast2 Qcminus (slice fit_vector min_restricted max_restricted)
                     observed);
  z ← lift (broadcast2 Qcdiv difference observed);
  let chi2 := np_sum ((λ v, v ^ 2) <$> z) in
  let chi2dof := chi2 / (qn n_dof - qz 1) in
  mret (chi2, chi2dof, self).

Section Methods.
Context `{Collaborators}.

  (** Lines 204-233. *)
Definition calculate_noise (self : t) : M t :=
    (if decide (filter self = "SN3") then assign_bounds (qz 14300) (qz 14500)
     else if decide (filter self = "SN2") then assign_bounds (qz 18600) (qz 19000)
     else if decide (filter self = "SN1") then assign_bounds (qz 25300) (qz 25700)
     else if decide (filter self = "C4" ∧ "Halpha" ∈ lines self)
          then assign_bounds (qz 14300) (qz 14500)
     else print unsupported_filter_message);;
    '(min_, max_) ← window_indices (axis self);
    let spec_noise := slice (spectrum_clean self) min_ max_ in
    mret (set_noise (np_nanstd spec_noise) self).

  (** Lines 78-97 of [__init__]: the attributes up to the normalized
      spectrum.  The attributes that are plain copies of arguments or
      constants are given their value when the record is first built: no
      method called during construction reads an attribute before the source
      assigns it, so only the order of the steps that can raise or that read
      the globals is kept. *)
Definition init_spectra (a : args) : M t :=
    scale ← lift (np_max (arg_spectrum a));
    let self :=
      Build the_line_dict the_available_functions (arg_spectrum a)
        ((λ v, v / scale) <$> arg_spectrum a) (arg_axis a)
        (arg_wavenumbers_syn a) (arg_model_type a) (arg_lines a)
        (length (arg_lines a)) (arg_trans_filter a) (arg_filter a)
        [] [] [] [] [] [] (arg_theta a)
        (Qcabs (np_cos_deg2rad (arg_theta a))) (qz 1) (qz 0) (arg_delta_x a)
        (arg_n_steps a) (arg_zpd_index a) (qd 1 100) (arg_sigma_rel a)
        (arg_vel_rel a) (arg_ML_model a) (arg_bayes_bool a)
        (arg_uncertainty_bool a) (qz 0) (qz 0) (arg_mdn a) (qz 0) (qz 0)
        (qz 0) (qz 0) (np_zeros (3 * length (arg_lines a) + 1))
        (np_zeros (3 * length (arg_lines a) + 1)) (qd (-1) 2) (qd 11 10)
        (qz 0) (qz 1000000) (qd 1 1000) (qz 300) None None None in
    self ← (if is_none (trans_filter self) then mret self
            else lift (apply_transmission self));
    let self := set_spectrum_interpolated (np_zeros (length (spectrum self))) self in
    scale ← lift (np_max (spectrum self));
    let self := set_spectrum_normalized ((λ v, v / scale) <$> spectrum self) self in
    mret (set_spectrum_interp_norm (np_zeros (length (spectrum self))) self).

  (** Lines 78-138 of [__init__]: everything before the three checks. *)
Definition init_preprocess (a : args) : M t :=
    self ← init_spectra a;
    '(_, _, self) ← restrict_wavelength self;
    scale ← lift (np_max (spectrum_restricted self));
    let self :=
      set_spectrum_restricted_norm
        ((λ v, v / scale) <$> spectrum_restricted self) self in
    let self := calculate_correction self in
    self ← calculate_noise self;
    mret (calc_sinc_width self).

  (** Lines 53-142. *)
Definition __init__ (a : args) : M t :=
    self ← init_preprocess a;
    lift (check_lines self);;
    lift (check_fitting_model self);;
    lift (check_lengths self);;
    mret self.

  (** Lines 236-262. *)
Definition estimate_priors_ML (self : t) : result t :=
    match ML_model self with
    | None => inl (TypeError "'NoneType' object is not callable")
    | Some predict =>
        let prediction := predict (spectrum_interp_norm self) in
        if mdn self then
          let self := set_vel_ml (mean_vel prediction) self in
          let self := set_vel_ml_sigma (std_vel prediction) self in
          let self := set_broad_ml (mean_broad prediction) self in
          mret (set_broad_ml_sigma (std_broad prediction) self)
        else
          let self := set_vel_ml (mean_vel prediction) self in
          let self := set_vel_ml_sigma (qz 0) self in
          let self := set_broad_ml (mean_broad prediction) self in
          mret (set_broad_ml_sigma (qz 0) self)
    end.

  (** Lines 265-279. *)
Definition interpolate_spectrum (self : t) : result t :=
    scale ← np_max (spectrum self);
    let self := set_spectrum_scale scale self in
    interpolated ←
      interp1d_slinear (axis self) (spectrum self) (wavenumbers_syn self);
    let self := set_spectrum_interpolated interpolated self in
    interp_scale ← np_max interpolated;
    let self := set_spectrum_interp_scale (Some interp_scale) self in
    mret (set_spectrum_interp_norm ((λ v, v / interp_scale) <$> interpolated) self).

  (** Lines 322-342. *)
Definition cont_estimate (self : t) (sigma_level : Qc) : result Qc :=
    np_min (sigma_clip (spectrum_restricted self) sigma_level 3).

  (** Lines 346-369. *)
Definition log_likelihood (self : t) (theta : list Qc) : M Qc :=
    (if decide (model_type self = "gaussian") then
       m ← lift (evaluate "gaussian" (axis_restricted self) theta
                          (line_num self) (qz 0));
       assign_model m
     else if decide (model_type self = "sinc") then
       m ← lift (evaluate "sinc" (axis_restricted self) theta
                          (line_num self) (sinc_width self));
       assign_model m
     else if decide (model_type self = "sincgauss") then
       m ← lift (evaluate "sincgauss" (axis_restricted self) theta
                          (line_num self) (sinc_width self));
       assign_model m
     else mret ());;
    m ← read_model;
    continuum ← lift (getitem_z theta (-1));
    let m := (λ v, v + continuum) <$> m in
    assign_model m;;
    let sigma2 := noise self ^ 2 in
    residual ← lift (broadcast2 Qcminus (spectrum_restricted self) m);
    mret (qd (-1) 2
          * np_sum ((λ r, r ^ 2 / sigma2 + np_log (qz 2 * np_pi * sigma2))
                      <$> residual)).

  (** [fit_vector] as lines 481-486 and 600-605 compute it; the attribute is
      left as it was for a model type that is none of the three. *)
Definition reconstruct (self : t) : result t :=
    let with_curve (curve : result (list Qc)) : result t :=
      curve ← curve;
      continuum ← getitem_z (fit_sol self) (-1);
      mret (set_fit_vector (Some ((λ v, v + continuum) <$> curve)) self) in
    if decide (model_type self = "gaussian") then
      with_curve (plot "gaussian" (axis self) (removelast (fit_sol self))
                       (line_num self) (qz 0))
    else if decide (model_type self = "sinc") then
      with_curve (plot "sinc" (axis self) (removelast (fit_sol self))
                       (line_num self) (sinc_width self))
    else if decide (model_type self = "sincgauss") then
      with_curve (plot "sincgauss" (axis self) (removelast (fit_sol self))
                       (line_num self) (sinc_width self))
    else mret self.

  (** The loop of lines 474-479 and 592-597: amplitudes and continuum, and
      their uncertainties, back on the flux scale of the input.  [times] is
      the product of the numbers the arrays hold: that of the rationals in
      the session, that of binary64 where a non-finite scale matters. *)
Definition unscale {A} (times : A → A → A) (scale : A) (n : nat)
      (parameters errors : list A) : result (list A * list A) :=
    '(parameters, errors) ←
      for_each (seq 0 n)
               (λ i '(p, u),
                  p ← update_at p (i * 3) (λ v, times v scale);
                  u ← update_at u (i * 3) (λ v, times v scale);
                  mret (p, u))
               (parameters, errors);
    parameters ← update_last parameters (λ v, times v scale);
    errors ← update_last errors (λ v, times v scale);
    mret (parameters, errors).

  (** Lines 429-488. *)
Definition calculate_params (self : t) : M t :=
    let initial := np_ones (3 * line_num self + 1) in
    cont ← lift (cont_estimate self (qz 2));
    initial ← lift (update_last initial (λ _, cont));
    '(self, initial, bounds_) ←
      lift (for_each (F := result) (seq 0 (line_num self))
              (λ mod_ '(self, initial, bounds_),
                 line ← getitem (lines self) mod_;
                 '(amp_est, vel_est, sigma_est, self) ←
                   line_vals_estimate self line;
                 cont ← getitem_z initial (-1);
                 initial ← setitem initial (3 * mod_) (amp_est - cont);
                 initial ← setitem initial (3 * mod_ + 1) vel_est;
                 initial ← setitem initial (3 * mod_ + 2) sigma_est;
                 mret (self, initial,
                       bounds_ ++ [ (A_min self, A_max self);
                                    (x_min self, x_max self);
                                    (sigma_min self, sigma_max self) ]))
              (self, initial, ([] : list (Qc * Qc))));
    let bounds_l := bounds_.*1 ++ [qz 0] in
    let bounds_u := bounds_.*2 ++ [qd 3 4] in
    let self := set_inital_values (Some initial) self in
    (* [nll] reads the attributes of the session when the solver calls it *)
    let nll := λ theta, v ← log_likelihood self theta; mret (- v) in
    cons ← assemble_constraints self;
    parameters ←
      minimize_slsqp nll initial 5000 bounds_l bounds_u (qd 1 100000000)
                     (solver_constraint <$> (cons : list constraint));
    self ←
      (if uncertainty_bool self then
         try_except
           (hessian_calc ← Hessian nll parameters;
            inverse ← lift (np_linalg_inv hessian_calc);
            let covariance_mat := matrix_map Qcopp inverse in
            mret (set_uncertainties
                    ((λ v, np_sqrt (Qcabs v)) <$> np_diagonal covariance_mat)
                    self))
           (λ e, match e with
                 | LinAlgError =>
                     mret (set_uncertainties (np_zeros (length parameters)) self)
                 | _ => raise e
                 end)
       else mret self);
    '(parameters, errors) ←
      lift (unscale Qcmult (spectrum_scale self) (line_num self) parameters
                    (uncertainties self));
    let self := set_uncertainties errors self in
    let self := set_fit_sol parameters self in
    lift (reconstruct self).

  (** Lines 544-605. *)
Definition fit_Bayes (self : t) : M t :=
    sol ← lift (for_each (seq 0 (line_num self))
                  (λ i p, update_at p (i * 3) (λ v, v / spectrum_scale self))
                  (fit_sol self));
    sol ← lift (update_last sol (λ v, v / spectrum_scale self));
    let self := set_fit_sol sol self in
    let n_dim := (3 * line_num self + 1)%nat in
    let n_walkers := (n_dim * 3 + 4)%nat in
    normal ← np_random_randn n_walkers n_dim;
    let random_ := matrix_map (λ v, qd 1 10000 * v) normal in
    init_ ← lift (mapM (λ row, broadcast2 Qcplus (fit_sol self) row) random_);
    init_ ← lift (mapM (λ row, update_last row Qcabs) init_);
    flat_samples ←
      ensemble_chain n_walkers n_dim (axis_restricted self)
        (spectrum_restricted self) (noise self) (model_type self)
        (line_num self) (sinc_width self)
        [ vel_ml self; broad_ml self; vel_ml_sigma self; broad_ml_sigma self ]
        init_ 2000 200;
    statistics ←
      lift (mapM (λ i,
                    column ← mapM (λ row : list Qc, getitem row i) flat_samples;
                    mret (np_median column, np_std column))
                 (seq 0 n_dim));
    '(parameters_med, parameters_std) ←
      lift (unscale Qcmult (spectrum_scale self) (line_num self)
                    statistics.*1 statistics.*2);
    let self := set_uncertainties parameters_std self in
    let self := set_fit_sol parameters_med self in
    lift (reconstruct self).

  (** What the loop of lines 525-533 appends for the line of index
      [line_ct]: amplitude, flux, velocity, broadening, and the errors on
      velocity, broadening and flux. *)
Definition line_quantities (self : t) (line_ct : nat)
      : result (Qc * Qc * Qc * Qc * Qc * Qc * Qc) :=
    ampl ← getitem (fit_sol self) (line_ct * 3);
    sigma ← getitem (fit_sol self) (line_ct * 3 + 2);
    flux ← calculate_flux ampl sigma (model_type self) (sinc_width self);
    vel ← calculate_vel line_ct (lines self) (fit_sol self) (line_dict self);
    broad ← calculate_broad line_ct (fit_sol self) (axis_step self);
    vel_err ← calculate_vel_err line_ct (lines self) (fit_sol self)
                                (line_dict self) (uncertainties self);
    broad_err ← calculate_broad_err line_ct (fit_sol self) (axis_step self)
                                    (uncertainties self);
    flux_err ← calculate_flux_err line_ct (fit_sol self) (uncertainties self)
                                  (model_type self) (sinc_width self);
    mret (ampl, flux, vel, broad, vel_err, broad_err, flux_err).

  (** Lines 492-542.  The result is the dictionary together with the session
      as the call leaves it. *)
Definition fit (self : t) : M (gmap string pyval * t) :=
    self ← (if is_none (ML_model self) then
              scale ← lift (np_max (spectrum self));
              mret (set_spectrum_scale scale self)
            else
              self ← lift (interpolate_spectrum self);
              lift (estimate_priors_ML self));
    self ← calculate_params self;
    self ← (if bayes_bool self then fit_Bayes self else mret self);
    fit_vector_ ← match fit_vector self with
                  | Some v => mret v
                  | None => raise (AttributeError "fit_vector")
                  end;
    '(chi_sqr, red_chi_sqr, self) ←
      calc_chisquare self fit_vector_ (spectrum self) (noise self)
                     (3 * line_num self + 1);
    per_line ← lift (mapM (line_quantities self) (seq 0 (length (lines self))));
    continuum ← lift (getitem_z (fit_sol self) (-1));
    let fit_dict : gmap string pyval :=
      list_to_map
        [ ("fit_sol", VVec (fit_sol self));
          ("fit_uncertainties", VVec (uncertainties self));
          ("fit_vector", VVec fit_vector_);
          ("fit_axis", VVec (axis self));
          ("amplitudes", VVec ((λ q, q.1.1.1.1.1.1) <$> per_line));
          ("fluxes", VVec ((λ q, q.1.1.1.1.1.2) <$> per_line));
          ("flux_errors", VVec ((λ q, q.2) <$> per_line));
          ("chi2", VNum red_chi_sqr);
          ("velocities", VVec ((λ q, q.1.1.1.1.2) <$> per_line));
          ("sigmas", VVec ((λ q, q.1.1.1.2) <$> per_line));
          ("vels_errors", VVec ((λ q, q.1.1.2) <$> per_line));
          ("sigmas_errors", VVec ((λ q, q.1.2) <$> per_line));
          ("axis_step", VNum (axis_step self));
          ("corr", VNum (correction_factor self));
          ("continuum", VNum continuum);
          ("scale", VNum (spectrum_scale self)) ] in
    mret (fit_dict, self).

End Methods.

End Fit.

(** ** The goodness of fit as the specification words it

    "chi-square = sum over the restricted window of
    ((fit - observed) / observed)^2" and "reduced chi-square =
    chi-square / (n_dof - 1), where n_dof = 3 * lineCount + 1".  The window
    is the index range from [lo] up to, not including, [hi]; an index beyond
    the arrays contributes nothing.  These definitions stand on the
    arithmetic of the rationals alone: none of the functions that embed the
    code is part of them. *)
Fixpoint sum_of_terms (terms : list Qc) : Qc :=
  match terms with
  | nil => 0
  | term :: rest => term + sum_of_terms rest
  end.

Definition chi_square_spec (fit_curve observed : list Qc) (lo hi : nat) : Qc :=
  sum_of_terms ((λ i, match fit_curve !! i, observed !! i with
                      | Some f, Some o => ((f - o) / o) ^ 2
                      | _, _ => 0
                      end) <$> seq lo (hi - lo)).

Definition reduced_chi_square_spec (chi2 : Qc) (line_count : nat) : Qc :=
  chi2 / (Q2Qc (inject_Z (Z.of_nat (3 * line_count + 1))) - 1).

(** ** The entries of the result record *)

Definition fit_dict_keys : list string :=
  [ "fit_sol"; "fit_uncertainties"; "fit_vector"; "fit_axis"; "amplitudes";
    "fluxes"; "flux_errors"; "chi2"; "velocities"; "sigmas"; "vels_errors";
    "sigmas_errors"; "axis_step"; "corr"; "continuum"; "scale" ].

(** ** The messages of the three checks *)

Definition check_lines_message : string :=
  "Please submit a line name in the available list: " +:+ nl +:+
  " dict_keys(" +:+ repr_list Fit.the_line_dict.*1 +:+ ")".

Definition check_fitting_model_message : string :=
  "Please submit a fitting function name in the available list: " +:+ nl +:+
  " " +:+ repr_list Fit.the_available_functions.

Definition check_lengths_message (argument : string) (given expected : nat)
    : string :=
  "The argument " +:+ argument +:+ " has " +:+ pretty given +:+
  " arguments, but it should have " +:+ pretty expected +:+ " arguments".

(** ** The windows of the filters

    The bounds that [restrict_wavelength] and [calculate_noise] assign for a
    supported filter, as tables: SN2 and SN1 have windows of their own, SN3
    and C4 (with H-alpha requested) share the third. *)
Definition restriction_bounds (filter_name : string) : Qc * Qc :=
  if decide (filter_name = "SN2") then (qz 19500, qz 20750)
  else if decide (filter_name = "SN1") then (qz 26000, qz 27400)
  else (qz 14500, qz 15400).

Definition noise_bounds (filter_name : string) : Qc * Qc :=
  if decide (filter_name = "SN2") then (qz 18600, qz 19000)
  else if decide (filter_name = "SN1") then (qz 25300, qz 25700)
  else (qz 14300, qz 14500).

(** ** A set of collaborators for the worked examples

    The general theorems hold for every instance of [Collaborators]; the
    examples evaluate the session and need one.  This instance is the
    simplest: the solver answers its starting point, the line shapes are the
    zero curve, the interferometric angle is 0 degrees (cosine 1), and the
    statistics and physical quantities are constants. *)
Module Examples.

#[export] Instance plain : Collaborators := {|
  np_cos_deg2rad := λ _, qz 1;
  np_nanstd := λ _, qd 1 100;
  np_log := λ _, qz 0;
  np_pi := qd 355 113;
  np_sqrt := λ v, v;
  np_median := λ l, default (qz 0) (head l);
  np_std := λ _, qz 0;
  np_linalg_inv := λ _, inl LinAlgError;
  np_random_randn := λ n m, mret (replicate n (np_zeros m));
  sigma_clip := λ data _ _, data;
  interp1d_slinear := λ _ y _, inr y;
  minimize_slsqp := λ _ x0 _ _ _ _ _, mret x0;
  Hessian := λ _ x, mret (replicate (length x) (np_zeros (length x)));
  ensemble_chain := λ _ _ _ _ _ _ _ _ _ init_ _ _, mret init_;
  evaluate := λ _ axis _ _ _, inr (np_zeros (length axis));
  plot := λ _ axis _ _ _, inr (np_zeros (length axis));
  calculate_vel := λ _ _ _ _, inr (qz 0);
  calculate_vel_err := λ _ _ _ _ _, inr (qz 0);
  calculate_broad := λ _ _ _, inr (qz 0);
  calculate_broad_err := λ _ _ _ _, inr (qz 0);
  calculate_flux := λ _ _ _ _, inr (qz 0);
  calculate_flux_err := λ _ _ _ _ _, inr (qz 0)
|}.

(** A process in which no session has run yet. *)
Definition fresh_world : world := World None None None [] [] 0.

(** An axis of five samples around the SN3 window and below it, and a
    spectrum on it with its peak at 15238 cm-1. *)
Definition axis5 : list Qc :=
  [ qz 14300; qz 14500; qz 15000; qz 15238; qz 15400 ].

Definition spectrum5 : list Qc :=
  [ qz 2; qz 1; qz 2; qz 4; qz 2 ].

(** One H-alpha line on that spectrum, all keyword arguments at their
    defaults (filter SN3, no machine-learning model). *)
Definition one_line : Fit.args :=
  Fit.default_args spectrum5 axis5 [] "gaussian" ["Halpha"] [1%Z] [1%Z] None.

(** Two lines declared to share their velocity. *)
Definition same_velocity : Fit.args :=
  Fit.default_args spectrum5 axis5 [] "gaussian" ["Halpha"; "NII6583"]
                   [1; 1]%Z [1; 2]%Z None.

(** Two components of the same line. *)
Definition two_components : Fit.args :=
  Fit.default_args spectrum5 axis5 [] "gaussian" ["Halpha"; "Halpha"]
                   [1; 2]%Z [1; 2]%Z None.

(** Three lines declared to share their width. *)
Definition same_width : Fit.args :=
  Fit.default_args spectrum5 axis5 [] "gaussian"
                   ["NII6548"; "Halpha"; "NII6583"] [1; 2; 3]%Z [1; 1; 1]%Z None.

(** A session with no data, the default of [at_restriction]. *)
Definition blank : Fit.t :=
  Fit.Build [] [] [] [] [] [] EmptyString [] 0 None EmptyString [] [] [] [] []
    [] (qz 0) (qz 0) (qz 0) (qz 0) (qz 0) (qz 0) (qz 0) (qz 0) [] [] None false
    false (qz 0) (qz 0) false (qz 0) (qz 0) (qz 0) (qz 0) [] [] (qz 0) (qz 0)
    (qz 0) (qz 0) (qz 0) (qz 0) None None None.

(** The session as [__init__] has it when it calls [restrict_wavelength]. *)
Definition at_restriction (a : Fit.args) (w : world) : Fit.t :=
  match Fit.init_spectra a w with
  | (inr self, _) => self
  | (inl _, _) => blank
  end.

(** The session that [__init__] returns. *)
Definition constructed (a : Fit.args) (w : world) : Fit.t :=
  match Fit.__init__ a w with
  | (inr self, _) => self
  | (inl _, _) => blank
  end.

(** The record, the session and the process that a completed [fit] leaves. *)
Definition fit_outcome (self : Fit.t) (w : world)
    : gmap string pyval * Fit.t * world :=
  match Fit.fit self w with
  | (inr (d, self'), w') => (d, self', w')
  | (inl _, w') => (∅, blank, w')
  end.

(** The process after one session has been constructed in it. *)
Definition after_one_session : world :=
  (Fit.__init__ one_line fresh_world).2.

(** The same request as [one_line] with a filter that has no window. *)
Definition unsupported_filter : Fit.args :=
  Fit.Args spectrum5 axis5 [] "gaussian" ["Halpha"] [1%Z] [1%Z] None None
           (qz 0) (qz 2943) (qz 842) (qz 169) "SN4" false false false.

(** An increasing axis of two samples, both far below the SN3 window. *)
Definition narrow_axis : Fit.args :=
  Fit.default_args [qz 1; qz 2] [qz 10000; qz 10001] [] "gaussian" ["Halpha"]
                   [1%Z] [1%Z] None.

(** A request for a line that the catalog does not have. *)
Definition unknown_line : Fit.args :=
  Fit.default_args spectrum5 axis5 [] "gaussian" ["Hgamma"] [1%Z] [1%Z] None.

(** A request for a line shape that is not available. *)
Definition unknown_model : Fit.args :=
  Fit.default_args spectrum5 axis5 [] "lorentzian" ["Halpha"] [1%Z] [1%Z] None.

(** A parameter vector for three lines: the widths, at the indices 2, 5 and
    8, are 10, 11 and 13. *)
Definition three_widths : list Qc :=
  qz <$> [0; 0; 10; 0; 0; 11; 0; 0; 13; 0]%Z.

(** A transmission curve for the five-sample spectrum, above 0.5 except at
    its second sample, and the H-alpha request with it. *)
Definition transmission5 : list Qc :=
  [ qz 1; qd 1 4; qz 1; qz 2; qz 1 ].

Definition with_transmission : Fit.args :=
  Fit.Args spectrum5 axis5 [] "gaussian" ["Halpha"] [1%Z] [1%Z] None
           (Some transmission5)
           (qz 0) (qz 2943) (qz 842) (qz 169) "SN3" false false false.



End Examples.

(** * Properties *)

(** ** Reasoning about [M] and [result] *)

Lemma bind_ok {A B} (m : M A) (f : A → M B) w b w' :
  (m ≫= f) w = (inr b, w') →
  ∃ a w1, m w = (inr a, w1) ∧ f a w1 = (inr b, w').
Proof.
  unfold mbind, M_bind. destruct (m w) as [[e | a] w1]; [discriminate |].
  intros Hf. by exists a, w1.
Qed.

Lemma bind_run {A B} (m : M A) (f : A → M B) w a w1 :
  m w = (inr a, w1) → (m ≫= f) w = f a w1.
Proof. unfold mbind, M_bind. by intros ->. Qed.

Lemma bind_fail {A B} (m : M A) (f : A → M B) w e w1 :
  m w = (inl e, w1) → (m ≫= f) w = (inl e, w1).
Proof. unfold mbind, M_bind. by intros ->. Qed.

Lemma lift_ok {A} (r : result A) w a w' :
  lift r w = (inr a, w') → r = inr a ∧ w' = w.
Proof. unfold lift. by intros [= -> ->]. Qed.

Lemma ret_ok {A} (a b : A) (w w' : world) :
  (mret a : M A) w = (inr b, w') → a = b ∧ w' = w.
Proof. unfold mret, M_ret. by intros [= -> ->]. Qed.

Lemma rbind_ok {A B} (r : result A) (f : A → result B) b :
  r ≫= f = inr b → ∃ a, r = inr a ∧ f a = inr b.
Proof. destruct r as [e | a]; [discriminate |]. intros Hf. by exists a. Qed.

(** Invert a successful run, one [bind] at a time. *)
Ltac inv_ok H :=
  lazymatch type of H with
  | (_ ≫= _) _ = (inr _, _) =>
      let a := fresh "a" in
      let w := fresh "w" in
      let H1 := fresh "Hrun" in
      apply bind_ok in H as (a & w & H1 & H)
  | lift _ _ = (inr _, _) =>
      let Hw := fresh "Hw" in apply lift_ok in H as [H Hw]; subst
  | mret _ _ = (inr _, _) =>
      let Hw := fresh "Hw" in apply ret_ok in H as [H Hw]; subst
  | _ ≫= _ = inr _ =>
      let a := fresh "a" in
      let H1 := fresh "Hres" in
      apply rbind_ok in H as (a & H1 & H)
  end.

(** ** Constraint builders *)

Section Builders.

Lemma sigma_inner_spec a rest cs h :
    ∃ h',
      foldl (λ st ind, (st.1 ++ [sigma_entry a], assign_ind_unique a ind st.2))
            (cs, h) rest
      = (cs ++ replicate (length rest) (sigma_entry a), h')
      ∧ length h' = length h.
  Proof.
    revert cs h. induction rest as [| i rest IH]; intros cs h; simpl.
    - exists h. by rewrite app_nil_r.
    - destruct (IH (cs ++ [sigma_entry a]) (assign_ind_unique a i h))
        as (h' & -> & Hlen).
      exists h'. split.
      + by rewrite <- app_assoc.
      + rewrite Hlen. unfold assign_ind_unique. apply length_alter.
  Qed.

Lemma sigma_group_spec a inds cs h :
    ∃ h',
      sigma_group a inds (cs, h)
      = (cs ++ replicate (length inds - 1) (sigma_entry a), h')
      ∧ length h' = length h.
  Proof.
    unfold sigma_group. case_decide as Hlen.
    - destruct inds as [| i0 rest]; [simpl in Hlen; lia |]. simpl.
      destruct (sigma_inner_spec a rest cs (assign_ind_0 a i0 h))
        as (h' & Heq & Hl).
      exists h'. split.
      + rewrite Nat.sub_0_r. exact Heq.
      + rewrite Hl. unfold assign_ind_0. apply length_alter.
    - exists h. split; [| done].
      replace (length inds - 1)%nat with 0%nat by lia. simpl.
      by rewrite app_nil_r.
  Qed.

Lemma sigma_loop_spec a (rel : list Z) groups cs h :
    ∃ h',
      foldl (λ st unique_, sigma_group a (inds_of rel unique_) st) (cs, h) groups
      = (cs ++ replicate
                 (sum_list ((λ u, length (inds_of rel u) - 1)%nat <$> groups))
                 (sigma_entry a), h')
      ∧ length h' = length h.
  Proof.
    revert cs h. induction groups as [| u groups IH]; intros cs h; simpl.
    - exists h. by rewrite app_nil_r.
    - destruct (sigma_group_spec a (inds_of rel u) cs h) as (h1 & -> & Hl1).
      destruct (IH (cs ++ replicate (length (inds_of rel u) - 1) (sigma_entry a)) h1)
        as (h' & -> & Hl).
      exists h'. split; [| congruence].
      by rewrite <- app_assoc, <- replicate_add.
  Qed.

  (** [sigma_constraints] returns, for each group, one dictionary per extra
      member; all of them are the same closure over the cells of the call. *)
Lemma sigma_constraints_body_spec (rel : list Z) (h : heap) :
    (sigma_constraints_body rel h).1
    = replicate
        (sum_list ((λ u, length (inds_of rel u) - 1)%nat <$> np_unique Z.leb rel))
        (sigma_entry (length h)).
  Proof.
    unfold sigma_constraints_body. cbv zeta.
    destruct (sigma_loop_spec (length h) rel (np_unique Z.leb rel) []
                (h ++ [Frame None None])) as (h' & -> & _).
    done.
  Qed.

Lemma expr_inner_fst ty lam a rest (cs : list constraint) e h :
    (foldl (λ (st : list constraint * option constraint * heap) ind,
              (st.1.1, Some (Constraint ty (Closure lam a)),
               assign_ind_unique a ind st.2))
           (cs, e, h) rest).1.1 = cs.
  Proof.
    revert e h. induction rest as [| i rest IH]; intros e h; simpl; [done |].
    apply IH.
  Qed.

Lemma expr_group_fst ty lam a inds st :
    (expr_group ty lam a inds st).1.1 = st.1.1.
  Proof.
    unfold expr_group. case_decide; [| done].
    destruct inds as [| i0 rest]; [done |].
    apply expr_inner_fst.
  Qed.

Lemma expr_loop_fst {A} `{EqDecision A} ty lam a (rel : list A) groups st :
    (foldl (λ st unique_, expr_group ty lam a (inds_of rel unique_) st)
           st groups).1.1 = st.1.1.
  Proof.
    revert st. induction groups as [| u groups IH]; intros st; simpl; [done |].
    rewrite IH. apply expr_group_fst.
  Qed.

  (** [vel_constraints] returns the empty list it starts from, whatever the
      groups: no iteration appends to it. *)
Lemma vel_constraints_body_nil (rel : list Z) (h : heap) :
    (vel_constraints_body rel h).1 = [].
  Proof. unfold vel_constraints_body. simpl. apply expr_loop_fst. Qed.

Lemma multiple_component_vel_constraint_body_nil (names : list string) h :
    (multiple_component_vel_constraint_body names h).1 = [].
  Proof.
    unfold multiple_component_vel_constraint_body. simpl. apply expr_loop_fst.
  Qed.

  (** The constraints handed to the minimizer are those of
      [sigma_constraints]; assembling them never raises. *)
Lemma assemble_constraints_run (self : Fit.t) (w : world) :
    ∃ w',
      Fit.assemble_constraints self w
      = (inr (sigma_constraints_body (Fit.sigma_rel self) (closure_cells w)).1,
         w').
  Proof.
    unfold Fit.assemble_constraints, Fit.sigma_constraints, Fit.vel_constraints.
    unfold mbind, M_bind, with_cells, mret, M_ret.
    cbn -[sigma_constraints_body vel_constraints_body].
    rewrite vel_constraints_body_nil, app_nil_r. eauto.
  Qed.

End Builders.

(** The closures that one call of [sigma_constraints] returns cannot be told
    apart: whatever the cells hold when the solver calls them, they all
    compute the same value. *)
Lemma sigma_constraints_alias (rel : list Z) (h h' : heap) (x : list Qc) c1 c2 :
  c1 ∈ (sigma_constraints_body rel h).1 →
  c2 ∈ (sigma_constraints_body rel h).1 →
  call_constraint h' c1 x = call_constraint h' c2 x.
Proof.
  rewrite sigma_constraints_body_spec.
  intros [-> _]%elem_of_replicate [-> _]%elem_of_replicate. done.
Qed.

(** The number of width constraints: one per member of a group beyond its
    first. *)
Lemma sigma_constraints_count (rel : list Z) (h : heap) :
  length (sigma_constraints_body rel h).1
  = sum_list ((λ u, length (inds_of rel u) - 1)%nat <$> np_unique Z.leb rel).
Proof. rewrite sigma_constraints_body_spec. apply length_replicate. Qed.

Import Examples.

(** C1.  Two lines are placed in the same velocity group (velocity groups
    1, 1; width groups 1, 2).  The session is constructed, and the constraint
    set assembled for the minimizer is empty: no equality ties the position
    of the second line to that of the first. *)
Theorem C1_velocity_group_left_untied :
  ∃ self w w',
    Fit.__init__ same_velocity fresh_world = (inr self, w)
    ∧ Fit.vel_rel self = [1; 1]%Z
    ∧ Fit.assemble_constraints self w = (inr [], w').
Proof.
  eexists _, _, _. split; [vm_compute; reflexivity |].
  split; vm_compute; reflexivity.
Qed.

(** C2, as stated, fails: for two components of the same line the constraint
    set assembled for the minimizer holds no inequality constraint. *)
Lemma C2_counterexample :
  ∃ self w cons w',
    Fit.__init__ two_components fresh_world = (inr self, w)
    ∧ Fit.lines self = ["Halpha"; "Halpha"]
    ∧ Fit.assemble_constraints self w = (inr cons, w')
    ∧ ¬ ∃ c, c ∈ cons ∧ type_ c = ineq.
Proof.
  eexists _, _, _, _. split; [vm_compute; reflexivity |].
  split; [vm_compute; reflexivity |].
  split; [vm_compute; reflexivity |].
  intros (c & Hc & _). by apply elem_of_nil in Hc.
Qed.

(** C2, amended.  For every session, whatever its line list, assembling the
    constraints for the minimizer succeeds and yields equality constraints
    only: the width-group constraints followed by the velocity-group
    constraints.  The multi-component inequality is not part of the set. *)
Theorem C2_only_equalities_reach_the_minimizer (self : Fit.t) (w : world) :
  ∃ cons w',
    Fit.assemble_constraints self w = (inr cons, w')
    ∧ cons = (sigma_constraints_body (Fit.sigma_rel self) (closure_cells w)).1
             ++ (vel_constraints_body (Fit.vel_rel self)
                   (sigma_constraints_body (Fit.sigma_rel self) (closure_cells w)).2).1
    ∧ Forall (λ c, type_ c = eq_) cons.
Proof.
  destruct (assemble_constraints_run self w) as (w' & Hrun).
  eexists _, w'. split; [exact Hrun |]. split.
  - by rewrite vel_constraints_body_nil, app_nil_r.
  - rewrite sigma_constraints_body_spec. apply Forall_replicate. done.
Qed.

(** C3.  Three lines share one width group.  [sigma_constraints] returns two
    equality constraints, and at the parameter vector whose widths are 10, 11
    and 13 both evaluate to 10 - 13: the first one does not compute
    x[2] - x[5] = 10 - 11, the difference to the second member. *)
Theorem C3_width_constraints_share_their_cells :
  ∃ self w cons w',
    Fit.__init__ same_width fresh_world = (inr self, w)
    ∧ Fit.sigma_rel self = [1; 1; 1]%Z
    ∧ Fit.sigma_constraints self w = (inr cons, w')
    ∧ type_ <$> cons = [eq_; eq_]
    ∧ (λ c, call_constraint (closure_cells w') c three_widths) <$> cons
      = [inr (qz 10 - qz 13); inr (qz 10 - qz 13)]
    ∧ getitem three_widths 2 = inr (qz 10)
    ∧ getitem three_widths 5 = inr (qz 11).
Proof.
  eexists _, _, _, _. split; [vm_compute; reflexivity |].
  split; [vm_compute; reflexivity |].
  split; [vm_compute; reflexivity |].
  split; [vm_compute; reflexivity |].
  split; [compute_done |].
  split; compute_done.
Qed.

(** ** The nearest sample of the axis *)

Section Nearest.

Lemma argmin_from_spec (pre l : list Qc) (best_i : nat) (best : Qc) :
    pre !! best_i = Some best →
    (∀ j v, pre !! j = Some v → best <= v) →
    (∀ j v, (j < best_i)%nat → pre !! j = Some v → best < v) →
    ∃ m,
      (pre ++ l) !! argmin_from best_i best (length pre) l = Some m
      ∧ (∀ j v, (pre ++ l) !! j = Some v → m <= v)
      ∧ (∀ j v, (j < argmin_from best_i best (length pre) l)%nat →
                (pre ++ l) !! j = Some v → m < v).
  Proof.
    revert pre best_i best.
    induction l as [| x l IH]; intros pre best_i best Hat Hmin Hfirst; simpl.
    - rewrite app_nil_r. eauto.
    - assert (Hlen : length (pre ++ [x]) = S (length pre))
        by (rewrite length_app; simpl; lia).
      case_decide as Hlt.
      + destruct (IH (pre ++ [x]) (length pre) x) as (m & Hm & Hmin' & Hfirst').
        * rewrite lookup_app_r by lia. by rewrite Nat.sub_diag.
        * intros j v Hj. apply lookup_app_Some in Hj as [Hj | [_ Hj]].
          -- apply Qclt_le_weak. eapply Qclt_le_trans; [exact Hlt |]. eauto.
          -- destruct (j - length pre)%nat; simpl in Hj; [| done].
             injection Hj as <-. apply Qcle_refl.
        * intros j v Hj Hv. apply lookup_app_Some in Hv as [Hv | [Hge _]]; [| lia].
          eapply Qclt_le_trans; [exact Hlt |]. eauto.
        * rewrite Hlen in Hm, Hfirst'.
          rewrite <- app_assoc in Hm, Hmin', Hfirst'. simpl in Hm, Hmin', Hfirst'.
          exists m. eauto.
      + destruct (IH (pre ++ [x]) best_i best) as (m & Hm & Hmin' & Hfirst').
        * by apply lookup_app_l_Some.
        * intros j v Hj. apply lookup_app_Some in Hj as [Hj | [_ Hj]]; [eauto |].
          destruct (j - length pre)%nat; simpl in Hj; [| done].
          injection Hj as <-. by apply Qcnot_lt_le.
        * intros j v Hj Hv. apply lookup_app_Some in Hv as [Hv | [Hge _]]; [eauto |].
          apply lookup_lt_Some in Hat. lia.
        * rewrite Hlen in Hm, Hfirst'.
          rewrite <- app_assoc in Hm, Hmin', Hfirst'. simpl in Hm, Hmin', Hfirst'.
          exists m. eauto.
  Qed.

  (** [np.argmin] on a non-empty array: the index of a smallest element, and
      the first such. *)
Lemma np_argmin_spec (l : list Qc) :
    l ≠ [] →
    ∃ i m,
      np_argmin l = inr i
      ∧ l !! i = Some m
      ∧ (∀ j v, l !! j = Some v → m <= v)
      ∧ (∀ j v, (j < i)%nat → l !! j = Some v → m < v).
  Proof.
    destruct l as [| x l]; [done |]. intros _. simpl.
    destruct (argmin_from_spec [x] l 0 x) as (m & Hm & Hmin & Hfirst).
    - done.
    - intros [| j] v Hj; simpl in Hj; [| done]. injection Hj as <-. apply Qcle_refl.
    - intros j v Hj. lia.
    - exists (argmin_from 0 x 1 l), m. simpl in *. eauto.
  Qed.


Lemma nearest_index_spec (axis : list Qc) (bound : Qc) :
    axis ≠ [] →
    ∃ i a,
      nearest_index axis bound = inr i
      ∧ axis !! i = Some a
      ∧ (∀ j v, axis !! j = Some v → Qcabs (a - bound) <= Qcabs (v - bound))
      ∧ (∀ j v, (j < i)%nat → axis !! j = Some v →
                Qcabs (a - bound) < Qcabs (v - bound)).
  Proof.
    intros Hne. unfold nearest_index.
    destruct (np_argmin_spec ((λ v, Qcabs (v - bound)) <$> axis))
      as (i & m & Hi & Hm & Hmin & Hfirst).
    { by destruct axis. }
    rewrite list_lookup_fmap in Hm.
    destruct (axis !! i) as [a |] eqn:Ha; [| done]. injection Hm as <-.
    exists i, a. split; [done |]. split; [done |]. split.
    - intros j v Hj. apply (Hmin j). by rewrite list_lookup_fmap, Hj.
    - intros j v Hlt Hj. apply (Hfirst j); [done |]. by rewrite list_lookup_fmap, Hj.
  Qed.

Lemma nearest_index_empty (bound : Qc) :
    ∃ e, nearest_index [] bound = inl (ValueError e).
  Proof. unfold nearest_index. simpl. eauto. Qed.

  (** Of two samples, the later one cannot be strictly nearer to the lower
      bound while the earlier one is at least as near to the upper bound. *)
Lemma closer_monotone (a b L U : Qc) :
    a <= b → L <= U →
    Qcabs (b - L) < Qcabs (a - L) → Qcabs (a - U) <= Qcabs (b - U) → False.
  Proof.
    intros Hab HLU.
    apply (Qcabs_case (b - L)); apply (Qcabs_case (a - L));
      apply (Qcabs_case (a - U)); apply (Qcabs_case (b - U)); intros; qc_lra.
  Qed.

Lemma sorted_lookup_lt (axis : list Qc) i j a b :
    StronglySorted Qclt axis →
    axis !! i = Some a → axis !! j = Some b → (i < j)%nat → a < b.
  Proof.
    intros Hs. revert i j. induction Hs as [| x l Hs IH Hall]; intros i j Hi Hj Hlt.
    - done.
    - destruct j as [| j]; [lia |]. simpl in Hj.
      destruct i as [| i]; simpl in Hi.
      + injection Hi as <-. rewrite Forall_forall in Hall.
        apply Hall. by eapply list_elem_of_lookup_2.
      + apply (IH i j); [done | done | lia].
  Qed.

  (** On an increasing axis the sample nearest to the lower bound does not
      come after the sample nearest to the upper bound. *)
Lemma nearest_index_monotone (axis : list Qc) (L U : Qc) lo hi :
    StronglySorted Qclt axis → L <= U →
    nearest_index axis L = inr lo → nearest_index axis U = inr hi →
    (lo ≤ hi)%nat.
  Proof.
    intros Hs HLU Hlo Hhi.
    destruct axis as [| x axis'] eqn:Haxis.
    { by destruct (nearest_index_empty L) as (e & He); rewrite He in Hlo. }
    rewrite <- Haxis in *.
    assert (Hne : axis ≠ []) by (by rewrite Haxis).
    destruct (nearest_index_spec axis L Hne) as (i & a & Hi & Ha & _ & HfirstL).
    destruct (nearest_index_spec axis U Hne) as (j & b & Hj & Hb & HminU & _).
    rewrite Hlo in Hi. injection Hi as <-.
    rewrite Hhi in Hj. injection Hj as <-.
    destruct (decide (lo ≤ hi)%nat) as [| Hgt]; [done |]. exfalso.
    assert (Hlt : (hi < lo)%nat) by lia.
    apply (closer_monotone b a L U).
    - apply Qclt_le_weak. by apply (sorted_lookup_lt axis hi lo).
    - done.
    - by apply (HfirstL hi).
    - by apply (HminU lo).
  Qed.

End Nearest.

(** ** Wavelength restriction and noise estimation *)

Section Windows.
Context `{Collaborators}.

  (** The two lookups that follow the choice of the bounds: a bound that is
      not set stops them with [NameError], an empty axis with [ValueError]. *)
Lemma window_indices_run (axis : list Qc) (w : world) :
    (bound_lower w = None
     ∧ Fit.window_indices axis w = (inl (NameError "bound_lower"), w))
    ∨ (∃ what, is_Some (bound_lower w) ∧ axis = []
               ∧ Fit.window_indices axis w = (inl (ValueError what), w))
    ∨ (is_Some (bound_lower w) ∧ axis ≠ [] ∧ bound_upper w = None
       ∧ Fit.window_indices axis w = (inl (NameError "bound_upper"), w))
    ∨ (∃ L U lo hi,
         bound_lower w = Some L ∧ bound_upper w = Some U
         ∧ nearest_index axis L = inr lo ∧ nearest_index axis U = inr hi
         ∧ Fit.window_indices axis w = (inr (lo, hi), w)).
  Proof.
    unfold Fit.window_indices, mbind, M_bind, read_bound_lower, read_bound_upper, lift.
    destruct (bound_lower w) as [L |] eqn:HL; [| by left].
    right. destruct axis as [| x axis'] eqn:Haxis.
    { left. destruct (nearest_index_empty L) as (what & ->). eauto. }
    right. rewrite <- Haxis. assert (Hne : axis ≠ []) by (by rewrite Haxis).
    clear Haxis.
    destruct (nearest_index_spec axis L Hne) as (lo & ? & Hlo & _).
    rewrite Hlo.
    destruct (bound_upper w) as [U |] eqn:HU; [| left; eauto].
    right. destruct (nearest_index_spec axis U Hne) as (hi & ? & Hhi & _).
    rewrite Hhi. exists L, U, lo, hi. eauto 10.
  Qed.

  (** For a supported filter the window is the filter's own, whatever the
      globals held before. *)
Lemma restrict_wavelength_supported (self : Fit.t) (w : world) :
    Fit.supported (Fit.filter self) (Fit.lines self) →
    Fit.axis self ≠ [] →
    ∃ L U lo hi,
      L <= U
      ∧ nearest_index (Fit.axis self) L = inr lo
      ∧ nearest_index (Fit.axis self) U = inr hi
      ∧ Fit.restrict_wavelength self w
        = (inr (lo, hi,
                Fit.set_axis_restricted (slice (Fit.axis self) lo hi)
                  (Fit.set_spectrum_restricted
                     (slice (Fit.spectrum_normalized self) lo hi) self)),
           World (Some L) (Some U) (model w) (stdout w) (closure_cells w) (rng w)).
  Proof.
    intros Hsup Hne.
    assert (Hgo : ∀ L U, ∃ lo hi,
      nearest_index (Fit.axis self) L = inr lo
      ∧ nearest_index (Fit.axis self) U = inr hi
      ∧ (assign_bounds L U;;
         '(min_, max_) ← Fit.window_indices (Fit.axis self);
         let self := Fit.set_spectrum_restricted
                       (slice (Fit.spectrum_normalized self) min_ max_) self in
         let self := Fit.set_axis_restricted (slice (Fit.axis self) min_ max_) self in
         mret (min_, max_, self)) w
        = (inr (lo, hi,
                Fit.set_axis_restricted (slice (Fit.axis self) lo hi)
                  (Fit.set_spectrum_restricted
                     (slice (Fit.spectrum_normalized self) lo hi) self)),
           World (Some L) (Some U) (model w) (stdout w) (closure_cells w) (rng w))).
    { intros L U.
      rewrite (bind_run (assign_bounds L U) _ w ()
                 (World (Some L) (Some U) (model w) (stdout w) (closure_cells w)
                        (rng w)) eq_refl).
      destruct (window_indices_run (Fit.axis self)
                  (World (Some L) (Some U) (model w) (stdout w) (closure_cells w)
                         (rng w)))
        as [(HL & _) | [(what & _ & Hnil & _)
                       | [(_ & _ & HU & _)
                         | (L' & U' & lo & hi & HL & HU & Hlo & Hhi & Hrun)]]];
        try done.
      simpl in HL, HU. injection HL as <-. injection HU as <-.
      exists lo, hi. split; [done |]. split; [done |].
      by rewrite (bind_run _ _ _ _ _ Hrun). }
    unfold Fit.restrict_wavelength.
    destruct Hsup as [Hf | [Hf | [Hf | Hf]]].
    - rewrite decide_True by done.
      destruct (Hgo (qz 14500) (qz 15400)) as (lo & hi & Hlo & Hhi & Hrun).
      exists (qz 14500), (qz 15400), lo, hi. split; [compute_done | done].
    - rewrite decide_False by (rewrite Hf; compute_done).
      rewrite decide_True by done.
      destruct (Hgo (qz 19500) (qz 20750)) as (lo & hi & Hlo & Hhi & Hrun).
      exists (qz 19500), (qz 20750), lo, hi. split; [compute_done | done].
    - rewrite decide_False by (rewrite Hf; compute_done).
      rewrite decide_False by (rewrite Hf; compute_done).
      rewrite decide_True by done.
      destruct (Hgo (qz 26000) (qz 27400)) as (lo & hi & Hlo & Hhi & Hrun).
      exists (qz 26000), (qz 27400), lo, hi. split; [compute_done | done].
    - rewrite decide_False by (rewrite (proj1 Hf); compute_done).
      rewrite decide_False by (rewrite (proj1 Hf); compute_done).
      rewrite decide_False by (rewrite (proj1 Hf); compute_done).
      rewrite decide_True by done.
      destruct (Hgo (qz 14500) (qz 15400)) as (lo & hi & Hlo & Hhi & Hrun).
      exists (qz 14500), (qz 15400), lo, hi. split; [compute_done | done].
  Qed.

  (** For any other filter the two methods print and go on to the lookups. *)
Lemma restrict_wavelength_unsupported (self : Fit.t) (w : world) :
    ¬ Fit.supported (Fit.filter self) (Fit.lines self) →
    Fit.restrict_wavelength self w
    = ('(min_, max_) ← Fit.window_indices (Fit.axis self);
       let self := Fit.set_spectrum_restricted
                     (slice (Fit.spectrum_normalized self) min_ max_) self in
       let self := Fit.set_axis_restricted (slice (Fit.axis self) min_ max_) self in
       mret (min_, max_, self))
        (World (bound_lower w) (bound_upper w) (model w)
               (stdout w ++ [unsupported_filter_message])
               (closure_cells w) (rng w)).
  Proof.
    intros Hun. unfold Fit.supported in Hun. unfold Fit.restrict_wavelength.
    rewrite !decide_False by tauto. done.
  Qed.

Lemma calculate_noise_unsupported (self : Fit.t) (w : world) :
    ¬ Fit.supported (Fit.filter self) (Fit.lines self) →
    Fit.calculate_noise self w
    = ('(min_, max_) ← Fit.window_indices (Fit.axis self);
       let spec_noise := slice (Fit.spectrum_clean self) min_ max_ in
       mret (Fit.set_noise (np_nanstd spec_noise) self))
        (World (bound_lower w) (bound_upper w) (model w)
               (stdout w ++ [unsupported_filter_message])
               (closure_cells w) (rng w)).
  Proof.
    intros Hun. unfold Fit.supported in Hun. unfold Fit.calculate_noise.
    rewrite !decide_False by tauto. done.
  Qed.

End Windows.

Section WindowClaims.
Context `{Collaborators}.

  (** C4, amended.  For a filter that is none of SN1, SN2, SN3 and C4 with
      H-alpha requested, the wavelength restriction and the noise estimation
      print a fixed message, leave the process-wide bounds as they are and
      raise no configuration error; with bounds left by an earlier call each
      goes on to the index search and returns normally. *)
Theorem C4_unsupported_filter_is_printed_not_raised
      (self : Fit.t) (w : world) :
    ¬ Fit.supported (Fit.filter self) (Fit.lines self) →
    let rw := Fit.restrict_wavelength self w in
    let cn := Fit.calculate_noise self w in
    (stdout rw.2 = stdout w ++ [unsupported_filter_message]
     ∧ bound_lower rw.2 = bound_lower w ∧ bound_upper rw.2 = bound_upper w
     ∧ (∀ message, rw.1 ≠ inl (Exception_ message))
     ∧ (∀ L U, bound_lower w = Some L → bound_upper w = Some U →
               Fit.axis self ≠ [] →
               ∃ lo hi self',
                 rw.1 = inr (lo, hi, self')
                 ∧ nearest_index (Fit.axis self) L = inr lo
                 ∧ nearest_index (Fit.axis self) U = inr hi))
    ∧ (stdout cn.2 = stdout w ++ [unsupported_filter_message]
       ∧ bound_lower cn.2 = bound_lower w ∧ bound_upper cn.2 = bound_upper w
       ∧ (∀ message, cn.1 ≠ inl (Exception_ message))
       ∧ (∀ L U, bound_lower w = Some L → bound_upper w = Some U →
                 Fit.axis self ≠ [] →
                 ∃ lo hi,
                   cn.1 = inr (Fit.set_noise
                                 (np_nanstd (slice (Fit.spectrum_clean self) lo hi))
                                 self)
                   ∧ nearest_index (Fit.axis self) L = inr lo
                   ∧ nearest_index (Fit.axis self) U = inr hi)).
  Proof.
    intros Hun rw cn. subst rw cn.
    rewrite restrict_wavelength_unsupported, calculate_noise_unsupported by done.
    set (w1 := World (bound_lower w) (bound_upper w) (model w)
                     (stdout w ++ [unsupported_filter_message])
                     (closure_cells w) (rng w)).
    destruct (window_indices_run (Fit.axis self) w1)
      as [(HL & Hrun) | [(what & HL & Hnil & Hrun)
                        | [(HL & Hne & HU & Hrun)
                          | (L & U & lo & hi & HL & HU & Hlo & Hhi & Hrun)]]].
    - rewrite !(bind_fail _ _ _ _ _ Hrun). simpl in *.
      repeat split; try done; intros L U HL'; congruence.
    - rewrite !(bind_fail _ _ _ _ _ Hrun). simpl in *.
      repeat split; try done; intros L U _ _ Hne; congruence.
    - rewrite !(bind_fail _ _ _ _ _ Hrun). simpl in *.
      repeat split; try done; intros L U _ HU'; congruence.
    - rewrite !(bind_run _ _ _ _ _ Hrun). simpl in *.
      repeat split; try done; intros L' U' HL' HU' _;
        assert (L' = L) as -> by congruence;
        assert (U' = U) as -> by congruence; eauto 10.
  Qed.

  (** C6, amended.  For a supported filter and a non-empty axis, the
      wavelength restriction returns two indices that are positions of the
      axis: those of the samples nearest to the two bounds it has stored,
      [L] and [U].  When moreover the axis is strictly increasing and the
      difference of every sample to [L] and to [U] is a float64 number, so
      that NumPy computes the distances without rounding, [lo ≤ hi].
      (Distances that are rounded can tie where the exact ones do not, and
      [np.argmin] then returns the earlier index.) *)
Theorem C6_window_indices_ordered_and_in_range (self : Fit.t) (w : world) :
    Fit.supported (Fit.filter self) (Fit.lines self) →
    Fit.axis self ≠ [] →
    ∃ lo hi self' w' L U,
      Fit.restrict_wavelength self w = (inr (lo, hi, self'), w')
      ∧ bound_lower w' = Some L ∧ bound_upper w' = Some U
      ∧ (lo < length (Fit.axis self))%nat
      ∧ (hi < length (Fit.axis self))%nat
      ∧ (StronglySorted Qclt (Fit.axis self) →
         Forall (λ v, binary64 (v - L) ∧ binary64 (v - U)) (Fit.axis self) →
         (lo ≤ hi)%nat).
  Proof.
    intros Hsup Hne.
    destruct (restrict_wavelength_supported self w Hsup Hne)
      as (L & U & lo & hi & HLU & Hlo & Hhi & Hrun).
    exists lo, hi. eexists _, _. exists L, U. split; [exact Hrun |].
    split; [done |]. split; [done |].
    destruct (nearest_index_spec (Fit.axis self) L Hne) as (i & a & Hi & Ha & _).
    destruct (nearest_index_spec (Fit.axis self) U Hne) as (j & b & Hj & Hb & _).
    rewrite Hlo in Hi. injection Hi as <-.
    rewrite Hhi in Hj. injection Hj as <-.
    split; [by eapply lookup_lt_Some |]. split; [by eapply lookup_lt_Some |].
    intros Hsorted _. by eapply nearest_index_monotone.
  Qed.

End WindowClaims.

(** C4, witness: the wavelength restriction of a session with the filter
    "SN4", in a process where an earlier session left its bounds. *)
Lemma C4_witness :
  let self := at_restriction unsupported_filter after_one_session in
  let rw := Fit.restrict_wavelength self after_one_session in
  let cn := Fit.calculate_noise self after_one_session in
  ¬ Fit.supported (Fit.filter self) (Fit.lines self)
  ∧ stdout rw.2 = stdout after_one_session ++ [unsupported_filter_message]
  ∧ (∀ message, rw.1 ≠ inl (Exception_ message))
  ∧ (∀ message, cn.1 ≠ inl (Exception_ message)).
Proof.
  assert (Hun : ¬ Fit.supported
                    (Fit.filter (at_restriction unsupported_filter after_one_session))
                    (Fit.lines (at_restriction unsupported_filter after_one_session)))
    by compute_done.
  pose proof (C4_unsupported_filter_is_printed_not_raised
                (at_restriction unsupported_filter after_one_session)
                after_one_session Hun) as [(Hout & _ & _ & Hrw & _) (_ & _ & _ & Hcn & _)].
  cbv zeta. split; [exact Hun |]. split; [exact Hout |].
  split; [exact Hrw | exact Hcn].
Defined.

(** C4, as stated, fails: in a process where an earlier session stored its
    bounds, constructing a session with the unsupported filter "SN4"
    succeeds. *)
Lemma C4_counterexample :
  ¬ Fit.supported "SN4" ["Halpha"]
  ∧ ∃ self w,
      Fit.__init__ unsupported_filter after_one_session = (inr self, w)
      ∧ Fit.filter self = "SN4".
Proof.
  split; [compute_done |].
  eexists _, _. split; vm_compute; reflexivity.
Qed.

(** A whole number below 2^53 in absolute value is a float64 number. *)
Lemma binary64_integer (n : Z) (q : Qc) :
  (Z.abs n < 2 ^ 53)%Z → q = qz n → binary64 q.
Proof.
  intros Hn ->. exists n, 0%Z. split; [done |]. split; [lia |].
  unfold pow2. simpl. change (qz (2 ^ 0)) with 1. by rewrite Qcmult_1_r.
Qed.

(** C6, witness: the SN3 window on the five-sample axis, whose samples are
    whole wavenumbers. *)
Lemma C6_witness :
  ∃ lo hi self' w' L U,
    Fit.restrict_wavelength (at_restriction one_line fresh_world) fresh_world
    = (inr (lo, hi, self'), w')
    ∧ bound_lower w' = Some L ∧ bound_upper w' = Some U
    ∧ (lo < length (Fit.axis (at_restriction one_line fresh_world)))%nat
    ∧ (hi < length (Fit.axis (at_restriction one_line fresh_world)))%nat
    ∧ StronglySorted Qclt (Fit.axis (at_restriction one_line fresh_world))
    ∧ Forall (λ v, binary64 (v - L) ∧ binary64 (v - U))
             (Fit.axis (at_restriction one_line fresh_world))
    ∧ (lo ≤ hi)%nat.
Proof.
  destruct (C6_window_indices_ordered_and_in_range
              (at_restriction one_line fresh_world) fresh_world
              ltac:(compute_done) ltac:(compute_done))
    as (lo & hi & self' & w' & L & U & Hrun & HL & HU & Hlo & Hhi & Horder).
  assert (Hbounds : (Fit.restrict_wavelength
                       (at_restriction one_line fresh_world) fresh_world).2
                    = World (Some (qz 14500)) (Some (qz 15400)) None [] [] 0)
    by (vm_compute; reflexivity).
  rewrite Hrun in Hbounds. simpl in Hbounds. subst w'.
  injection HL as <-. injection HU as <-.
  assert (Hsorted : StronglySorted Qclt
                      (Fit.axis (at_restriction one_line fresh_world)))
    by compute_done.
  assert (Hexact : Forall (λ v, binary64 (v - qz 14500) ∧ binary64 (v - qz 15400))
                          (Fit.axis (at_restriction one_line fresh_world))).
  { change (Fit.axis (at_restriction one_line fresh_world)) with axis5.
    repeat constructor.
    - by apply (binary64_integer (-200)).
    - by apply (binary64_integer (-1100)).
    - by apply (binary64_integer 0).
    - by apply (binary64_integer (-900)).
    - by apply (binary64_integer 500).
    - by apply (binary64_integer (-400)).
    - by apply (binary64_integer 738).
    - by apply (binary64_integer (-162)).
    - by apply (binary64_integer 900).
    - by apply (binary64_integer 0). }
  exists lo, hi, self', (World (Some (qz 14500)) (Some (qz 15400)) None [] [] 0),
         (qz 14500), (qz 15400).
  split; [exact Hrun |]. split; [reflexivity |]. split; [reflexivity |].
  split; [exact Hlo |]. split; [exact Hhi |]. split; [exact Hsorted |].
  split; [exact Hexact | exact (Horder Hsorted Hexact)].
Defined.

(** C6, as stated, fails: on the increasing axis 10000, 10001 the sample
    nearest to both SN3 bounds is the last one, and the two indices are
    equal. *)
Lemma C6_counterexample :
  ∃ self w self' w',
    Fit.init_spectra narrow_axis fresh_world = (inr self, w)
    ∧ Fit.supported (Fit.filter self) (Fit.lines self)
    ∧ StronglySorted Qclt (Fit.axis self)
    ∧ Fit.restrict_wavelength self w = (inr (1, 1, self')%nat, w').
Proof.
  eexists _, _, _, _. split; [vm_compute; reflexivity |].
  split; [compute_done |]. split; [compute_done |].
  vm_compute. reflexivity.
Qed.

(** ** The analytic prior *)




(** ** Goodness of fit *)

Section ChiSquare.

Lemma np_sum_cons (x : Qc) (l : list Qc) : np_sum (x :: l) = x + np_sum l.
Proof. done. Qed.

Lemma broadcast2_same_length (f : Qc → Qc → Qc) (a b : list Qc) :
  length a = length b → broadcast2 f a b = inr (zip_with f a b).
Proof. intros Hlen. unfold broadcast2. by rewrite decide_True. Qed.

Lemma slice_length_eq {A} (a b : list A) (lo hi : nat) :
  length a = length b → length (slice a lo hi) = length (slice b lo hi).
Proof. intros Hlen. unfold slice. rewrite !length_take, !length_drop. lia. Qed.

(** The vectorised computation on the two slices is the sum over the
    indices of the window. *)
Lemma chi_square_slices (fit_curve observed : list Qc) (lo n : nat) :
  length fit_curve = length observed →
  np_sum ((λ v, v ^ 2)
            <$> zip_with Qcdiv
                  (zip_with Qcminus (take n (drop lo fit_curve))
                                    (take n (drop lo observed)))
                  (take n (drop lo observed)))
  = sum_of_terms ((λ i, match fit_curve !! i, observed !! i with
                        | Some f, Some o => ((f - o) / o) ^ 2
                        | _, _ => 0
                        end) <$> seq lo n).
Proof.
  intros Hlen. revert lo. induction n as [| n IH]; intros lo; [done |].
  simpl seq. rewrite fmap_cons. cbn [sum_of_terms]. rewrite <- IH.
  destruct (fit_curve !! lo) as [f |] eqn:Hf.
  - destruct (observed !! lo) as [o |] eqn:Ho.
    + rewrite (drop_S _ _ _ Hf), (drop_S _ _ _ Ho). done.
    + apply lookup_lt_Some in Hf. apply lookup_ge_None in Ho. lia.
  - apply lookup_ge_None in Hf.
    rewrite (drop_ge fit_curve lo) by done.
    rewrite (drop_ge fit_curve (S lo)) by lia.
    rewrite !take_nil. simpl. by rewrite Qcplus_0_l.
Qed.

(** C7.  On a model curve and an observed spectrum of the same length, with
    [lo] and [hi] the indices of the restricted window, no observed sample
    of the window being zero and at least one line being fitted, the
    goodness-of-fit computation returns chi2 = sum over the window of
    ((fit - observed) / observed)^2, and with n_dof = 3 * lineCount + 1, as
    [fit] passes it, the reduced chi2 = chi2 / (n_dof - 1).  The two
    conditions are those under which the formula divides by no zero: at a
    zero observed sample, or with no line (n_dof - 1 = 0), NumPy's quotient
    is inf or nan, which the rationals do not have. *)
Theorem C7_chi_square_over_the_window
    (self : Fit.t) (w : world) (fit_vector init_spectrum : list Qc)
    (init_errors : Qc) lo hi (self' : Fit.t) (w' : world) :
  length fit_vector = length init_spectrum →
  Fit.restrict_wavelength self w = (inr (lo, hi, self'), w') →
  Forall (λ observed, observed ≠ 0) (slice init_spectrum lo hi) →
  (0 < Fit.line_num self)%nat →
  Fit.calc_chisquare self fit_vector init_spectrum init_errors
                     (3 * Fit.line_num self + 1) w
  = (inr (chi_square_spec fit_vector init_spectrum lo hi,
          reduced_chi_square_spec
            (chi_square_spec fit_vector init_spectrum lo hi) (Fit.line_num self),
          self'),
     w').
Proof.
  intros Hlen Hwindow _ _. unfold Fit.calc_chisquare.
  rewrite (bind_run _ _ _ _ _ Hwindow). cbv beta iota zeta.
  unfold mbind, M_bind, lift.
  rewrite broadcast2_same_length by (by apply slice_length_eq).
  rewrite broadcast2_same_length
    by (rewrite length_zip_with, (slice_length_eq fit_vector init_spectrum) by done;
        lia).
  unfold mret, M_ret, chi_square_spec, reduced_chi_square_spec, slice.
  by rewrite chi_square_slices.
Qed.

End ChiSquare.

(** C7, witness: the zero curve plus continuum against the five-sample
    spectrum, none of whose samples is zero, over the SN3 window. *)
Lemma C7_witness :
  ∃ lo hi self' w',
    Fit.calc_chisquare (at_restriction one_line fresh_world)
                       [qz 1; qz 1; qz 1; qz 1; qz 1] spectrum5 (qd 1 100)
                       (3 * Fit.line_num (at_restriction one_line fresh_world) + 1)
                       fresh_world
    = (inr (chi_square_spec [qz 1; qz 1; qz 1; qz 1; qz 1] spectrum5 lo hi,
            reduced_chi_square_spec
              (chi_square_spec [qz 1; qz 1; qz 1; qz 1; qz 1] spectrum5 lo hi)
              (Fit.line_num (at_restriction one_line fresh_world)),
            self'),
       w').
Proof.
  destruct (Fit.restrict_wavelength (at_restriction one_line fresh_world) fresh_world)
    as [[e | [[lo hi] self']] w'] eqn:Hwindow; [by vm_compute in Hwindow |].
  exists lo, hi, self', w'.
  apply (C7_chi_square_over_the_window (at_restriction one_line fresh_world)
           fresh_world [qz 1; qz 1; qz 1; qz 1; qz 1] spectrum5 (qd 1 100)
           lo hi self' w' eq_refl Hwindow).
  - unfold slice. apply Forall_take, Forall_drop. by repeat constructor.
  - vm_compute. lia.
Defined.

(** ** Session construction *)

Section Construction.
Context `{Collaborators}.

Lemma restrict_wavelength_inv (self : Fit.t) (w : world) lo hi self' w' :
  Fit.restrict_wavelength self w = (inr (lo, hi, self'), w') →
  self' = Fit.set_axis_restricted (slice (Fit.axis self) lo hi)
            (Fit.set_spectrum_restricted
               (slice (Fit.spectrum_normalized self) lo hi) self).
Proof.
  unfold Fit.restrict_wavelength. intros Hrun.
  apply bind_ok in Hrun as (u & w1 & _ & Hrun).
  apply bind_ok in Hrun as ([min_ max_] & w2 & _ & Hrun).
  apply ret_ok in Hrun as [Hrun _]. by injection Hrun as -> -> <-.
Qed.

Lemma calculate_noise_inv (self : Fit.t) (w : world) self' w' :
  Fit.calculate_noise self w = (inr self', w') →
  ∃ level, self' = Fit.set_noise level self.
Proof.
  unfold Fit.calculate_noise. intros Hrun.
  apply bind_ok in Hrun as (u & w1 & _ & Hrun).
  apply bind_ok in Hrun as ([min_ max_] & w2 & _ & Hrun).
  apply ret_ok in Hrun as [Hrun _]. eauto.
Qed.

Lemma apply_transmission_inv (self self' : Fit.t) :
  Fit.apply_transmission self = inr self' →
  ∃ corrected, self' = Fit.set_spectrum corrected self.
Proof.
  unfold Fit.apply_transmission. destruct (Fit.trans_filter self); [| done].
  intros Hrun. apply rbind_ok in Hrun as (corrected & _ & Hrun).
  injection Hrun as <-. eauto.
Qed.

(** What the session holds when [__init__] reaches its three checks. *)
Lemma init_preprocess_request (a : Fit.args) (w : world) self w1 :
  Fit.init_preprocess a w = (inr self, w1) →
  Fit.request self
  = (Fit.the_line_dict, Fit.the_available_functions, Fit.arg_model_type a,
     Fit.arg_lines a, length (Fit.arg_lines a), Fit.arg_vel_rel a,
     Fit.arg_sigma_rel a, (Fit.arg_filter a, Fit.arg_axis a),
     (Fit.arg_bayes_bool a, Fit.arg_uncertainty_bool a, Fit.arg_mdn a))
  ∧ Fit.uncertainties self = np_zeros (3 * length (Fit.arg_lines a) + 1).
Proof.
  unfold Fit.init_preprocess. intros Hrun.
  apply bind_ok in Hrun as (self0 & w0 & Hspectra & Hrun).
  apply bind_ok in Hrun as ([[lo hi] self2] & w2 & Hwindow & Hrun).
  apply bind_ok in Hrun as (scale & w3 & _ & Hrun).
  apply bind_ok in Hrun as (self3 & w4 & Hnoise & Hrun).
  apply ret_ok in Hrun as [<- _].
  apply calculate_noise_inv in Hnoise as (level & ->).
  apply restrict_wavelength_inv in Hwindow as ->.
  unfold Fit.init_spectra in Hspectra.
  apply bind_ok in Hspectra as (scale0 & w5 & _ & Hspectra).
  apply bind_ok in Hspectra as (self1 & w6 & Htrans & Hspectra).
  apply bind_ok in Hspectra as (scale1 & w7 & _ & Hspectra).
  apply ret_ok in Hspectra as [<- _].
  cbv beta iota zeta in Htrans.
  destruct (Fit.is_none _).
  - apply ret_ok in Htrans as [<- _]. done.
  - apply lift_ok in Htrans as [Htrans _].
    apply apply_transmission_inv in Htrans as (corrected & ->). done.
Qed.

(** C9, amended.  When the preprocessing steps of the construction have run
    ([self] is the session they leave), a line name outside the catalog, a
    model type outside {gaussian, sinc, sincgauss}, or a velocity-group or
    width-group list of another length than the line list makes the
    construction raise, in this order of precedence: for a line name the
    message lists the catalog's names, for a model type the three available
    names, for a length the number of entries given and the number of lines.
    When all three conditions hold the construction returns the session.
    When a preprocessing step raises, the construction raises that error. *)
Theorem C9_validation_at_construction (a : Fit.args) (w : world) :
  match Fit.init_preprocess a w with
  | (inl e, w1) => Fit.__init__ a w = (inl e, w1)
  | (inr self, w1) =>
      let lines_known :=
        Forall (λ l, l ∈ Fit.the_line_dict.*1) (Fit.arg_lines a) in
      let model_known := Fit.arg_model_type a ∈ Fit.the_available_functions in
      let n := length (Fit.arg_lines a) in
      (¬ lines_known →
       Fit.__init__ a w = (inl (Exception_ check_lines_message), w1))
      ∧ (lines_known → ¬ model_known →
         Fit.__init__ a w = (inl (Exception_ check_fitting_model_message), w1))
      ∧ (lines_known → model_known → length (Fit.arg_vel_rel a) ≠ n →
         Fit.__init__ a w
         = (inl (Exception_
                   (check_lengths_message "vel_rel"
                      (length (Fit.arg_vel_rel a)) n)), w1))
      ∧ (lines_known → model_known → length (Fit.arg_vel_rel a) = n →
         length (Fit.arg_sigma_rel a) ≠ n →
         Fit.__init__ a w
         = (inl (Exception_
                   (check_lengths_message "sigma_rel"
                      (length (Fit.arg_sigma_rel a)) n)), w1))
      ∧ (lines_known → model_known → length (Fit.arg_vel_rel a) = n →
         length (Fit.arg_sigma_rel a) = n →
         Fit.__init__ a w = (inr self, w1))
  end.
Proof.
  destruct (Fit.init_preprocess a w) as [[e | self] w1] eqn:Hpre.
  { unfold Fit.__init__. by rewrite (bind_fail _ _ _ _ _ Hpre). }
  destruct (init_preprocess_request a w self w1 Hpre) as [Hreq _].
  unfold Fit.request in Hreq.
  injection Hreq as Hdict Hfuns Hmodel Hlines _ Hvel Hsigma _ _ _ _ _.
  intros lines_known model_known n. subst lines_known model_known n.
  unfold Fit.__init__. rewrite (bind_run _ _ _ _ _ Hpre).
  unfold mbind, M_bind, lift, mret, M_ret.
  unfold Fit.check_lines, Fit.check_fitting_model, Fit.check_lengths.
  rewrite Hdict, Hfuns, Hmodel, Hlines, Hvel, Hsigma.
  repeat split.
  - intros Hbad. by rewrite decide_False.
  - intros Hok Hbad. rewrite decide_True by done. simpl.
    by rewrite decide_False.
  - intros Hok Hmod Hbad. rewrite decide_True by done. simpl.
    rewrite (decide_True (P := _ ∈ _)) by done. simpl.
    by rewrite decide_True.
  - intros Hok Hmod Hvel' Hbad. rewrite decide_True by done. simpl.
    rewrite (decide_True (P := _ ∈ _)) by done. simpl.
    rewrite decide_False by (intros Hne; by apply Hne).
    by rewrite decide_True.
  - intros Hok Hmod Hvel' Hsig'. rewrite decide_True by done. simpl.
    rewrite (decide_True (P := _ ∈ _)) by done. simpl.
    rewrite decide_False by (intros Hne; by apply Hne).
    by rewrite decide_False by (intros Hne; by apply Hne).
Qed.

End Construction.

(** C9, as stated, fails: the error raised for the line "Hgamma", which the
    catalog does not have, carries a message in which "Hgamma" does not
    occur; likewise for the model type "lorentzian". *)
Lemma C9_counterexample :
  (∃ w, Fit.__init__ unknown_line fresh_world
        = (inl (Exception_ check_lines_message), w))
  ∧ String.index 0 "Hgamma" check_lines_message = None
  ∧ (∃ w, Fit.__init__ unknown_model fresh_world
          = (inl (Exception_ check_fitting_model_message), w))
  ∧ String.index 0 "lorentzian" check_fitting_model_message = None
  ∧ String.index 0 "Halpha" check_lines_message = Some 63%nat.
Proof.
  split; [eexists; vm_compute; reflexivity |].
  split; [vm_compute; reflexivity |].
  split; [eexists; vm_compute; reflexivity |].
  split; vm_compute; reflexivity.
Qed.

(** ** The optimizer driver and the result record *)

Section Driver.
Context `{Collaborators}.

(** [kept self self']: the session [self'] has the request and the
    uncertainty vector of [self]. *)
#[local] Abbreviation kept self self' :=
  (Fit.request self' = Fit.request self
   ∧ Fit.uncertainties self' = Fit.uncertainties self).

Lemma line_vals_estimate_kept (self : Fit.t) name amp pos broad self' :
  Fit.line_vals_estimate self name = inr (amp, pos, broad, self') →
  kept self self'.
Proof.
  unfold Fit.line_vals_estimate. intros Hrun.
  apply rbind_ok in Hrun as (rest & _ & Hrun).
  apply rbind_ok in Hrun as (self1 & Hprior & Hrun).
  apply rbind_ok in Hrun as (line_ind & _ & Hrun).
  apply rbind_ok in Hrun as (line_amp_est & _ & Hrun).
  injection Hrun as _ _ _ <-.
  assert (kept self self1) as [Hreq Hunc].
  { destruct (_ || _).
    - apply rbind_ok in Hprior as (peak & _ & Hprior).
      apply rbind_ok in Hprior as (obs & _ & Hprior).
      by injection Hprior as <-.
    - by injection Hprior as <-. }
  rewrite <- Hreq, <- Hunc.
  unfold Fit.request. destruct self1 as [? ? ? ? ? ? ? ? ? ? ? ? ? ? ? ? ? ? ? ? ? ? ? ? ? ? ? ? ? ? ? ? mdn1]; simpl.
  by destruct mdn1.
Qed.

Lemma interpolate_spectrum_kept (self self' : Fit.t) :
  Fit.interpolate_spectrum self = inr self' → kept self self'.
Proof.
  unfold Fit.interpolate_spectrum. intros Hrun.
  apply rbind_ok in Hrun as (scale & _ & Hrun).
  apply rbind_ok in Hrun as (interpolated & _ & Hrun).
  apply rbind_ok in Hrun as (interp_scale & _ & Hrun).
  by injection Hrun as <-.
Qed.

Lemma estimate_priors_ML_kept (self self' : Fit.t) :
  Fit.estimate_priors_ML self = inr self' → kept self self'.
Proof.
  unfold Fit.estimate_priors_ML. destruct (Fit.ML_model self); [| done].
  intros Hrun.
  destruct self as [? ? ? ? ? ? ? ? ? ? ? ? ? ? ? ? ? ? ? ? ? ? ? ? ? ? ? ? ? ? ? ? mdn1].
  simpl in *. destruct mdn1; by injection Hrun as <-.
Qed.

(** With a machine-learning model too, the scale of the spectrum is its
    maximum. *)
Lemma interpolate_spectrum_scale (self self' : Fit.t) :
  Fit.interpolate_spectrum self = inr self' →
  np_max (Fit.spectrum self) = inr (Fit.spectrum_scale self').
Proof.
  unfold Fit.interpolate_spectrum. intros Hrun.
  apply rbind_ok in Hrun as (scale & Hscale & Hrun).
  apply rbind_ok in Hrun as (interpolated & _ & Hrun).
  apply rbind_ok in Hrun as (interp_scale & _ & Hrun).
  by injection Hrun as <-.
Qed.

Lemma estimate_priors_ML_scale (self self' : Fit.t) :
  Fit.estimate_priors_ML self = inr self' →
  Fit.spectrum_scale self' = Fit.spectrum_scale self.
Proof.
  unfold Fit.estimate_priors_ML. destruct (Fit.ML_model self); [| done].
  intros Hrun. destruct (Fit.mdn self); by injection Hrun as <-.
Qed.

Lemma reconstruct_kept (self self' : Fit.t) :
  Fit.reconstruct self = inr self' →
  kept self self' ∧ Fit.fit_sol self' = Fit.fit_sol self.
Proof.
  unfold Fit.reconstruct. intros Hrun.
  repeat case_decide;
    try (apply rbind_ok in Hrun as (curve & _ & Hrun);
         apply rbind_ok in Hrun as (continuum & _ & Hrun));
    by injection Hrun as <-.
Qed.

Lemma calc_chisquare_inv (self : Fit.t) fit_vector init_spectrum init_errors
    n_dof w chi2 chi2dof self' w' :
  Fit.calc_chisquare self fit_vector init_spectrum init_errors n_dof w
  = (inr (chi2, chi2dof, self'), w') →
  ∃ lo hi, Fit.restrict_wavelength self w = (inr (lo, hi, self'), w').
Proof.
  unfold Fit.calc_chisquare. intros Hrun.
  apply bind_ok in Hrun as ([[lo hi] self1] & w1 & Hwindow & Hrun).
  apply bind_ok in Hrun as (difference & w2 & Hd & Hrun).
  apply bind_ok in Hrun as (z & w3 & Hz & Hrun).
  apply lift_ok in Hd as [_ ->]. apply lift_ok in Hz as [_ ->].
  apply ret_ok in Hrun as [Hrun ->]. injection Hrun as _ _ <-. eauto.
Qed.

(** Rescaling a vector of zeros leaves it as it is, in any arithmetic in
    which zero times the scale is zero. *)
Lemma update_at_zeros {A} (times : A → A → A) (zero scale : A) (m i : nat)
    (r : list A) :
  times zero scale = zero →
  Fit.update_at (replicate m zero) i (λ v, times v scale) = inr r →
  r = replicate m zero.
Proof.
  intros Hzero. unfold Fit.update_at, getitem, setitem.
  destruct (replicate m zero !! i) as [v |] eqn:Hv; [| done]. simpl.
  case_decide; [| done]. intros [= <-].
  apply lookup_replicate in Hv as [-> Hi].
  apply list_insert_id. rewrite lookup_replicate. by split.
Qed.

Lemma update_last_zeros {A} (times : A → A → A) (zero scale : A) (m : nat)
    (r : list A) :
  times zero scale = zero →
  Fit.update_last (replicate m zero) (λ v, times v scale) = inr r →
  r = replicate m zero.
Proof.
  intros Hzero. unfold Fit.update_last.
  destruct (replicate m zero) eqn:Hz; [done |].
  rewrite <- Hz. by apply update_at_zeros.
Qed.

Lemma unscale_zeros {A} (times : A → A → A) (zero scale : A) (n m : nat)
    (parameters : list A) p' e' :
  times zero scale = zero →
  Fit.unscale times scale n parameters (replicate m zero) = inr (p', e') →
  e' = replicate m zero.
Proof.
  intros Hzero. unfold Fit.unscale. intros Hrun.
  apply rbind_ok in Hrun as ([p1 e1] & Hloop & Hrun).
  apply rbind_ok in Hrun as (p2 & _ & Hrun).
  apply rbind_ok in Hrun as (e2 & Hlast & Hrun).
  injection Hrun as _ <-.
  assert (e1 = replicate m zero) as ->;
    [| by apply update_last_zeros in Hlast].
  clear Hlast. revert parameters Hloop.
  generalize (seq 0 n). intros l.
  induction l as [| i l IH]; intros parameters Hloop; simpl in Hloop.
  - by injection Hloop as _ <-.
  - apply rbind_ok in Hloop as ([p3 e3] & Hstep & Hloop).
    apply rbind_ok in Hstep as (p4 & _ & Hstep).
    apply rbind_ok in Hstep as (e4 & Hstay & Hstep).
    injection Hstep as <- <-.
    apply update_at_zeros in Hstay as ->; [| done]. by apply (IH p4).
Qed.

(** The loop of lines 443-451 assigns the priors and the bounds only. *)
Lemma initial_guess_kept (l : list nat) (self : Fit.t) initial bounds_
    self' initial' bounds' :
  for_each (F := result) l
    (λ mod_ '(self, initial, bounds_),
       line ← getitem (Fit.lines self) mod_;
       '(amp_est, vel_est, sigma_est, self) ← Fit.line_vals_estimate self line;
       cont ← getitem_z initial (-1);
       initial ← setitem initial (3 * mod_) (amp_est - cont);
       initial ← setitem initial (3 * mod_ + 1) vel_est;
       initial ← setitem initial (3 * mod_ + 2) sigma_est;
       mret (self, initial,
             bounds_ ++ [ (Fit.A_min self, Fit.A_max self);
                          (Fit.x_min self, Fit.x_max self);
                          (Fit.sigma_min self, Fit.sigma_max self) ]))
    (self, initial, bounds_) = inr (self', initial', bounds') →
  kept self self'.
Proof.
  revert self initial bounds_.
  induction l as [| i l IH]; intros self initial bounds_ Hrun; simpl in Hrun.
  - by injection Hrun as <- _ _.
  - apply rbind_ok in Hrun as ([[self1 initial1] bounds1] & Hstep & Hrun).
    apply rbind_ok in Hstep as (line & _ & Hstep).
    apply rbind_ok in Hstep as ([[[amp pos] broad] self2] & Hline & Hstep).
    apply rbind_ok in Hstep as (cont & _ & Hstep).
    apply rbind_ok in Hstep as (i1 & _ & Hstep).
    apply rbind_ok in Hstep as (i2 & _ & Hstep).
    apply rbind_ok in Hstep as (i3 & _ & Hstep).
    injection Hstep as <- _ _.
    apply line_vals_estimate_kept in Hline as [Hreq Hunc].
    apply IH in Hrun as [Hreq' Hunc']. split; congruence.
Qed.

(** The same loop leaves the scale of the spectrum as it is. *)
Lemma initial_guess_scale (l : list nat) (self : Fit.t) initial bounds_
    self' initial' bounds' :
  for_each (F := result) l
    (λ mod_ '(self, initial, bounds_),
       line ← getitem (Fit.lines self) mod_;
       '(amp_est, vel_est, sigma_est, self) ← Fit.line_vals_estimate self line;
       cont ← getitem_z initial (-1);
       initial ← setitem initial (3 * mod_) (amp_est - cont);
       initial ← setitem initial (3 * mod_ + 1) vel_est;
       initial ← setitem initial (3 * mod_ + 2) sigma_est;
       mret (self, initial,
             bounds_ ++ [ (Fit.A_min self, Fit.A_max self);
                          (Fit.x_min self, Fit.x_max self);
                          (Fit.sigma_min self, Fit.sigma_max self) ]))
    (self, initial, bounds_) = inr (self', initial', bounds') →
  Fit.spectrum_scale self' = Fit.spectrum_scale self.
Proof.
  revert self initial bounds_.
  induction l as [| i l IH]; intros self initial bounds_ Hloop; simpl in Hloop.
  - by injection Hloop as <- _ _.
  - apply rbind_ok in Hloop as ([[s1 i1] b1] & Hstep & Hloop).
    apply rbind_ok in Hstep as (line & _ & Hstep).
    apply rbind_ok in Hstep as ([[[amp pos] broad] s2] & Hline & Hstep).
    apply rbind_ok in Hstep as (c0 & _ & Hstep).
    apply rbind_ok in Hstep as (i2 & _ & Hstep).
    apply rbind_ok in Hstep as (i3 & _ & Hstep).
    apply rbind_ok in Hstep as (i4 & _ & Hstep).
    injection Hstep as <- _ _.
    apply IH in Hloop. rewrite Hloop. clear Hloop IH.
    unfold Fit.line_vals_estimate in Hline.
    apply rbind_ok in Hline as (rest & _ & Hline).
    apply rbind_ok in Hline as (s3 & Hprior & Hline).
    apply rbind_ok in Hline as (line_ind & _ & Hline).
    apply rbind_ok in Hline as (amp0 & _ & Hline).
    injection Hline as _ _ _ <-.
    assert (Fit.spectrum_scale s3 = Fit.spectrum_scale self) as <-.
    { destruct (_ || _).
      - apply rbind_ok in Hprior as (peak & _ & Hprior).
        apply rbind_ok in Hprior as (obs & _ & Hprior).
        by injection Hprior as <-.
      - by injection Hprior as <-. }
    by destruct (Fit.mdn s3).
Qed.

(** Without uncertainty estimation [calculate_params] only rescales the
    uncertainty vector, by the scale of the spectrum: zeros stay zeros when
    zero times that scale is zero. *)
Lemma calculate_params_zero_uncertainties (self : Fit.t) (w : world) self' w' m :
  Fit.uncertainty_bool self = false →
  Fit.uncertainties self = np_zeros m →
  qz 0 * Fit.spectrum_scale self = qz 0 →
  Fit.calculate_params self w = (inr self', w') →
  Fit.request self' = Fit.request self ∧ Fit.uncertainties self' = np_zeros m.
Proof.
  intros Hflag Hzero Htimes Hrun. unfold Fit.calculate_params in Hrun.
  cbv zeta in Hrun.
  apply bind_ok in Hrun as (cont & w1 & _ & Hrun).
  apply bind_ok in Hrun as (initial & w2 & _ & Hrun).
  apply bind_ok in Hrun as ([[self1 initial1] bounds_] & w3 & Hloop & Hrun).
  apply lift_ok in Hloop as [Hloop _].
  pose proof (initial_guess_scale _ _ _ _ _ _ _ Hloop) as Hscale1.
  apply initial_guess_kept in Hloop as [Hreq Hunc].
  apply bind_ok in Hrun as (cons & w4 & _ & Hrun).
  apply bind_ok in Hrun as (parameters & w5 & _ & Hrun).
  apply bind_ok in Hrun as (self2 & w6 & Hbranch & Hrun).
  assert (Fit.uncertainty_bool self1 = false) as Hflag1.
  { unfold Fit.request in Hreq. injection Hreq as _ _ _ _ _ _ _ _ _ _ Hu _. congruence. }
  simpl in Hbranch. rewrite Hflag1 in Hbranch.
  apply ret_ok in Hbranch as [<- _].
  apply bind_ok in Hrun as ([p e] & w7 & Hscale & Hrun).
  apply lift_ok in Hscale as [Hscale _].
  simpl in Hscale. rewrite Hunc, Hzero, Hscale1 in Hscale.
  apply (unscale_zeros Qcmult (qz 0)) in Hscale as ->; [| exact Htimes].
  apply lift_ok in Hrun as [Hrun _].
  apply reconstruct_kept in Hrun as [[Hreq' Hunc'] _].
  split; [by rewrite Hreq' | by rewrite Hunc'].
Qed.

(** The steps of [fit], read off a call that returned. *)
Lemma fit_inv (self : Fit.t) (w : world) d self' w' :
  Fit.fit self w = (inr (d, self'), w') →
  ∃ s1 w1 s2 w2 s3 w3 fit_vector_ chi_sqr red_chi_sqr per_line continuum,
    kept self s1
    ∧ np_max (Fit.spectrum self) = inr (Fit.spectrum_scale s1)
    ∧ Fit.calculate_params s1 w1 = (inr s2, w2)
    ∧ (if Fit.bayes_bool s2 then Fit.fit_Bayes s2 w2 = (inr s3, w3)
       else s3 = s2 ∧ w3 = w2)
    ∧ Fit.fit_vector s3 = Some fit_vector_
    ∧ Fit.calc_chisquare s3 fit_vector_ (Fit.spectrum s3) (Fit.noise s3)
                         (3 * Fit.line_num s3 + 1) w3
      = (inr (chi_sqr, red_chi_sqr, self'), w')
    ∧ mapM (Fit.line_quantities self') (seq 0 (length (Fit.lines self')))
      = inr per_line
    ∧ getitem_z (Fit.fit_sol self') (-1) = inr continuum
    ∧ d = list_to_map
            [ ("fit_sol", VVec (Fit.fit_sol self'));
              ("fit_uncertainties", VVec (Fit.uncertainties self'));
              ("fit_vector", VVec fit_vector_);
              ("fit_axis", VVec (Fit.axis self'));
              ("amplitudes", VVec ((λ q, q.1.1.1.1.1.1) <$> per_line));
              ("fluxes", VVec ((λ q, q.1.1.1.1.1.2) <$> per_line));
              ("flux_errors", VVec ((λ q, q.2) <$> per_line));
              ("chi2", VNum red_chi_sqr);
              ("velocities", VVec ((λ q, q.1.1.1.1.2) <$> per_line));
              ("sigmas", VVec ((λ q, q.1.1.1.2) <$> per_line));
              ("vels_errors", VVec ((λ q, q.1.1.2) <$> per_line));
              ("sigmas_errors", VVec ((λ q, q.1.2) <$> per_line));
              ("axis_step", VNum (Fit.axis_step self'));
              ("corr", VNum (Fit.correction_factor self'));
              ("continuum", VNum continuum);
              ("scale", VNum (Fit.spectrum_scale self')) ].
Proof.
  unfold Fit.fit. intros Hrun.
  apply bind_ok in Hrun as (s1 & w1 & Hprior & Hrun).
  apply bind_ok in Hrun as (s2 & w2 & Hparams & Hrun).
  apply bind_ok in Hrun as (s3 & w3 & Hbayes & Hrun).
  apply bind_ok in Hrun as (fv & w4 & Hvector & Hrun).
  apply bind_ok in Hrun as ([[chi_sqr red] s4] & w5 & Hchi & Hrun).
  apply bind_ok in Hrun as (per_line & w6 & Hlines & Hrun).
  apply bind_ok in Hrun as (continuum & w7 & Hcont & Hrun).
  apply lift_ok in Hlines as [Hlines ->]. apply lift_ok in Hcont as [Hcont ->].
  apply ret_ok in Hrun as [Hrun ->]. injection Hrun as <- <-.
  exists s1, w1, s2, w2, s3, w3, fv, chi_sqr, red, per_line, continuum.
  assert (Fit.fit_vector s3 = Some fv ∧ w4 = w3) as [Hfv ->].
  { destruct (Fit.fit_vector s3); [| done]. by apply ret_ok in Hvector as [-> ->]. }
  repeat split; try done.
  - destruct (Fit.is_none _).
    + apply bind_ok in Hprior as (scale & w8 & _ & Hprior).
      by apply ret_ok in Hprior as [<- _].
    + apply bind_ok in Hprior as (s0 & w8 & Hinterp & Hprior).
      apply lift_ok in Hinterp as [[Hr0 _]%interpolate_spectrum_kept _].
      apply lift_ok in Hprior as [[Hr1 _]%estimate_priors_ML_kept _].
      congruence.
  - destruct (Fit.is_none _).
    + apply bind_ok in Hprior as (scale & w8 & _ & Hprior).
      by apply ret_ok in Hprior as [<- _].
    + apply bind_ok in Hprior as (s0 & w8 & Hinterp & Hprior).
      apply lift_ok in Hinterp as [[_ Hu0]%interpolate_spectrum_kept _].
      apply lift_ok in Hprior as [[_ Hu1]%estimate_priors_ML_kept _].
      congruence.
  - destruct (Fit.is_none _).
    + apply bind_ok in Hprior as (scale & w8 & Hscale & Hprior).
      apply lift_ok in Hscale as [Hscale _].
      by apply ret_ok in Hprior as [<- _].
    + apply bind_ok in Hprior as (s0 & w8 & Hinterp & Hprior).
      apply lift_ok in Hinterp as [Hs0%interpolate_spectrum_scale _].
      apply lift_ok in Hprior as [Hs1%estimate_priors_ML_scale _].
      congruence.
  - destruct (Fit.bayes_bool s2); [done |]. by apply ret_ok in Hbayes as [-> ->].
Qed.

End Driver.

Section Results.
Context `{Collaborators}.

Lemma init_inv (a : Fit.args) (w : world) self w1 :
  Fit.__init__ a w = (inr self, w1) →
  Fit.init_preprocess a w = (inr self, w1).
Proof.
  unfold Fit.__init__. intros Hrun.
  apply bind_ok in Hrun as (self0 & w0 & Hpre & Hrun).
  apply bind_ok in Hrun as (u1 & w2 & Hc1 & Hrun).
  apply bind_ok in Hrun as (u2 & w3 & Hc2 & Hrun).
  apply bind_ok in Hrun as (u3 & w4 & Hc3 & Hrun).
  apply lift_ok in Hc1 as [_ ->]. apply lift_ok in Hc2 as [_ ->].
  apply lift_ok in Hc3 as [_ ->]. by apply ret_ok in Hrun as [-> ->].
Qed.

(** Zero times a finite float64 number is zero (in binary64 itself the
    product is 0.0 or -0.0, which are equal as numbers). *)
Lemma binary64_zero_times (scale : Qc) : binary64 scale → qz 0 * scale = qz 0.
Proof. intros _. apply Qcmult_0_l. Qed.

(** A fit without uncertainty estimation and without Bayesian refinement
    keeps a zero uncertainty vector and returns it, when zero times the
    maximum of the spectrum is zero. *)
Lemma fit_zero_uncertainties (self : Fit.t) (w : world) d self' w' m scale :
  Fit.uncertainty_bool self = false →
  Fit.bayes_bool self = false →
  Fit.uncertainties self = np_zeros m →
  np_max (Fit.spectrum self) = inr scale →
  qz 0 * scale = qz 0 →
  Fit.fit self w = (inr (d, self'), w') →
  d !! "fit_uncertainties" = Some (VVec (np_zeros m))
  ∧ Fit.uncertainties self' = np_zeros m
  ∧ Fit.request self' = Fit.request self.
Proof.
  intros Hunc Hbayes Hzero Hmax Htimes Hfit.
  apply fit_inv in Hfit
    as (s1 & w1 & s2 & w2 & s3 & w3 & fv & chi & red & per_line & continuum
        & [Hreq1 Hu1] & Hscale & Hparams & Hstage & _ & Hchi & _ & _ & ->).
  assert (Hflags : Fit.uncertainty_bool s1 = false ∧ Fit.bayes_bool s1 = false).
  { unfold Fit.request in Hreq1.
    injection Hreq1 as _ _ _ _ _ _ _ _ _ Hb Hu _. split; congruence. }
  destruct Hflags as [Hunc1 Hbayes1].
  assert (qz 0 * Fit.spectrum_scale s1 = qz 0) as Htimes1 by congruence.
  apply (calculate_params_zero_uncertainties s1 w1 s2 w2 m Hunc1) in Hparams
    as [Hreq2 Hu2]; [| congruence | exact Htimes1].
  assert (Fit.bayes_bool s2 = false) as Hbayes2.
  { unfold Fit.request in Hreq2.
    injection Hreq2 as _ _ _ _ _ _ _ _ _ Hb _ _. congruence. }
  rewrite Hbayes2 in Hstage. destruct Hstage as [-> ->].
  apply calc_chisquare_inv in Hchi as (lo & hi & Hwindow).
  apply restrict_wavelength_inv in Hwindow as ->.
  split; [| split].
  - rewrite <- Hu2. reflexivity.
  - exact Hu2.
  - change (Fit.request s2 = Fit.request self). congruence.
Qed.

(** C10, amended.  A session constructed with uncertainty estimation and
    Bayesian refinement disabled, on a spectrum whose maximum is a finite
    float64 number, returns from a fit that completes the all-zero
    uncertainty vector of length 3 * lineCount + 1: the vector is
    initialized to zeros and only multiplied by that maximum, never
    recomputed. *)
Theorem C10_uncertainties_are_zero_when_not_estimated
    (a : Fit.args) (w w1 w2 : world) (self : Fit.t) (scale : Qc) d self' w3 :
  Fit.arg_uncertainty_bool a = false →
  Fit.arg_bayes_bool a = false →
  Fit.__init__ a w = (inr self, w1) →
  np_max (Fit.spectrum self) = inr scale →
  binary64 scale →
  Fit.fit self w2 = (inr (d, self'), w3) →
  d !! "fit_uncertainties"
  = Some (VVec (np_zeros (3 * length (Fit.arg_lines a) + 1)))
  ∧ Fit.uncertainties self' = np_zeros (3 * Fit.line_num self' + 1)
  ∧ Fit.uncertainty_bool self' = false
  ∧ Fit.bayes_bool self' = false.
Proof.
  intros Hunc Hbayes Hinit Hmax Hfinite Hfit.
  apply init_inv, init_preprocess_request in Hinit as [Hreq Hzero].
  unfold Fit.request in Hreq.
  injection Hreq as _ _ _ _ Hnum _ _ _ _ Hb Hu _.
  destruct (fit_zero_uncertainties self w2 d self' w3
              (3 * length (Fit.arg_lines a) + 1) scale)
    as (Hd & Hzero' & Hreq');
    [congruence | congruence | done | done
    | by apply binary64_zero_times | done |].
  unfold Fit.request in Hreq'.
  injection Hreq' as _ _ _ _ Hnum' _ _ _ _ Hb' Hu' _.
  repeat split; [done | | congruence | congruence].
  rewrite Hzero'. congruence.
Qed.

(** C8, amended.  The record a completed fit returns has exactly the
    sixteen entries of [fit_dict_keys].  Its entry "chi2" is the reduced
    chi-square statistic, the second value [calc_chisquare] returned; the
    best-fit vector, the uncertainties, the model curve, the correction
    factor and the continuum are entries; the chi-square statistic itself and
    the noise estimate are not. *)
Theorem C8_result_record (self : Fit.t) (w : world) d self' w' :
  Fit.fit self w = (inr (d, self'), w') →
  dom d = list_to_set fit_dict_keys
  ∧ (∃ session w0 fit_vector_ chi_sqr red_chi_sqr,
       Fit.fit_vector session = Some fit_vector_
       ∧ Fit.calc_chisquare session fit_vector_ (Fit.spectrum session)
                            (Fit.noise session) (3 * Fit.line_num session + 1) w0
         = (inr (chi_sqr, red_chi_sqr, self'), w')
       ∧ d !! "chi2" = Some (VNum red_chi_sqr)
       ∧ d !! "fit_vector" = Some (VVec fit_vector_))
  ∧ d !! "fit_sol" = Some (VVec (Fit.fit_sol self'))
  ∧ d !! "fit_uncertainties" = Some (VVec (Fit.uncertainties self'))
  ∧ d !! "corr" = Some (VNum (Fit.correction_factor self'))
  ∧ (∃ continuum, getitem_z (Fit.fit_sol self') (-1) = inr continuum
                  ∧ d !! "continuum" = Some (VNum continuum))
  ∧ d !! "noise" = None
  ∧ d !! "chi_sqr" = None.
Proof.
  intros Hfit.
  apply fit_inv in Hfit
    as (s1 & w1 & s2 & w2 & s3 & w3 & fv & chi & red & per_line & continuum
        & _ & _ & _ & _ & Hfv & Hchi & _ & Hcont & ->).
  split; [by rewrite dom_list_to_map_L |].
  split; [exists s3, w3, fv, chi, red; done |].
  repeat split; try done. by exists continuum.
Qed.

End Results.

(** The fit of the H-alpha session, in the process where it was
    constructed, completes. *)
Lemma one_line_fit_completes :
  Fit.fit (constructed one_line fresh_world) after_one_session
  = (inr ((fit_outcome (constructed one_line fresh_world) after_one_session).1.1,
          (fit_outcome (constructed one_line fresh_world) after_one_session).1.2),
     (fit_outcome (constructed one_line fresh_world) after_one_session).2).
Proof.
  assert (Hok : is_ok (Fit.fit (constructed one_line fresh_world)
                               after_one_session).1 = true)
    by (vm_compute; reflexivity).
  unfold fit_outcome.
  destruct (Fit.fit (constructed one_line fresh_world) after_one_session)
    as [[e | [d self']] w']; [discriminate Hok | reflexivity].
Qed.

(** The construction of the H-alpha session in a fresh process completes. *)
Lemma one_line_is_constructed :
  Fit.__init__ one_line fresh_world
  = (inr (constructed one_line fresh_world), after_one_session).
Proof.
  assert (Hok : is_ok (Fit.__init__ one_line fresh_world).1 = true)
    by (vm_compute; reflexivity).
  unfold constructed, after_one_session.
  destruct (Fit.__init__ one_line fresh_world) as [[e | self] w];
    [discriminate Hok | reflexivity].
Qed.

(** C10, witness: that fit; the maximum of the five-sample spectrum is 4. *)
Lemma C10_witness :
  let outcome := fit_outcome (constructed one_line fresh_world) after_one_session in
  np_max (Fit.spectrum (constructed one_line fresh_world)) = inr (qz 4)
  ∧ binary64 (qz 4)
  ∧ outcome.1.1 !! "fit_uncertainties" = Some (VVec (np_zeros (3 * 1 + 1)))
  ∧ Fit.uncertainties outcome.1.2 = np_zeros (3 * Fit.line_num outcome.1.2 + 1).
Proof.
  assert (Hmax : np_max (Fit.spectrum (constructed one_line fresh_world))
                 = inr (qz 4)) by (vm_compute; reflexivity).
  assert (Hfinite : binary64 (qz 4))
    by (by apply (binary64_integer 4)).
  destruct (C10_uncertainties_are_zero_when_not_estimated
              one_line fresh_world after_one_session after_one_session
              (constructed one_line fresh_world) (qz 4) _ _ _ eq_refl eq_refl
              one_line_is_constructed Hmax Hfinite one_line_fit_completes)
    as (Hd & Hzero & _).
  cbv zeta. split; [exact Hmax |]. split; [exact Hfinite |].
  split; [exact Hd | exact Hzero].
Defined.

(** C10, as stated, fails: the uncertainty vector is multiplied by the
    maximum of the spectrum in binary64, where 0.0 * inf is nan.  For one
    line and a spectrum with an inf sample, the loop of lines 474-479 turns
    the zeros of [__init__] into nan at the amplitude and at the continuum,
    and leaves the amplitude and the continuum of a solution of ones at
    inf. *)
Lemma C10_counterexample :
  Fit.unscale float64_times float64_inf 1
    (replicate 4 (SpecFloat.S754_finite false 4503599627370496 (-52)))
    (replicate 4 float64_zero)
  = inr ([ float64_inf;
           SpecFloat.S754_finite false 4503599627370496 (-52);
           SpecFloat.S754_finite false 4503599627370496 (-52);
           float64_inf ],
         [ float64_nan; float64_zero; float64_zero; float64_nan ])
  ∧ [ float64_nan; float64_zero; float64_zero; float64_nan ]
    ≠ replicate 4 float64_zero.
Proof. split; [vm_compute; reflexivity | discriminate]. Qed.

(** C8, witness: the record of the same fit. *)
Lemma C8_witness :
  let outcome := fit_outcome (constructed one_line fresh_world) after_one_session in
  dom outcome.1.1 = list_to_set fit_dict_keys
  ∧ outcome.1.1 !! "fit_sol" = Some (VVec (Fit.fit_sol outcome.1.2))
  ∧ outcome.1.1 !! "noise" = None.
Proof.
  destruct (C8_result_record (constructed one_line fresh_world)
              after_one_session _ _ _ one_line_fit_completes)
    as (Hdom & _ & Hsol & _ & _ & _ & Hnoise & _).
  cbv zeta. split; [exact Hdom |]. split; [exact Hsol | exact Hnoise].
Defined.

(** C8, as stated, fails: on the five-sample spectrum the window is the
    index range 1 to 3, the chi-square statistic over it is 13/16 and the
    reduced one 13/48; the record of the completed fit holds 13/48 under
    "chi2", and none of its entries is 13/16 or the noise estimate. *)
Lemma C8_counterexample :
  let outcome := fit_outcome (constructed one_line fresh_world) after_one_session in
  let d := outcome.1.1 in
  let self' := outcome.1.2 in
  Fit.fit (constructed one_line fresh_world) after_one_session
  = (inr (d, self'), outcome.2)
  ∧ Fit.fit_vector self' = Some [qz 1; qz 1; qz 1; qz 1; qz 1]
  ∧ match (Fit.restrict_wavelength self' outcome.2).1 with
    | inr (lo, hi, _) => lo = 1%nat ∧ hi = 4%nat
    | inl _ => False
    end
  ∧ chi_square_spec [qz 1; qz 1; qz 1; qz 1; qz 1] (Fit.spectrum self') 1 4
    = qd 13 16
  ∧ reduced_chi_square_spec (qd 13 16) (Fit.line_num self') = qd 13 48
  ∧ d !! "chi2" = Some (VNum (qd 13 48))
  ∧ map_Forall (λ _ v, v ≠ VNum (qd 13 16)) d
  ∧ map_Forall (λ _ v, v ≠ VNum (Fit.noise self')) d.
Proof.
  cbv zeta. split; [exact one_line_fit_completes |].
  split; [compute_done |]. split; [vm_compute; split; reflexivity |].
  split; [compute_done |]. split; [compute_done |]. split; [compute_done |].
  split; compute_done.
Qed.

(** * Further properties of the session *)

(** ** The process-wide bounds *)

Section Bounds.
Context `{Collaborators}.

(** The index search reads the globals and leaves the process as it is. *)
Lemma window_indices_world (axis : list Qc) (w : world) r w' :
  Fit.window_indices axis w = (r, w') → w' = w.
Proof.
  intros Hrun.
  destruct (window_indices_run axis w)
    as [(_ & Hw) | [(what & _ & _ & Hw)
                   | [(_ & _ & _ & Hw) | (L & U & lo & hi & _ & _ & _ & _ & Hw)]]];
    rewrite Hw in Hrun; by injection Hrun as _ <-.
Qed.

Lemma window_then_world {A} (axis : list Qc) (k : nat * nat → M A) :
  (∀ x w0, (k x w0).2 = w0) →
  ∀ w, ((Fit.window_indices axis ≫= k) w).2 = w.
Proof.
  intros Hk w. unfold mbind, M_bind.
  destruct (Fit.window_indices axis w) as [[e | x] w1] eqn:Hrun;
    apply window_indices_world in Hrun as ->; [done | apply Hk].
Qed.

Lemma assigned_world {A} (L U : Qc) (k : M A) (w : world) :
  (∀ w0, (k w0).2 = w0) →
  ((assign_bounds L U;; k) w).2
  = World (Some L) (Some U) (model w) (stdout w) (closure_cells w) (rng w).
Proof. intros Hk. unfold mbind, M_bind, assign_bounds. apply Hk. Qed.

Lemma printed_world {A} (message : string) (k : M A) (w : world) :
  (∀ w0, (k w0).2 = w0) →
  ((print message;; k) w).2
  = World (bound_lower w) (bound_upper w) (model w) (stdout w ++ [message])
          (closure_cells w) (rng w).
Proof. intros Hk. unfold mbind, M_bind, print. apply Hk. Qed.

(** What the two methods leave in the process for a supported filter,
    whether they return or raise: the bounds of the filter, and nothing
    printed. *)
Lemma restrict_wavelength_world (self : Fit.t) (w : world) :
  Fit.supported (Fit.filter self) (Fit.lines self) →
  (Fit.restrict_wavelength self w).2
  = World (Some (restriction_bounds (Fit.filter self)).1)
          (Some (restriction_bounds (Fit.filter self)).2)
          (model w) (stdout w) (closure_cells w) (rng w).
Proof.
  intros Hsup. unfold Fit.restrict_wavelength.
  assert (Hk : ∀ w0,
    (('(min_, max_) ← Fit.window_indices (Fit.axis self);
      let self := Fit.set_spectrum_restricted
                    (slice (Fit.spectrum_normalized self) min_ max_) self in
      let self := Fit.set_axis_restricted (slice (Fit.axis self) min_ max_) self in
      mret (min_, max_, self)) w0).2 = w0).
  { apply window_then_world. by intros [lo hi] w0. }
  destruct Hsup as [Hf | [Hf | [Hf | [Hf Hl]]]]; rewrite Hf.
  - rewrite decide_True by done. by rewrite assigned_world.
  - rewrite decide_False by done. rewrite decide_True by done.
    by rewrite assigned_world.
  - do 2 rewrite decide_False by done. rewrite decide_True by done.
    by rewrite assigned_world.
  - do 3 rewrite decide_False by done. rewrite decide_True by done.
    by rewrite assigned_world.
Qed.

Lemma calculate_noise_world (self : Fit.t) (w : world) :
  Fit.supported (Fit.filter self) (Fit.lines self) →
  (Fit.calculate_noise self w).2
  = World (Some (noise_bounds (Fit.filter self)).1)
          (Some (noise_bounds (Fit.filter self)).2)
          (model w) (stdout w) (closure_cells w) (rng w).
Proof.
  intros Hsup. unfold Fit.calculate_noise.
  assert (Hk : ∀ w0,
    (('(min_, max_) ← Fit.window_indices (Fit.axis self);
      let spec_noise := slice (Fit.spectrum_clean self) min_ max_ in
      mret (Fit.set_noise (np_nanstd spec_noise) self)) w0).2 = w0).
  { apply window_then_world. by intros [lo hi] w0. }
  destruct Hsup as [Hf | [Hf | [Hf | [Hf Hl]]]]; rewrite Hf.
  - rewrite decide_True by done. by rewrite assigned_world.
  - rewrite decide_False by done. rewrite decide_True by done.
    by rewrite assigned_world.
  - do 2 rewrite decide_False by done. rewrite decide_True by done.
    by rewrite assigned_world.
  - do 3 rewrite decide_False by done. rewrite decide_True by done.
    by rewrite assigned_world.
Qed.

End Bounds.

(** ** Construction, step by step *)

Section ConstructionSteps.
Context `{Collaborators}.

(** The first stage of [__init__] leaves the process as it is and returns a
    session that holds the request, zero solution and uncertainty vectors,
    and the spectrum divided by its maximum. *)
Lemma init_spectra_inv (a : Fit.args) (w : world) self w0 :
  Fit.init_spectra a w = (inr self, w0) →
  w0 = w
  ∧ Fit.request self
    = (Fit.the_line_dict, Fit.the_available_functions, Fit.arg_model_type a,
       Fit.arg_lines a, length (Fit.arg_lines a), Fit.arg_vel_rel a,
       Fit.arg_sigma_rel a, (Fit.arg_filter a, Fit.arg_axis a),
       (Fit.arg_bayes_bool a, Fit.arg_uncertainty_bool a, Fit.arg_mdn a))
  ∧ Fit.fit_sol self = np_zeros (3 * length (Fit.arg_lines a) + 1)
  ∧ Fit.uncertainties self = np_zeros (3 * length (Fit.arg_lines a) + 1)
  ∧ ∃ scale, np_max (Fit.spectrum self) = inr scale
             ∧ Fit.spectrum_normalized self
               = (λ v, v / scale) <$> Fit.spectrum self.
Proof.
  unfold Fit.init_spectra. intros Hrun.
  apply bind_ok in Hrun as (scale0 & w1 & Hs0 & Hrun).
  apply lift_ok in Hs0 as [_ ->].
  apply bind_ok in Hrun as (self1 & w2 & Htrans & Hrun).
  apply bind_ok in Hrun as (scale1 & w3 & Hs1 & Hrun).
  apply lift_ok in Hs1 as [Hs1 ->].
  apply ret_ok in Hrun as [<- ->].
  cbv beta iota zeta in Htrans.
  destruct (Fit.is_none _).
  - apply ret_ok in Htrans as [<- ->]. repeat split; try done. by exists scale1.
  - apply lift_ok in Htrans as [Htrans ->].
    apply apply_transmission_inv in Htrans as (corrected & ->).
    repeat split; try done. by exists scale1.
Qed.

(** The stages of a construction that returned. *)
Lemma init_stages (a : Fit.args) (w : world) self w1 :
  Fit.__init__ a w = (inr self, w1) →
  ∃ self0 lo hi self1 w2 scale level,
    Fit.init_spectra a w = (inr self0, w)
    ∧ Fit.restrict_wavelength self0 w = (inr (lo, hi, self1), w2)
    ∧ np_max (slice (Fit.spectrum_normalized self0) lo hi) = inr scale
    ∧ Fit.calculate_noise
        (Fit.calculate_correction
           (Fit.set_spectrum_restricted_norm
              ((λ v, v / scale) <$> Fit.spectrum_restricted self1) self1)) w2
      = (inr (Fit.set_noise level
                (Fit.calculate_correction
                   (Fit.set_spectrum_restricted_norm
                      ((λ v, v / scale) <$> Fit.spectrum_restricted self1) self1))),
         w1)
    ∧ self = Fit.calc_sinc_width
               (Fit.set_noise level
                  (Fit.calculate_correction
                     (Fit.set_spectrum_restricted_norm
                        ((λ v, v / scale) <$> Fit.spectrum_restricted self1)
                        self1)))
    ∧ Fit.check_lines self = inr ()
    ∧ Fit.check_fitting_model self = inr ()
    ∧ Fit.check_lengths self = inr ().
Proof.
  unfold Fit.__init__. intros Hrun.
  apply bind_ok in Hrun as (self' & w0 & Hpre & Hrun).
  apply bind_ok in Hrun as ([] & w3 & Hc1 & Hrun).
  apply bind_ok in Hrun as ([] & w4 & Hc2 & Hrun).
  apply bind_ok in Hrun as ([] & w5 & Hc3 & Hrun).
  apply lift_ok in Hc1 as [Hc1 ->]. apply lift_ok in Hc2 as [Hc2 ->].
  apply lift_ok in Hc3 as [Hc3 ->]. apply ret_ok in Hrun as [-> ->].
  unfold Fit.init_preprocess in Hpre.
  apply bind_ok in Hpre as (self0 & w6 & Hspectra & Hpre).
  pose proof (init_spectra_inv _ _ _ _ Hspectra) as [-> _].
  apply bind_ok in Hpre as ([[lo hi] self1] & w2 & Hwindow & Hpre).
  apply bind_ok in Hpre as (scale & w7 & Hscale & Hpre).
  apply lift_ok in Hscale as [Hscale ->].
  apply bind_ok in Hpre as (self3 & w8 & Hnoise & Hpre).
  apply ret_ok in Hpre as [<- ->].
  pose proof (calculate_noise_inv _ _ _ _ Hnoise) as (level & ->).
  pose proof (restrict_wavelength_inv _ _ _ _ _ _ Hwindow) as Hself1.
  exists self0, lo, hi, self1, w2, scale, level.
  repeat split; try done.
  by rewrite Hself1 in Hscale.
Qed.

End ConstructionSteps.

(** ** Normalization *)

Section Normalization.
Context `{Collaborators}.

(** [np.max] on a non-empty array: an element of the array that no element
    exceeds. *)
Lemma np_max_spec (l : list Qc) (m : Qc) :
  np_max l = inr m → m ∈ l ∧ Forall (λ v, v <= m) l.
Proof.
  destruct l as [| x l]; [done |]. simpl. intros [= <-].
  assert (Hgen : ∀ (pre : list Qc) (best : Qc),
    best ∈ pre → Forall (λ v, v <= best) pre →
    foldl (λ m x, if decide (m < x) then x else m) best l ∈ pre ++ l
    ∧ Forall (λ v, v <= foldl (λ m x, if decide (m < x) then x else m) best l)
             (pre ++ l)).
  { induction l as [| y l IH]; intros pre best Hin Hall; simpl.
    - by rewrite app_nil_r.
    - replace (pre ++ y :: l) with ((pre ++ (y :: nil)) ++ l) by (by rewrite <- app_assoc).
      apply IH.
      + apply elem_of_app.
        case_decide; [right; by apply list_elem_of_singleton | by left].
      + apply Forall_app. split.
        * case_decide as Hlt; [| done].
          eapply Forall_impl; [exact Hall |]. intros v Hv. simpl in Hv.
          apply Qclt_le_weak. eapply Qcle_lt_trans; [exact Hv | exact Hlt].
        * apply Forall_singleton. case_decide as Hlt; [apply Qcle_refl |].
          by apply Qcnot_lt_le. }
  apply (Hgen (x :: nil) x); [by apply list_elem_of_singleton |].
  apply Forall_singleton, Qcle_refl.
Qed.

Lemma Qcdiv_le_1 (v m : Qc) : Q2Qc 0 < m → v <= m → v / m <= 1.
Proof.
  intros Hpos Hle.
  apply (Qcmult_lt_0_le_reg_r _ _ m Hpos).
  rewrite Qcmult_1_l.
  replace (v / m * m) with v; [done |].
  symmetry. apply test_field. intros ->. by apply Qclt_not_eq in Hpos.
Qed.

Lemma Qcdiv_same (m : Qc) : Q2Qc 0 < m → m / m = 1.
Proof.
  intros Hpos. unfold Qcdiv. apply Qcmult_inv_r.
  intros ->. by apply Qclt_not_eq in Hpos.
Qed.

(** X1.  When the first stage of the construction has run on a spectrum
    whose largest sample is positive and finite, no sample of the normalized
    spectrum exceeds 1 and some sample is 1. *)
Theorem normalized_spectrum_peaks_at_one (a : Fit.args) (w : world) self w0 scale :
  Fit.init_spectra a w = (inr self, w0) →
  np_max (Fit.spectrum self) = inr scale →
  Q2Qc 0 < scale →
  binary64 scale →
  length (Fit.spectrum_normalized self) = length (Fit.spectrum self)
  ∧ Forall (λ v, v <= 1) (Fit.spectrum_normalized self)
  ∧ 1 ∈ Fit.spectrum_normalized self.
Proof.
  intros Hrun Hmax Hpos _.
  apply init_spectra_inv in Hrun as (_ & _ & _ & _ & scale' & Hmax' & ->).
  rewrite Hmax in Hmax'. injection Hmax' as <-.
  apply np_max_spec in Hmax as [Hin Hall].
  split; [by rewrite length_fmap |]. split.
  - apply Forall_fmap. eapply Forall_impl; [exact Hall |].
    intros v Hv. by apply Qcdiv_le_1.
  - apply list_elem_of_fmap. exists scale. split; [| done].
    symmetry. by apply Qcdiv_same.
Qed.

End Normalization.

(** X1, witness: the five-sample spectrum, whose largest sample is 4. *)
Lemma normalized_spectrum_peaks_at_one_witness :
  Forall (λ v, v <= 1) (Fit.spectrum_normalized (at_restriction one_line fresh_world))
  ∧ 1 ∈ Fit.spectrum_normalized (at_restriction one_line fresh_world).
Proof.
  assert (Hok : is_ok (Fit.init_spectra one_line fresh_world).1 = true)
    by (vm_compute; reflexivity).
  assert (Hrun : Fit.init_spectra one_line fresh_world
                 = (inr (at_restriction one_line fresh_world),
                    (Fit.init_spectra one_line fresh_world).2)).
  { unfold at_restriction.
    destruct (Fit.init_spectra one_line fresh_world) as [[e | s] w];
      [discriminate Hok | reflexivity]. }
  destruct (normalized_spectrum_peaks_at_one one_line fresh_world _ _ (qz 4) Hrun)
    as (_ & Hall & Hone).
  - vm_compute. reflexivity.
  - reflexivity.
  - by apply (binary64_integer 4).
  - split; [exact Hall | exact Hone].
Defined.

(** ** What a construction establishes, leaves behind, and fails on *)

Section ConstructionOutcome.
Context `{Collaborators}.

(** X2.  A session that [__init__] returns is well formed: its lines are
    in the catalog, its model type is one of the three available, its two
    group lists have one entry per line, [line_num] is the number of lines,
    and the solution and uncertainty vectors are zero vectors of length
    3 * line_num + 1. *)
Theorem constructed_session_is_well_formed (a : Fit.args) (w : world) self w1 :
  Fit.__init__ a w = (inr self, w1) →
  Fit.lines self = Fit.arg_lines a
  ∧ Forall (λ l, l ∈ Fit.the_line_dict.*1) (Fit.lines self)
  ∧ Fit.model_type self ∈ Fit.the_available_functions
  ∧ Fit.line_num self = length (Fit.lines self)
  ∧ length (Fit.vel_rel self) = Fit.line_num self
  ∧ length (Fit.sigma_rel self) = Fit.line_num self
  ∧ Fit.fit_sol self = np_zeros (3 * Fit.line_num self + 1)
  ∧ Fit.uncertainties self = np_zeros (3 * Fit.line_num self + 1).
Proof.
  intros Hrun.
  apply init_stages in Hrun
    as (self0 & lo & hi & self1 & w2 & scale & level
        & Hspectra & Hwindow & _ & _ & -> & Hc1 & Hc2 & Hc3).
  apply init_spectra_inv in Hspectra as (_ & Hreq & Hsol & Hunc & _).
  apply restrict_wavelength_inv in Hwindow as ->.
  unfold Fit.request in Hreq.
  injection Hreq as Hdict Hfuns Hmodel Hlines Hnum Hvel Hsigma _ _ _ _ _.
  unfold Fit.check_lines in Hc1. unfold Fit.check_fitting_model in Hc2.
  unfold Fit.check_lengths in Hc3.
  cbn in Hc1, Hc2, Hc3 |- *.
  rewrite Hdict in Hc1. rewrite Hfuns in Hc2.
  destruct (decide (Forall _ _)) as [Hknown |]; [| done].
  destruct (decide (_ ∈ _)) as [Hmod |]; [| done].
  destruct (decide (length (Fit.vel_rel self0) ≠ _)) as [| Hv%dec_stable]; [done |].
  destruct (decide (length (Fit.sigma_rel self0) ≠ _)) as [| Hs%dec_stable]; [done |].
  rewrite Hnum, Hsol, Hunc, Hlines in *. done.
Qed.

(** X3.  With a supported filter, a construction that returns leaves the
    noise window of its filter in the process-wide bounds, and nothing else
    of the process is changed. *)
Theorem construction_leaves_the_noise_bounds (a : Fit.args) (w : world) self w1 :
  Fit.__init__ a w = (inr self, w1) →
  Fit.supported (Fit.arg_filter a) (Fit.arg_lines a) →
  w1 = World (Some (noise_bounds (Fit.arg_filter a)).1)
             (Some (noise_bounds (Fit.arg_filter a)).2)
             (model w) (stdout w) (closure_cells w) (rng w).
Proof.
  intros Hrun Hsup.
  apply init_stages in Hrun
    as (self0 & lo & hi & self1 & w2 & scale & level
        & Hspectra & Hwindow & _ & Hnoise & _).
  apply init_spectra_inv in Hspectra as (_ & Hreq & _).
  unfold Fit.request in Hreq.
  injection Hreq as _ _ _ Hlines _ _ _ Hfilter _ _ _ _.
  pose proof (restrict_wavelength_world self0 w) as Hw2.
  rewrite Hwindow, Hfilter, Hlines in Hw2. specialize (Hw2 Hsup). simpl in Hw2.
  pose proof (restrict_wavelength_inv _ _ _ _ _ _ Hwindow) as ->.
  match type of Hnoise with
  | Fit.calculate_noise ?s _ = _ => pose proof (calculate_noise_world s w2) as Hw1
  end.
  rewrite Hnoise in Hw1. cbn in Hw1. rewrite Hfilter, Hlines in Hw1.
  specialize (Hw1 Hsup). rewrite Hw1, Hw2. done.
Qed.

(** X4.  With a filter that has no window, in a process where no bounds
    have been stored, a construction whose first stage runs prints the
    message and raises [NameError] for [bound_lower]: no session is
    returned. *)
Theorem unsupported_filter_in_a_fresh_process (a : Fit.args) (w : world) self0 w0 :
  ¬ Fit.supported (Fit.arg_filter a) (Fit.arg_lines a) →
  bound_lower w = None →
  Fit.init_spectra a w = (inr self0, w0) →
  Fit.__init__ a w
  = (inl (NameError "bound_lower"),
     World None (bound_upper w) (model w)
           (stdout w ++ [unsupported_filter_message]) (closure_cells w) (rng w)).
Proof.
  intros Hun Hfresh Hspectra.
  pose proof (init_spectra_inv _ _ _ _ Hspectra) as (-> & Hreq & _).
  unfold Fit.request in Hreq.
  injection Hreq as _ _ _ Hlines _ _ _ Hfilter _ _ _ _.
  assert (Hrw : Fit.restrict_wavelength self0 w
                = (inl (NameError "bound_lower"),
                   World None (bound_upper w) (model w)
                         (stdout w ++ [unsupported_filter_message])
                         (closure_cells w) (rng w))).
  { rewrite restrict_wavelength_unsupported by (by rewrite Hfilter, Hlines).
    rewrite Hfresh.
    destruct (window_indices_run (Fit.axis self0)
                (World None (bound_upper w) (model w)
                       (stdout w ++ [unsupported_filter_message])
                       (closure_cells w) (rng w)))
      as [(_ & Hw) | [(what & [? Hs] & _) | [([? Hs] & _) | (L & ? & ? & ? & Hs & _)]]];
      try done; try (by rewrite (bind_fail _ _ _ _ _ Hw)). }
  assert (Hpre : Fit.init_preprocess a w
                 = (inl (NameError "bound_lower"),
                    World None (bound_upper w) (model w)
                          (stdout w ++ [unsupported_filter_message])
                          (closure_cells w) (rng w))).
  { unfold Fit.init_preprocess. rewrite (bind_run _ _ _ _ _ Hspectra).
    by rewrite (bind_fail _ _ _ _ _ Hrw). }
  unfold Fit.__init__. by rewrite (bind_fail _ _ _ _ _ Hpre).
Qed.

(** X5.  When the wavelength restriction returns an empty index range
    during a construction, the construction raises [ValueError] (the maximum
    of an empty restricted spectrum): an empty window is not reported as
    such. *)
Theorem empty_window_fails_the_construction
    (a : Fit.args) (w : world) self0 w0 lo hi self1 w2 :
  Fit.init_spectra a w = (inr self0, w0) →
  Fit.restrict_wavelength self0 w0 = (inr (lo, hi, self1), w2) →
  (hi ≤ lo)%nat →
  ∃ what, Fit.__init__ a w = (inl (ValueError what), w2).
Proof.
  intros Hspectra Hwindow Hempty.
  pose proof (restrict_wavelength_inv _ _ _ _ _ _ Hwindow) as Hself1.
  assert (Hnil : Fit.spectrum_restricted self1 = []).
  { rewrite Hself1. cbn. unfold slice.
    replace (hi - lo)%nat with 0%nat by lia. done. }
  assert (Hpre : ∃ what, Fit.init_preprocess a w = (inl (ValueError what), w2)).
  { eexists. unfold Fit.init_preprocess.
    rewrite (bind_run _ _ _ _ _ Hspectra).
    rewrite (bind_run _ _ _ _ _ Hwindow). cbv beta iota.
    rewrite Hnil. reflexivity. }
  destruct Hpre as (what & Hpre). exists what.
  unfold Fit.__init__. by rewrite (bind_fail _ _ _ _ _ Hpre).
Qed.

End ConstructionOutcome.

(** ** Runs of the worked examples *)

Section Runs.

Lemma at_restriction_run (a : Fit.args) (w : world) :
  is_ok (Fit.init_spectra a w).1 = true →
  Fit.init_spectra a w = (inr (at_restriction a w), (Fit.init_spectra a w).2).
Proof.
  unfold at_restriction.
  by destruct (Fit.init_spectra a w) as [[e | s] w0].
Qed.

Lemma constructed_run (a : Fit.args) (w : world) :
  is_ok (Fit.__init__ a w).1 = true →
  Fit.__init__ a w = (inr (constructed a w), (Fit.__init__ a w).2).
Proof.
  unfold constructed.
  by destruct (Fit.__init__ a w) as [[e | s] w0].
Qed.

Lemma fit_outcome_run (self : Fit.t) (w : world) :
  is_ok (Fit.fit self w).1 = true →
  Fit.fit self w
  = (inr ((fit_outcome self w).1.1, (fit_outcome self w).1.2),
     (fit_outcome self w).2).
Proof.
  unfold fit_outcome.
  by destruct (Fit.fit self w) as [[e | [d s]] w0].
Qed.

End Runs.

(** X2, witness: the H-alpha session. *)
Lemma constructed_session_is_well_formed_witness :
  Fit.lines (constructed one_line fresh_world) = ("Halpha" :: nil)%list
  ∧ Fit.model_type (constructed one_line fresh_world) ∈ Fit.the_available_functions
  ∧ Fit.uncertainties (constructed one_line fresh_world)
    = np_zeros (3 * Fit.line_num (constructed one_line fresh_world) + 1).
Proof.
  destruct (constructed_session_is_well_formed one_line fresh_world _ _
              (constructed_run one_line fresh_world
                 ltac:(vm_compute; reflexivity)))
    as (Hlines & _ & Hmodel & _ & _ & _ & _ & Hunc).
  split; [exact Hlines |]. split; [exact Hmodel | exact Hunc].
Defined.

(** X3, witness: after the construction of the H-alpha session with the
    filter SN3 the bounds are 14300 and 14500. *)
Lemma construction_leaves_the_noise_bounds_witness :
  (Fit.__init__ one_line fresh_world).2
  = World (Some (qz 14300)) (Some (qz 14500)) None nil nil 0.
Proof.
  apply (construction_leaves_the_noise_bounds one_line fresh_world _ _
           (constructed_run one_line fresh_world ltac:(vm_compute; reflexivity))).
  compute_done.
Defined.

(** X4, witness: the filter "SN4" in a fresh process. *)
Lemma unsupported_filter_in_a_fresh_process_witness :
  Fit.__init__ unsupported_filter fresh_world
  = (inl (NameError "bound_lower"),
     World None None None (unsupported_filter_message :: nil)%list nil 0).
Proof.
  apply (unsupported_filter_in_a_fresh_process unsupported_filter fresh_world
           _ _ ltac:(compute_done) eq_refl
           (at_restriction_run unsupported_filter fresh_world
              ltac:(vm_compute; reflexivity))).
Defined.

(** X5, witness: the axis of two samples below the SN3 window. *)
Lemma empty_window_fails_the_construction_witness :
  ∃ what w2, Fit.__init__ narrow_axis fresh_world = (inl (ValueError what), w2).
Proof.
  pose proof (at_restriction_run narrow_axis fresh_world
                ltac:(vm_compute; reflexivity)) as Hspectra.
  assert (Hidx : match (Fit.restrict_wavelength
                          (at_restriction narrow_axis fresh_world)
                          (Fit.init_spectra narrow_axis fresh_world).2).1 with
                 | inr (lo, hi, _) => (hi ≤ lo)%nat
                 | inl _ => False
                 end) by (vm_compute; constructor).
  destruct (Fit.restrict_wavelength (at_restriction narrow_axis fresh_world)
              (Fit.init_spectra narrow_axis fresh_world).2)
    as [[e | [[lo hi] self1]] w2] eqn:Hwindow; [done |].
  destruct (empty_window_fails_the_construction narrow_axis fresh_world
              _ _ lo hi self1 w2 Hspectra Hwindow Hidx) as (what & Hrun).
  by exists what, w2.
Defined.

(** ** The width constraints, in general *)

Section WidthGroups.

(** [np.unique] keeps the values of its argument, each once, in ascending
    order. *)
Lemma elem_of_insert_unique {A} `{EqDecision A} (leb : A → A → bool) a l x :
  x ∈ insert_unique leb a l ↔ x = a ∨ x ∈ l.
Proof.
  induction l as [| b l IH]; simpl.
  - rewrite list_elem_of_singleton, elem_of_nil. tauto.
  - case_decide as Hab.
    + subst b. rewrite elem_of_cons. tauto.
    + destruct (leb a b).
      * rewrite elem_of_cons. tauto.
      * rewrite !elem_of_cons, IH. tauto.
Qed.

Lemma elem_of_np_unique {A} `{EqDecision A} (leb : A → A → bool) l x :
  x ∈ np_unique leb l ↔ x ∈ l.
Proof.
  induction l as [| a l IH]; simpl; [done |].
  rewrite elem_of_insert_unique, elem_of_cons, IH. done.
Qed.

Lemma insert_unique_sorted (a : Z) (l : list Z) :
  StronglySorted Z.lt l → StronglySorted Z.lt (insert_unique Z.leb a l).
Proof.
  induction 1 as [| b l Hsorted IH Hall]; simpl.
  - repeat constructor.
  - case_decide as Hab; [by constructor |].
    destruct (Z.leb a b) eqn:Hle.
    + apply Z.leb_le in Hle. constructor; [by constructor |].
      constructor; [lia |].
      eapply Forall_impl; [exact Hall |]. simpl. intros; lia.
    + apply Z.leb_gt in Hle. constructor; [exact IH |].
      apply Forall_forall. intros x Hx.
      apply elem_of_insert_unique in Hx as [-> | Hx]; [done |].
      by eapply Forall_forall in Hall.
Qed.

Lemma np_unique_sorted (l : list Z) : StronglySorted Z.lt (np_unique Z.leb l).
Proof.
  induction l as [| a l IH]; simpl; [constructor |].
  by apply insert_unique_sorted.
Qed.

Lemma sorted_lt_NoDup (l : list Z) : StronglySorted Z.lt l → NoDup l.
Proof.
  induction 1 as [| b l Hsorted IH Hall]; constructor; [| done].
  intros Hin. eapply Forall_forall in Hall; [| exact Hin]. lia.
Qed.

(** The members of a group, one position further when an entry is put in
    front. *)
Lemma inds_shift {A} `{EqDecision A} (l : list A) (u : A) (f g : nat → nat) :
  (∀ i, g i = S (f i)) →
  (filter (λ p, p.2 = u) (imap (λ i x, (g i, x)) l)).*1
  = S <$> (filter (λ p, p.2 = u) (imap (λ i x, (f i, x)) l)).*1.
Proof.
  revert f g. induction l as [| x l IH]; intros f g Hfg; [done |].
  pose proof (IH (λ i, f (S i)) (λ i, g (S i)) (λ i, Hfg (S i))) as IH'.
  cbn [imap]. unfold compose. rewrite !filter_cons. cbn [snd].
  case_decide; cbn [fmap list_fmap fst]; rewrite IH'; [by rewrite Hfg | done].
Qed.

Lemma inds_of_cons {A} `{EqDecision A} (x : A) (l : list A) (u : A) :
  inds_of (x :: l) u
  = (if decide (x = u) then [0%nat] else []) ++ (S <$> inds_of l u).
Proof.
  unfold inds_of. simpl. rewrite filter_cons. simpl.
  rewrite <- (inds_shift l u id S) by done.
  by case_decide.
Qed.

Lemma elem_of_inds_of {A} `{EqDecision A} (l : list A) (u : A) (i : nat) :
  i ∈ inds_of l u ↔ l !! i = Some u.
Proof.
  revert i. induction l as [| x l IH]; intros i.
  - unfold inds_of. simpl. rewrite elem_of_nil. done.
  - rewrite inds_of_cons, elem_of_app, list_elem_of_fmap.
    destruct i as [| i]; simpl.
    + split.
      * intros [Hhead | (j & Hj & _)]; [| done].
        case_decide; [by subst | by apply elem_of_nil in Hhead].
      * intros [= ->]. left. rewrite decide_True by done.
        by apply list_elem_of_singleton.
    + rewrite <- IH. split.
      * intros [Hhead | (j & [= ->] & Hj)]; [| done].
        case_decide; [by apply list_elem_of_singleton in Hhead
                     | by apply elem_of_nil in Hhead].
      * intros Hi. right. by exists i.
Qed.

Lemma inds_of_sorted {A} `{EqDecision A} (l : list A) (u : A) :
  StronglySorted lt (inds_of l u).
Proof.
  induction l as [| x l IH]; [constructor |].
  rewrite inds_of_cons.
  assert (StronglySorted lt (S <$> inds_of l u)) as Htail.
  { induction IH as [| i t _ IHt Hall]; simpl; constructor; [done |].
    apply Forall_fmap. eapply Forall_impl; [exact Hall |]. simpl. intros; lia. }
  case_decide; [| done]. simpl. constructor; [done |].
  apply Forall_fmap, Forall_forall. simpl. intros; lia.
Qed.

Lemma inds_of_length {A} `{EqDecision A} (l : list A) (u : A) :
  length (inds_of l u) = length (filter (λ e, e = u) l).
Proof.
  induction l as [| x l IH]; [done |].
  rewrite inds_of_cons, length_app, length_fmap, IH, filter_cons.
  by case_decide.
Qed.

(** The groups partition the positions. *)
Lemma sum_list_indicator {A} `{EqDecision A} (groups : list A) (x : A) :
  NoDup groups → x ∈ groups →
  sum_list ((λ u, if decide (x = u) then 1 else 0)%nat <$> groups) = 1%nat.
Proof.
  induction 1 as [| u groups Hu Hnd IH]; intros Hx;
    [by apply elem_of_nil in Hx |].
  rewrite fmap_cons. cbn [sum_list_with id].
  apply elem_of_cons in Hx as [-> | Hx].
  - rewrite decide_True by done.
    replace (sum_list _) with 0%nat; [done |].
    clear IH Hnd. induction groups as [| v groups IHg]; [done |].
    apply not_elem_of_cons in Hu as [Hne Hu].
    rewrite fmap_cons. cbn [sum_list_with id].
    rewrite decide_False by done. by rewrite <- IHg.
  - rewrite decide_False by (intros ->; done). by rewrite IH.
Qed.

Lemma group_sizes_cons {A} `{EqDecision A} (groups l : list A) (x : A) :
  sum_list ((λ u, length (filter (λ e, e = u) (x :: l))) <$> groups)
  = (sum_list ((λ u, if decide (x = u) then 1 else 0)%nat <$> groups)
     + sum_list ((λ u, length (filter (λ e, e = u) l)) <$> groups))%nat.
Proof.
  induction groups as [| u groups IH]; [done |].
  rewrite !fmap_cons. cbn [sum_list_with id]. rewrite IH, filter_cons.
  case_decide; simpl; lia.
Qed.

Lemma group_sizes_sum {A} `{EqDecision A} (groups l : list A) :
  NoDup groups → (∀ x, x ∈ l → x ∈ groups) →
  sum_list ((λ u, length (filter (λ e, e = u) l)) <$> groups) = length l.
Proof.
  intros Hnd. induction l as [| x l IH]; intros Hsub.
  - clear Hnd Hsub. induction groups as [| u groups IHg]; [done | exact IHg].
  - rewrite group_sizes_cons, sum_list_indicator; [| done | apply Hsub; left].
    rewrite IH; [done |]. intros y Hy. apply Hsub. by right.
Qed.

Lemma sum_list_pred (sizes : list nat) :
  Forall (λ n, 1 ≤ n)%nat sizes →
  (sum_list ((λ n, n - 1)%nat <$> sizes) + length sizes = sum_list sizes)%nat.
Proof.
  induction 1 as [| n sizes Hn _ IH]; [done |].
  rewrite fmap_cons. cbn [sum_list_with id length] in *. lia.
Qed.

(** The cells of the call, group by group. *)
Lemma assign_ind_0_last (h : heap) (fr : frame) (v : nat) :
  assign_ind_0 (length h) v (h ++ [fr]) = h ++ [Frame (Some v) (ind_unique fr)].
Proof.
  unfold assign_ind_0.
  rewrite <- (Nat.add_0_r (length h)) at 1. by rewrite alter_app_r.
Qed.

Lemma assign_ind_unique_last (h : heap) (fr : frame) (v : nat) :
  assign_ind_unique (length h) v (h ++ [fr]) = h ++ [Frame (ind_0 fr) (Some v)].
Proof.
  unfold assign_ind_unique.
  rewrite <- (Nat.add_0_r (length h)) at 1. by rewrite alter_app_r.
Qed.

Lemma sigma_inner_cells (h : heap) rest cs o1 o2 :
  (foldl (λ st ind, (st.1 ++ [sigma_entry (length h)],
                     assign_ind_unique (length h) ind st.2))
         (cs, h ++ [Frame o1 o2]) rest).2
  = h ++ [Frame o1 (match last rest with Some i => Some i | None => o2 end)].
Proof.
  revert cs o2. induction rest as [| i rest IH]; intros cs o2; [done |].
  simpl foldl. rewrite assign_ind_unique_last. simpl ind_0.
  rewrite IH, last_cons. by destruct (last rest).
Qed.

Lemma sigma_group_cells (h : heap) inds cs fr :
  (sigma_group (length h) inds (cs, h ++ [fr])).2
  = h ++ [if decide (1 < length inds)%nat
          then Frame (head inds) (last inds) else fr].
Proof.
  unfold sigma_group. case_decide as Hlen; [| done].
  destruct inds as [| i0 [| i1 rest]]; [simpl in Hlen; lia.. |].
  cbn [fst snd]. rewrite assign_ind_0_last.
  rewrite sigma_inner_cells. simpl head. rewrite (last_cons i0).
  rewrite (last_cons i1). by destruct (last rest).
Qed.

Lemma sigma_loop_cells (h : heap) (rel : list Z) groups cs fr :
  ∃ fr',
    (foldl (λ st unique_, sigma_group (length h) (inds_of rel unique_) st)
           (cs, h ++ [fr]) groups).2 = h ++ [fr']
    ∧ ((fr' = fr ∧ Forall (λ u, ¬ (1 < length (inds_of rel u))%nat) groups)
       ∨ ∃ pre u post,
           groups = pre ++ u :: post
           ∧ (1 < length (inds_of rel u))%nat
           ∧ Forall (λ v, ¬ (1 < length (inds_of rel v))%nat) post
           ∧ fr' = Frame (head (inds_of rel u)) (last (inds_of rel u))).
Proof.
  revert cs fr. induction groups as [| u groups IH]; intros cs fr.
  - exists fr. split; [done |]. left. by split.
  - simpl foldl.
    destruct (sigma_group_spec (length h) (inds_of rel u) cs (h ++ [fr]))
      as (h1 & Hstep & _).
    pose proof (sigma_group_cells h (inds_of rel u) cs fr) as Hcells.
    rewrite Hstep in Hcells. simpl in Hcells. subst h1. rewrite Hstep.
    destruct (IH (cs ++ replicate (length (inds_of rel u) - 1)
                                  (sigma_entry (length h)))
                 (if decide (1 < length (inds_of rel u))%nat
                  then Frame (head (inds_of rel u)) (last (inds_of rel u))
                  else fr))
      as (fr' & Hrun & Hcase).
    exists fr'. split; [exact Hrun |].
    destruct Hcase as [[-> Hnone] | (pre & v & post & -> & Hv & Hpost & ->)].
    + case_decide as Hu.
      * right. exists [], u, groups. done.
      * left. split; [done |]. by constructor.
    + right. exists (u :: pre), v, post. done.
Qed.

Lemma untied_groups_sum (rel : list Z) (groups : list Z) :
  Forall (λ u, ¬ (1 < length (inds_of rel u))%nat) groups →
  sum_list ((λ u, length (inds_of rel u) - 1)%nat <$> groups) = 0%nat.
Proof.
  induction 1 as [| v vs Hv _ IH]; [done |].
  rewrite fmap_cons. cbn [sum_list_with id] in *. rewrite IH. lia.
Qed.

End WidthGroups.

(** X6.  With group labels that are 64-bit integers, [sigma_constraints]
    returns one constraint for every line beyond the first of its width
    group: as many as there are lines, less the number of distinct group
    labels. *)
Theorem sigma_constraints_one_per_extra_member (rel : list Z) (h : heap) :
  Forall (λ u, - 2 ^ 63 ≤ u < 2 ^ 63)%Z rel →
  (length (sigma_constraints_body rel h).1 + length (np_unique Z.leb rel)
   = length rel)%nat
  ∧ NoDup (np_unique Z.leb rel)
  ∧ ∀ u, u ∈ np_unique Z.leb rel ↔ u ∈ rel.
Proof.
  intros _.
  split; [| split; [apply sorted_lt_NoDup, np_unique_sorted
                   | intros u; apply elem_of_np_unique]].
  rewrite sigma_constraints_count.
  pose proof (sum_list_pred ((λ u, length (inds_of rel u)) <$> np_unique Z.leb rel))
    as Hpred.
  rewrite <- list_fmap_compose, length_fmap in Hpred. unfold compose in Hpred.
  rewrite Hpred.
  - rewrite <- (group_sizes_sum (np_unique Z.leb rel) rel).
    + f_equal. apply list_fmap_ext. intros _ u _. apply inds_of_length.
    + apply sorted_lt_NoDup, np_unique_sorted.
    + intros x. apply elem_of_np_unique.
  - apply Forall_fmap, Forall_forall. intros u Hu. simpl.
    apply elem_of_np_unique, list_elem_of_lookup in Hu as [i Hi].
    apply elem_of_inds_of in Hi.
    destruct (inds_of rel u); [by apply elem_of_nil in Hi | simpl; lia].
Qed.

(** X6, witness: three lines, the first and the last in one group. *)
Lemma sigma_constraints_one_per_extra_member_witness :
  (length (sigma_constraints_body (1 :: 2 :: 1 :: nil)%Z nil).1
   + length (np_unique Z.leb (1 :: 2 :: 1 :: nil)%Z) = 3)%nat.
Proof.
  apply (sigma_constraints_one_per_extra_member (1 :: 2 :: 1 :: nil)%Z nil).
  repeat (constructor; [lia |]). constructor.
Defined.

(** X7.  When [sigma_constraints] returns any constraint at all, every one
    of them computes the same difference when the solver calls it: the width
    of the first line less the width of the last line of one group, the one
    with the largest label among the groups of two lines or more (labels
    being 64-bit integers).  The cells keep these two positions for as long
    as later calls only add cells of their own. *)
Theorem sigma_constraints_tie_one_pair (rel : list Z) (h : heap) :
  Forall (λ u, - 2 ^ 63 ≤ u < 2 ^ 63)%Z rel →
  (sigma_constraints_body rel h).1 ≠ [] →
  ∃ u i0 iu,
    rel !! i0 = Some u ∧ rel !! iu = Some u ∧ (i0 < iu)%nat
    ∧ (∀ j, rel !! j = Some u → (i0 ≤ j ≤ iu)%nat)
    ∧ (∀ v j1 j2, rel !! j1 = Some v → rel !! j2 = Some v → j1 ≠ j2 → (v ≤ u)%Z)
    ∧ ∀ c x later,
        c ∈ (sigma_constraints_body rel h).1 →
        call_constraint ((sigma_constraints_body rel h).2 ++ later) c x
        = (a ← getitem x (3 * i0 + 2); b ← getitem x (3 * iu + 2); mret (a - b)).
Proof.
  intros _ Hsome.
  pose proof (sigma_constraints_body_spec rel h) as Hcs.
  unfold sigma_constraints_body in *. cbv zeta in *.
  destruct (sigma_loop_cells h rel (np_unique Z.leb rel) [] (Frame None None))
    as (fr' & Hcells & Hcase).
  destruct Hcase as [[_ Hnone] | (pre & u & post & Hgroups & Hu & Hpost & ->)].
  { exfalso. apply Hsome. rewrite Hcs.
    by rewrite (untied_groups_sum rel _ Hnone). }
  pose proof (inds_of_sorted rel u) as Hsorted.
  destruct (inds_of rel u) as [| i0 inds] eqn:Hinds; [simpl in Hu; lia |].
  destruct (last (i0 :: inds)) as [iu |] eqn:Hlast;
    [| by apply last_None in Hlast].
  assert (i0 ∈ inds_of rel u) as Hi0 by (rewrite Hinds; left).
  assert (iu ∈ inds_of rel u) as Hiu.
  { rewrite Hinds. apply last_Some in Hlast as (front & ->).
    apply elem_of_app. right. left. }
  assert (∀ j, j ∈ i0 :: inds → (i0 ≤ j ≤ iu)%nat) as Hrange.
  { intros j Hj. split.
    - apply elem_of_cons in Hj as [-> | Hj]; [done |].
      apply StronglySorted_inv in Hsorted as [_ Hall].
      eapply Forall_forall in Hall; [| exact Hj]. lia.
    - apply last_Some in Hlast as (front & Hfront). rewrite Hfront in Hj, Hsorted.
      apply elem_of_app in Hj as [Hj | Hj%list_elem_of_singleton]; [| lia].
      pose proof (StronglySorted_app_1_elem_of _ _ _ j iu Hsorted Hj
                    ltac:(by apply list_elem_of_singleton)).
      lia. }
  exists u, i0, iu.
  split; [by apply elem_of_inds_of |]. split; [by apply elem_of_inds_of |].
  split.
  { destruct inds as [| i1 inds]; [simpl in Hu; lia |].
    assert (i0 < i1)%nat as Hlt.
    { apply StronglySorted_inv in Hsorted as [_ Hall].
      by apply Forall_cons in Hall as [? _]. }
    specialize (Hrange i1 ltac:(right; left)). lia. }
  split.
  { intros j Hj. apply Hrange. rewrite <- Hinds. by apply elem_of_inds_of. }
  split.
  { intros v j1 j2 Hj1 Hj2 Hne.
    assert (1 < length (inds_of rel v))%nat as Hv.
    { apply elem_of_inds_of in Hj1, Hj2.
      pose proof (inds_of_sorted rel v) as Hsv.
      destruct (inds_of rel v) as [| a [| b t]]; simpl; [| | lia].
      - by apply elem_of_nil in Hj1.
      - apply list_elem_of_singleton in Hj1, Hj2. congruence. }
    assert (v ∈ np_unique Z.leb rel) as Hin
      by (by eapply elem_of_np_unique, list_elem_of_lookup_2).
    pose proof (np_unique_sorted rel) as Hs. rewrite Hgroups in Hin, Hs.
    apply elem_of_app in Hin as [Hin | Hin].
    - pose proof (StronglySorted_app_1_elem_of _ _ _ v u Hs Hin ltac:(left)).
      lia.
    - apply elem_of_cons in Hin as [-> | Hin]; [done |].
      by eapply Forall_forall in Hpost. }
  intros c x later Hc. rewrite Hcs in Hc.
  apply elem_of_replicate in Hc as [-> _].
  rewrite Hcells.
  unfold call_constraint, call_closure, sigma_entry. cbn [fun_ cells code].
  rewrite <- app_assoc, lookup_app_r by done.
  by rewrite Nat.sub_diag.
Qed.

(** X7, witness: three lines in one width group. *)
Lemma sigma_constraints_tie_one_pair_witness :
  ∃ u i0 iu,
    [1; 1; 1]%Z !! i0 = Some u ∧ [1; 1; 1]%Z !! iu = Some u ∧ (i0 < iu)%nat
    ∧ ∀ c x later,
        c ∈ (sigma_constraints_body [1; 1; 1]%Z []).1 →
        call_constraint ((sigma_constraints_body [1; 1; 1]%Z []).2 ++ later) c x
        = (a ← getitem x (3 * i0 + 2); b ← getitem x (3 * iu + 2); mret (a - b)).
Proof.
  destruct (sigma_constraints_tie_one_pair [1; 1; 1]%Z []
              ltac:(repeat (constructor; [lia |]); constructor) ltac:(done))
    as (u & i0 & iu & H0 & Hu & Hlt & _ & _ & Hcall).
  exists u, i0, iu. split; [exact H0 |]. split; [exact Hu |].
  split; [exact Hlt | exact Hcall].
Defined.

(** ** The transmission filter *)

Section Transmission.

Lemma mapM_result_ok {A B} (f : A → result B) (xs : list A) (ys : list B) :
  Forall2 (λ x y, f x = inr y) xs ys → mapM f xs = inr ys.
Proof.
  induction 1 as [| x y xs ys Hxy _ IH]; [done |].
  simpl. rewrite Hxy. simpl. by rewrite IH.
Qed.

Lemma mapM_result_fail {A B} (f : A → result B) (pre post : list A) x e
    (ys : list B) :
  Forall2 (λ x y, f x = inr y) pre ys → f x = inl e →
  mapM f (pre ++ x :: post) = inl e.
Proof.
  induction 1 as [| x' y xs ys Hxy _ IH]; intros Hx; simpl.
  - by rewrite Hx.
  - rewrite Hxy. simpl. by rewrite IH.
Qed.

End Transmission.

(** X8.  With a transmission curve of at least the length of the spectrum,
    [apply_transmission] replaces the spectrum, sample by sample: a sample
    whose transmission exceeds 0.5 is divided by it, any other is left as it
    is; the spectrum keeps its length and no other attribute changes.  A
    curve shorter than the spectrum raises [IndexError]. *)
Theorem apply_transmission_divides_where_transmission_is_high
    (self : Fit.t) (tf : list Qc) :
  Fit.trans_filter self = Some tf →
  ((length (Fit.spectrum self) ≤ length tf)%nat →
   Fit.apply_transmission self
   = inr (Fit.set_spectrum
            (zip_with (λ s tr, if decide (qd 1 2 < tr) then s / tr else s)
                      (Fit.spectrum self) tf)
            self))
  ∧ ((length tf < length (Fit.spectrum self))%nat →
     Fit.apply_transmission self = inl IndexError).
Proof.
  intros Htf. unfold Fit.apply_transmission. rewrite Htf. split; intros Hlen.
  - erewrite mapM_result_ok; [done |].
    apply Forall2_same_length_lookup_2.
    + rewrite length_seq, length_zip_with. lia.
    + intros i j v Hi Hv. apply lookup_seq in Hi as [-> Hi]. simpl.
      apply lookup_zip_with_Some in Hv as (s & tr & -> & Hs & Htr).
      unfold getitem. by rewrite Htr, Hs.
  - replace (seq 0 (length (Fit.spectrum self)))
      with (seq 0 (length tf)
              ++ length tf :: seq (S (length tf))
                                  (length (Fit.spectrum self) - S (length tf))).
    + erewrite (mapM_result_fail _ _ _ _ IndexError
                  (zip_with (λ s tr, if decide (qd 1 2 < tr) then s / tr else s)
                            (take (length tf) (Fit.spectrum self)) tf));
        [done | |].
      * apply Forall2_same_length_lookup_2.
        -- rewrite length_seq, length_zip_with, length_take. lia.
        -- intros i j v Hi Hv. apply lookup_seq in Hi as [-> Hi]. simpl.
           apply lookup_zip_with_Some in Hv as (s & tr & -> & Hs & Htr).
           apply lookup_take_Some in Hs as [Hs _].
           unfold getitem. by rewrite Htr, Hs.
      * unfold getitem. by rewrite (lookup_ge_None_2 tf (length tf)) by lia.
    + change (length tf :: seq (S (length tf))
                (length (Fit.spectrum self) - S (length tf)))
        with (seq (length tf) (S (length (Fit.spectrum self) - S (length tf)))).
      rewrite <- (Nat.add_0_l (length tf)) at 2.
      rewrite <- seq_app. f_equal. lia.
Qed.

(** X8, witness: the five-sample spectrum behind a curve of five samples. *)
Lemma apply_transmission_divides_where_transmission_is_high_witness :
  Fit.trans_filter (at_restriction with_transmission fresh_world)
  = Some transmission5
  ∧ Fit.apply_transmission (at_restriction with_transmission fresh_world)
    = inr (Fit.set_spectrum
             (zip_with (λ s tr, if decide (qd 1 2 < tr) then s / tr else s)
                (Fit.spectrum (at_restriction with_transmission fresh_world))
                transmission5)
             (at_restriction with_transmission fresh_world)).
Proof.
  split; [reflexivity |].
  apply (apply_transmission_divides_where_transmission_is_high
           (at_restriction with_transmission fresh_world) transmission5
           eq_refl).
  vm_compute. lia.
Defined.

(** ** Back to the flux scale of the input *)

Section Unscale.
Context {A : Type} (times : A → A → A) (scale : A).

Lemma for_each_app {B S} (l1 l2 : list B) (body : B → S → result S) (s : S) :
  for_each (F := result) (l1 ++ l2) body s
  = s' ← for_each (F := result) l1 body s; for_each (F := result) l2 body s'.
Proof.
  revert s. induction l1 as [| x l1 IH]; intros s; [done |].
  simpl. destruct (body x s) as [e | s1]; [done |]. simpl. apply IH.
Qed.

Lemma update_at_run (v : list A) (i : nat) (f : A → A) (x : A) :
  v !! i = Some x → Fit.update_at v i f = inr (<[i := f x]> v).
Proof.
  intros Hx. unfold Fit.update_at, getitem, setitem. rewrite Hx. simpl.
  rewrite decide_True; [done |]. by eapply lookup_lt_Some.
Qed.

(** The vector after the amplitudes of the first [k] lines were rescaled. *)
Lemma rescale_step (k : nat) (p : list A) :
  (3 * k < length p)%nat →
  Fit.update_at
    (imap (λ j v, if decide (j `mod` 3 = 0 ∧ j < 3 * k)%nat
                  then times v scale else v) p)
    (k * 3) (λ v, times v scale)
  = inr (imap (λ j v, if decide (j `mod` 3 = 0 ∧ j < 3 * S k)%nat
                      then times v scale else v) p).
Proof.
  intros Hlen.
  destruct (lookup_lt_is_Some_2 p (k * 3)) as [x Hx]; [lia |].
  rewrite (update_at_run _ _ _ x).
  - f_equal. apply list_eq. intros j.
    destruct (decide (j = k * 3)%nat) as [-> | Hne].
    + rewrite list_lookup_insert_eq by (rewrite length_imap; lia).
      rewrite list_lookup_imap, Hx. cbn [fmap option_fmap option_map].
      rewrite decide_True; [done |].
      split; [apply Nat.Div0.mod_mul | lia].
    + rewrite list_lookup_insert_ne by done.
      rewrite !list_lookup_imap. destruct (p !! j) as [v |]; [| done].
      cbn [fmap option_fmap option_map]. f_equal.
      destruct (decide (j `mod` 3 = 0)%nat) as [Hmod | Hmod].
      * pose proof (Nat.Div0.div_mod j 3) as Hdiv. rewrite Hmod in Hdiv.
        repeat case_decide; try done; exfalso; lia.
      * by rewrite !decide_False by tauto.
  - rewrite list_lookup_imap, Hx. cbn [fmap option_fmap option_map].
    rewrite decide_False; [done |]. lia.
Qed.

Lemma rescale_loop (n : nat) (p u : list A) :
  (0 < n → 3 * (n - 1) < length p ∧ 3 * (n - 1) < length u)%nat →
  for_each (F := result) (seq 0 n)
    (λ i '(p, u),
       p ← Fit.update_at p (i * 3) (λ v, times v scale);
       u ← Fit.update_at u (i * 3) (λ v, times v scale);
       mret (p, u))
    (p, u)
  = inr (imap (λ j v, if decide (j `mod` 3 = 0 ∧ j < 3 * n)%nat
                      then times v scale else v) p,
         imap (λ j v, if decide (j `mod` 3 = 0 ∧ j < 3 * n)%nat
                      then times v scale else v) u).
Proof.
  induction n as [| n IH]; intros Hlen.
  - assert (Hid : ∀ l : list A,
              imap (λ j v, if decide (j `mod` 3 = 0 ∧ j < 3 * 0)%nat
                           then times v scale else v) l = l).
    { intros l. apply list_eq. intros j. rewrite list_lookup_imap.
      destruct (l !! j) as [v |]; [| done].
      cbn [fmap option_fmap option_map].
      rewrite decide_False; [done | lia]. }
    by rewrite !Hid.
  - rewrite seq_S, for_each_app, IH by (intros; simpl in Hlen; lia).
    cbn [mbind result_bind for_each mret result_ret]. rewrite Nat.add_0_l.
    assert (3 * n < length p ∧ 3 * n < length u)%nat as [Hp Hu] by lia.
    rewrite (rescale_step n p Hp). cbn [mbind result_bind].
    by rewrite (rescale_step n u Hu).
Qed.

End Unscale.

(** X9.  On a parameter vector and an error vector with three entries per
    line and one for the continuum, the loop that ends [calculate_params]
    and [fit_Bayes] multiplies the amplitude of every line and the continuum
    by the scale of the spectrum, in both vectors, and leaves the positions
    and the widths as the solver returned them, whatever the arithmetic of
    the numbers. *)
Theorem unscale_touches_amplitudes_and_continuum {A} (times : A → A → A)
    (scale : A) (n : nat) (parameters errors : list A) :
  length parameters = (3 * n + 1)%nat →
  length errors = (3 * n + 1)%nat →
  Fit.unscale times scale n parameters errors
  = inr (imap (λ j v, if decide (j `mod` 3 = 0)%nat then times v scale else v)
              parameters,
         imap (λ j v, if decide (j `mod` 3 = 0)%nat then times v scale else v)
              errors).
Proof.
  intros Hp Hu. unfold Fit.unscale.
  rewrite rescale_loop by lia. cbn [mbind result_bind].
  assert (Hlast : ∀ l : list A, length l = (3 * n + 1)%nat →
    Fit.update_last
      (imap (λ j v, if decide (j `mod` 3 = 0 ∧ j < 3 * n)%nat
                    then times v scale else v) l) (λ v, times v scale)
    = inr (imap (λ j v, if decide (j `mod` 3 = 0)%nat then times v scale else v) l)).
  { intros l Hl. unfold Fit.update_last.
    destruct (imap _ l) eqn:Himap.
    { apply (f_equal length) in Himap. rewrite length_imap in Himap.
      simpl in Himap. lia. }
    rewrite <- Himap. clear Himap.
    rewrite length_imap, Hl.
    replace (3 * n + 1 - 1)%nat with (n * 3)%nat by lia.
    rewrite rescale_step by lia. f_equal. apply imap_ext.
    intros j v Hj. cbn beta. apply lookup_lt_Some in Hj.
    destruct (decide (j `mod` 3 = 0)%nat) as [Hmod | Hmod].
    - pose proof (Nat.Div0.div_mod j 3) as Hdiv. rewrite Hmod in Hdiv.
      rewrite decide_True; [done |]. split; [done | lia].
    - by rewrite decide_False by tauto. }
  rewrite (Hlast parameters Hp). cbn [mbind result_bind].
  by rewrite (Hlast errors Hu).
Qed.

(** X9, witness: one line; amplitude 2 and continuum 1 at the scale 4. *)
Lemma unscale_touches_amplitudes_and_continuum_witness :
  Fit.unscale Qcmult (qz 4) 1 (qz 2 :: qz 15238 :: qz 3 :: qz 1 :: nil)%list
              (np_zeros 4)
  = inr (imap (λ j v, if decide (j `mod` 3 = 0)%nat then v * qz 4 else v)
              (qz 2 :: qz 15238 :: qz 3 :: qz 1 :: nil)%list,
         imap (λ j v, if decide (j `mod` 3 = 0)%nat then v * qz 4 else v)
              (np_zeros 4)).
Proof.
  apply (unscale_touches_amplitudes_and_continuum Qcmult (qz 4) 1
           (qz 2 :: qz 15238 :: qz 3 :: qz 1 :: nil)%list (np_zeros 4));
    reflexivity.
Defined.

(** ** The restricted arrays *)

(** X10.  The wavelength restriction cuts the normalized spectrum and the
    axis at the same two positions: with a spectrum as long as the axis, both
    restricted arrays have [hi - lo] samples, sample [i] of each being sample
    [lo + i] of the original.  The sample nearest to the upper bound, at
    [hi], is not part of them. *)
Theorem restricted_arrays_are_aligned (self : Fit.t) (w : world)
    lo hi self' w' :
  Fit.restrict_wavelength self w = (inr (lo, hi, self'), w') →
  length (Fit.spectrum_normalized self) = length (Fit.axis self) →
  (hi < length (Fit.axis self))%nat
  ∧ length (Fit.spectrum_restricted self') = (hi - lo)%nat
  ∧ length (Fit.axis_restricted self') = (hi - lo)%nat
  ∧ ∀ i, (i < hi - lo)%nat →
      Fit.spectrum_restricted self' !! i
      = Fit.spectrum_normalized self !! (lo + i)%nat
      ∧ Fit.axis_restricted self' !! i = Fit.axis self !! (lo + i)%nat.
Proof.
  intros Hrun Hlen.
  pose proof (restrict_wavelength_inv _ _ _ _ _ _ Hrun) as ->.
  assert (hi < length (Fit.axis self))%nat as Hhi.
  { unfold Fit.restrict_wavelength in Hrun.
    apply bind_ok in Hrun as (? & w1 & _ & Hrun).
    apply bind_ok in Hrun as ([lo' hi'] & w2 & Hidx & Hrun).
    apply ret_ok in Hrun as [Heq _]. injection Heq as -> -> _.
    unfold Fit.window_indices in Hidx.
    apply bind_ok in Hidx as (L & w3 & _ & Hidx).
    apply bind_ok in Hidx as (lo' & w4 & _ & Hidx).
    apply bind_ok in Hidx as (U & w5 & _ & Hidx).
    apply bind_ok in Hidx as (hi' & w6 & Hup & Hidx).
    apply ret_ok in Hidx as [Heq _]. injection Heq as -> ->.
    apply lift_ok in Hup as [Hup _].
    destruct (decide (Fit.axis self = [])) as [Hnil | Hne].
    { rewrite Hnil in Hup. destruct (nearest_index_empty U) as [e He].
      congruence. }
    destruct (nearest_index_spec (Fit.axis self) U Hne) as (j & b & Hj & Hb & _).
    rewrite Hup in Hj. injection Hj as <-. by eapply lookup_lt_Some. }
  cbn. unfold slice.
  rewrite !length_take, !length_drop.
  split; [done |]. split; [lia |]. split; [lia |].
  intros i Hi. by rewrite !lookup_take_lt, !lookup_drop by done.
Qed.

(** X10, witness: the SN3 window on the five-sample axis. *)
Lemma restricted_arrays_are_aligned_witness :
  ∃ lo hi self' w',
    Fit.restrict_wavelength (at_restriction one_line fresh_world) fresh_world
    = (inr (lo, hi, self'), w')
    ∧ length (Fit.spectrum_restricted self') = (hi - lo)%nat
    ∧ length (Fit.axis_restricted self') = (hi - lo)%nat.
Proof.
  assert (Hok : is_ok (Fit.restrict_wavelength
                         (at_restriction one_line fresh_world) fresh_world).1
                = true) by (vm_compute; reflexivity).
  destruct (Fit.restrict_wavelength (at_restriction one_line fresh_world)
              fresh_world) as [[e | [[lo hi] self']] w'] eqn:Hrun;
    [discriminate |].
  destruct (restricted_arrays_are_aligned _ _ lo hi self' w' Hrun eq_refl)
    as (_ & Hs & Ha & _).
  exists lo, hi, self', w'. split; [reflexivity |]. split; [exact Hs | exact Ha].
Defined.

(** ** The driver, in general *)

Section DriverSteps.
Context `{Collaborators}.

(** The uncertainty block of lines 464-472: it assigns [uncertainties] and
    nothing else; [LinAlgError], from the Hessian or from the inversion, is
    answered by zeros, any other exception goes on to the caller. *)
Lemma uncertainty_block_inv (nll : list Qc → M Qc) (parameters : list Qc)
    (self : Fit.t) (w : world) self' w' :
  try_except
    (hessian_calc ← Hessian nll parameters;
     inverse ← lift (np_linalg_inv hessian_calc);
     let covariance_mat := matrix_map Qcopp inverse in
     mret (Fit.set_uncertainties
             ((λ v, np_sqrt (Qcabs v)) <$> Fit.np_diagonal covariance_mat)
             self))
    (λ e, match e with
          | LinAlgError =>
              mret (Fit.set_uncertainties (np_zeros (length parameters)) self)
          | _ => raise e
          end) w = (inr self', w') →
  ∃ errors,
    self' = Fit.set_uncertainties errors self
    ∧ ((∀ m, np_linalg_inv m = inl LinAlgError) →
       errors = np_zeros (length parameters)).
Proof.
  unfold try_except.
  destruct ((hessian_calc ← Hessian nll parameters;
             inverse ← lift (np_linalg_inv hessian_calc);
             let covariance_mat := matrix_map Qcopp inverse in
             mret (Fit.set_uncertainties
                     ((λ v, np_sqrt (Qcabs v)) <$> Fit.np_diagonal covariance_mat)
                     self)) w) as [[e | s] w1] eqn:Hblock.
  - destruct e; try (unfold raise; discriminate).
    intros Hrun. apply ret_ok in Hrun as [<- _]. eauto.
  - intros [= <- <-].
    apply bind_ok in Hblock as (hessian_calc & w2 & _ & Hblock).
    apply bind_ok in Hblock as (inverse & w3 & Hinv & Hblock).
    apply lift_ok in Hinv as [Hinv _].
    apply ret_ok in Hblock as [<- _].
    eexists. split; [done |]. intros Hsingular.
    by rewrite Hsingular in Hinv.
Qed.

(** The steps of [calculate_params], read off a call that returned. *)
Lemma calculate_params_inv (self : Fit.t) (w : world) self' w' :
  Fit.calculate_params self w = (inr self', w') →
  ∃ self2 parameters p e,
    Fit.request self2 = Fit.request self
    ∧ Fit.spectrum_scale self2 = Fit.spectrum_scale self
    ∧ (if Fit.uncertainty_bool self
       then (∀ m, np_linalg_inv m = inl LinAlgError) →
            Fit.uncertainties self2 = np_zeros (length parameters)
       else Fit.uncertainties self2 = Fit.uncertainties self)
    ∧ Fit.unscale Qcmult (Fit.spectrum_scale self2) (Fit.line_num self2) parameters
                  (Fit.uncertainties self2) = inr (p, e)
    ∧ Fit.reconstruct (Fit.set_fit_sol p (Fit.set_uncertainties e self2))
      = inr self'.
Proof.
  intros Hrun. unfold Fit.calculate_params in Hrun. cbv zeta in Hrun.
  apply bind_ok in Hrun as (cont & w1 & _ & Hrun).
  apply bind_ok in Hrun as (initial & w2 & _ & Hrun).
  apply bind_ok in Hrun as ([[self1 initial1] bounds_] & w3 & Hloop & Hrun).
  apply lift_ok in Hloop as [Hloop _].
  pose proof (initial_guess_scale _ _ _ _ _ _ _ Hloop) as Hscale1.
  apply initial_guess_kept in Hloop as [Hreq Hunc].
  apply bind_ok in Hrun as (cons & w4 & _ & Hrun).
  apply bind_ok in Hrun as (parameters & w5 & _ & Hrun).
  apply bind_ok in Hrun as (self2 & w6 & Hbranch & Hrun).
  apply bind_ok in Hrun as ([p e] & w7 & Hunscale & Hrun).
  apply lift_ok in Hunscale as [Hunscale _].
  apply lift_ok in Hrun as [Hrun _].
  exists self2, parameters, p, e.
  assert (Fit.uncertainty_bool self1 = Fit.uncertainty_bool self) as Hflag.
  { unfold Fit.request in Hreq. by injection Hreq as _ _ _ _ _ _ _ _ _ _ Hu _. }
  cbn [Fit.uncertainty_bool Fit.set_inital_values] in Hbranch.
  rewrite Hflag in Hbranch.
  destruct (Fit.uncertainty_bool self).
  - apply uncertainty_block_inv in Hbranch as (errors & -> & Hzero).
    repeat split; try done.
  - apply ret_ok in Hbranch as [<- _]. repeat split; done.
Qed.

(** The steps of [fit_Bayes], read off a call that returned. *)
Lemma fit_Bayes_inv (self : Fit.t) (w : world) self' w' :
  Fit.fit_Bayes self w = (inr self', w') →
  ∃ sol p e,
    Fit.reconstruct
      (Fit.set_fit_sol p (Fit.set_uncertainties e (Fit.set_fit_sol sol self)))
    = inr self'.
Proof.
  intros Hrun. unfold Fit.fit_Bayes in Hrun. cbv zeta in Hrun.
  apply bind_ok in Hrun as (sol0 & w1 & _ & Hrun).
  apply bind_ok in Hrun as (sol & w2 & _ & Hrun).
  apply bind_ok in Hrun as (normal & w3 & _ & Hrun).
  apply bind_ok in Hrun as (init0 & w4 & _ & Hrun).
  apply bind_ok in Hrun as (init1 & w5 & _ & Hrun).
  apply bind_ok in Hrun as (flat_samples & w6 & _ & Hrun).
  apply bind_ok in Hrun as (statistics & w7 & _ & Hrun).
  apply bind_ok in Hrun as ([p e] & w8 & _ & Hrun).
  apply lift_ok in Hrun as [Hrun _]. eauto.
Qed.

Lemma mapM_result_inv {A B} (f : A → result B) (xs : list A) (ys : list B) :
  mapM f xs = inr ys → Forall2 (λ x y, f x = inr y) xs ys.
Proof.
  revert ys. induction xs as [| x xs IH]; intros ys Hrun; simpl in Hrun.
  - injection Hrun as <-. constructor.
  - apply rbind_ok in Hrun as (y & Hy & Hrun).
    apply rbind_ok in Hrun as (ys' & Hys & Hrun).
    injection Hrun as <-. constructor; [done | by apply IH].
Qed.

(** The last steps of [fit]: the session that reaches the goodness of fit
    holds the request of the session [fit] was called on, and the wavelength
    restriction of [calc_chisquare] is the last to touch the session and the
    process. *)
Lemma fit_last_step (self : Fit.t) (w : world) d self' w' :
  Fit.fit self w = (inr (d, self'), w') →
  ∃ s3 w3 lo hi per_line,
    Fit.request s3 = Fit.request self
    ∧ Fit.restrict_wavelength s3 w3 = (inr (lo, hi, self'), w')
    ∧ mapM (Fit.line_quantities self') (seq 0 (length (Fit.lines self')))
      = inr per_line
    ∧ d !! "fit_axis" = Some (VVec (Fit.axis self'))
    ∧ d !! "amplitudes" = Some (VVec ((λ q, q.1.1.1.1.1.1) <$> per_line))
    ∧ d !! "fluxes" = Some (VVec ((λ q, q.1.1.1.1.1.2) <$> per_line))
    ∧ d !! "flux_errors" = Some (VVec ((λ q, q.2) <$> per_line))
    ∧ d !! "velocities" = Some (VVec ((λ q, q.1.1.1.1.2) <$> per_line))
    ∧ d !! "sigmas" = Some (VVec ((λ q, q.1.1.1.2) <$> per_line))
    ∧ d !! "vels_errors" = Some (VVec ((λ q, q.1.1.2) <$> per_line))
    ∧ d !! "sigmas_errors" = Some (VVec ((λ q, q.1.2) <$> per_line)).
Proof.
  intros Hfit.
  apply fit_inv in Hfit
    as (s1 & w1 & s2 & w2 & s3 & w3 & fv & chi & red & per_line & continuum
        & [Hreq1 _] & _ & Hparams & Hbayes & _ & Hchi & Hlines & _ & ->).
  apply calculate_params_inv in Hparams
    as (s & parameters & p & e & Hreq2 & _ & _ & _ & Hrec).
  apply reconstruct_kept in Hrec as [[Hreq3 _] _].
  change (Fit.request s2 = Fit.request s) in Hreq3.
  assert (Fit.request s3 = Fit.request self) as Hreq.
  { destruct (Fit.bayes_bool s2).
    - apply fit_Bayes_inv in Hbayes as (sol & p' & e' & Hrec).
      apply reconstruct_kept in Hrec as [[Hreq4 _] _].
      change (Fit.request s3 = Fit.request s2) in Hreq4. congruence.
    - destruct Hbayes as [-> _]. congruence. }
  apply calc_chisquare_inv in Hchi as (lo & hi & Hwindow).
  exists s3, w3, lo, hi, per_line.
  split; [exact Hreq |]. split; [exact Hwindow |]. split; [exact Hlines |].
  repeat split; done.
Qed.

End DriverSteps.

(** X11.  A fit that returns has changed nothing of what the session was
    asked for: lines, line shape, velocity and width groups, filter, axis
    and the three flags are those of the session it was called on, and the
    entry "fit_axis" of its record is that axis. *)
Theorem fit_keeps_the_request `{Collaborators}
    (self : Fit.t) (w : world) d self' w' :
  Fit.fit self w = (inr (d, self'), w') →
  Fit.request self' = Fit.request self
  ∧ d !! "fit_axis" = Some (VVec (Fit.axis self)).
Proof.
  intros Hfit.
  apply fit_last_step in Hfit
    as (s3 & w3 & lo & hi & per_line & Hreq & Hwindow & _ & Haxis & _).
  apply restrict_wavelength_inv in Hwindow as ->.
  change (Fit.request s3 = Fit.request self ∧ d !! "fit_axis"
          = Some (VVec (Fit.axis self))).
  split; [exact Hreq |].
  unfold Fit.request in Hreq. injection Hreq as _ _ _ _ _ _ _ _ Hsame _ _ _.
  rewrite Haxis. cbn [Fit.axis Fit.set_axis_restricted Fit.set_spectrum_restricted].
  by rewrite Hsame.
Qed.

(** X11, witness: the fit of the H-alpha session. *)
Lemma fit_keeps_the_request_witness :
  Fit.request (fit_outcome (constructed one_line fresh_world)
                 after_one_session).1.2
  = Fit.request (constructed one_line fresh_world).
Proof.
  exact (proj1 (fit_keeps_the_request (constructed one_line fresh_world)
                  after_one_session _ _ _ one_line_fit_completes)).
Defined.

(** ** What a fit leaves behind and returns *)

Section FitOutcome.
Context `{Collaborators}.




End FitOutcome.

(** X12.  A fit that returns leaves in the process the bounds of the
    wavelength restriction of the session's filter: the goodness of fit
    restricts the wavelengths once more, after everything else, so the noise
    bounds that the construction had left are gone. *)
Theorem fit_leaves_the_restriction_bounds `{Collaborators}
    (self : Fit.t) (w : world) d self' w' :
  Fit.fit self w = (inr (d, self'), w') →
  Fit.supported (Fit.filter self) (Fit.lines self) →
  bound_lower w' = Some (restriction_bounds (Fit.filter self)).1
  ∧ bound_upper w' = Some (restriction_bounds (Fit.filter self)).2.
Proof.
  intros Hfit Hsup.
  apply fit_last_step in Hfit
    as (s3 & w3 & lo & hi & per_line & Hreq & Hwindow & _).
  unfold Fit.request in Hreq.
  injection Hreq as _ _ _ Hlines _ _ _ Hfilter _ _ _ _.
  rewrite <- Hfilter. rewrite <- Hfilter, <- Hlines in Hsup.
  pose proof (restrict_wavelength_world s3 w3 Hsup) as Hworld.
  rewrite Hwindow in Hworld. simpl in Hworld. by subst w'.
Qed.

(** X12, witness: after the fit of the H-alpha session, filter SN3, the
    bounds are 14500 and 15400. *)
Lemma fit_leaves_the_restriction_bounds_witness :
  bound_lower (fit_outcome (constructed one_line fresh_world)
                 after_one_session).2 = Some (qz 14500)
  ∧ bound_upper (fit_outcome (constructed one_line fresh_world)
                   after_one_session).2 = Some (qz 15400).
Proof.
  apply (fit_leaves_the_restriction_bounds (constructed one_line fresh_world)
           after_one_session _ _ _ one_line_fit_completes).
  compute_done.
Defined.

(** X13.  The record of a fit that returns lists one amplitude, flux,
    velocity and broadening, and one error on each of the last three, per
    requested line, in the order of the lines; the amplitude of line [i] is
    entry [3 * i] of the solution. *)
Theorem fit_lists_one_entry_per_line `{Collaborators}
    (self : Fit.t) (w : world) d self' w' :
  Fit.fit self w = (inr (d, self'), w') →
  (∃ amplitudes,
     d !! "amplitudes" = Some (VVec amplitudes)
     ∧ length amplitudes = length (Fit.lines self)
     ∧ ∀ i, (i < length (Fit.lines self))%nat →
            amplitudes !! i = Fit.fit_sol self' !! (i * 3)%nat
            ∧ is_Some (amplitudes !! i))
  ∧ Forall (λ key, ∃ entries, d !! key = Some (VVec entries)
                              ∧ length entries = length (Fit.lines self))
           [ "fluxes"; "flux_errors"; "velocities"; "sigmas"; "vels_errors";
             "sigmas_errors" ].
Proof.
  intros Hfit.
  apply fit_last_step in Hfit
    as (s3 & w3 & lo & hi & per_line & Hreq & Hwindow & Hlines & _ & Hamp
        & Hflux & Hfluxerr & Hvel & Hsig & Hvelerr & Hsigerr).
  apply restrict_wavelength_inv in Hwindow as Hself.
  assert (Fit.lines self' = Fit.lines self) as Hsame.
  { rewrite Hself. unfold Fit.request in Hreq.
    by injection Hreq as _ _ _ Hl _ _ _ _ _ _ _ _. }
  rewrite Hsame in Hlines.
  apply mapM_result_inv in Hlines.
  pose proof (Forall2_length _ _ _ Hlines) as Hlen. rewrite length_seq in Hlen.
  split.
  - eexists. split; [exact Hamp |]. split; [by rewrite length_fmap |].
    intros i Hi.
    destruct (lookup_lt_is_Some_2 per_line i) as [q Hq]; [lia |].
    pose proof (Forall2_lookup_lr _ _ _ i i q Hlines
                  ltac:(by rewrite lookup_seq_lt) Hq) as Hline.
    unfold Fit.line_quantities in Hline.
    apply rbind_ok in Hline as (ampl & Hampl & Hline).
    apply rbind_ok in Hline as (sigma & _ & Hline).
    apply rbind_ok in Hline as (flux & _ & Hline).
    apply rbind_ok in Hline as (vel & _ & Hline).
    apply rbind_ok in Hline as (broad & _ & Hline).
    apply rbind_ok in Hline as (vel_err & _ & Hline).
    apply rbind_ok in Hline as (broad_err & _ & Hline).
    apply rbind_ok in Hline as (flux_err & _ & Hline).
    injection Hline as <-.
    rewrite list_lookup_fmap, Hq. simpl.
    unfold getitem in Hampl.
    destruct (Fit.fit_sol self' !! (i * 3)%nat) as [v |]; [| done].
    injection Hampl as ->. by split.
  - repeat (constructor;
              [eexists; split; [eassumption | by rewrite length_fmap] |]).
    constructor.
Qed.

(** X13, witness: the record of the fit of the H-alpha session. *)
Lemma fit_lists_one_entry_per_line_witness :
  ∃ amplitudes,
    (fit_outcome (constructed one_line fresh_world) after_one_session).1.1
      !! "amplitudes" = Some (VVec amplitudes)
    ∧ length amplitudes = length (Fit.lines (constructed one_line fresh_world)).
Proof.
  destruct (fit_lists_one_entry_per_line (constructed one_line fresh_world)
              after_one_session _ _ _ one_line_fit_completes)
    as [(amplitudes & Hd & Hlen & _) _].
  exists amplitudes. split; [exact Hd | exact Hlen].
Defined.


